(** * SafeFormat: the type-safe printf of Loki (SafeFormat.h)

    A shallow embedding of [PrintfState] and of the three [write] sinks,
    followed by the properties of the formatter.

    Data model.  The source passes [width_] (a [size_t]) to
    [ParseDecimalUInt(unsigned int&)], which only compiles where [size_t] is
    [unsigned int]; the embedding therefore fixes the ILP32 data model:
    [int], [long], [size_t], [ptrdiff_t] and pointers are 32 bits wide,
    [short] is 16 bits and [char] is 8 bits.  The character type [Char] of
    the templates is [char], as the [operator()] for C strings needs it and
    as [Printf], [FPrintf] and [SPrintf] fix it.  Unsigned arithmetic wraps
    modulo [2^32]; a signed [int] overflow, a read past the terminator of
    the format string and a write past the end of an array are undefined
    behaviour and are an outcome of their own. *)

From Stdlib Require Import ZArith List Ascii String Bool Lia.
Import ListNotations.
Local Open Scope Z_scope.

(** ** Characters and machine integers *)

Abbreviation Char := ascii.
Definition NUL : Char := Ascii.zero.

Definition code (c : Char) : Z := Z.of_N (N_of_ascii c).
Definition char_of (z : Z) : Char := ascii_of_N (Z.to_N (z mod 256)).

Definition lit (s : string) : list Char := list_ascii_of_string s.

Definition len {A} (l : list A) : Z := Z.of_nat (List.length l).

(** [2^32]. *)
Definition WORD : Z := 4294967296.
Definition INT_MIN : Z := -2147483648.
Definition INT_MAX : Z := 2147483647.
Definition LONG_MIN : Z := -2147483648.
Definition LONG_MAX : Z := 2147483647.
Definition EOF : Z := -1.
(** [size_t(-1)], the "precision not given" mark. *)
Definition SIZE_MAX : Z := WORD - 1.

(** [static_cast<unsigned long>] and [static_cast<size_t>]. *)
Definition to_ulong (n : Z) : Z := n mod WORD.
Definition to_size_t (n : Z) : Z := n mod WORD.
(** [static_cast<long>] of an [unsigned long]. *)
Definition to_long (i : Z) : Z := if i <? 2147483648 then i else i - WORD.
(** [static_cast<unsigned short>] and the conversion of an [int] to [short]. *)
Definition to_ushort (i : Z) : Z := i mod 65536.
Definition to_short (i : Z) : Z :=
  let u := i mod 65536 in if u <? 32768 then u else u - 65536.

(** ** Outcomes of a call *)

Inductive outcome (A : Type) : Type :=
| Ok (a : A)
| Thrown        (* std::overflow_error leaves the call *)
| Aborted       (* an assert failed *)
| Undefined.    (* undefined behaviour *)
Arguments Ok {A} a.
Arguments Thrown {A}.
Arguments Aborted {A}.
Arguments Undefined {A}.

Definition bind {A B} (m : outcome A) (k : A -> outcome B) : outcome B :=
  match m with
  | Ok a => k a
  | Thrown => Thrown
  | Aborted => Aborted
  | Undefined => Undefined
  end.

Notation "x <- m ;; k" := (bind m (fun x => k))
  (at level 61, m at next level, right associativity).
Notation "' p <- m ;; k" := (bind m (fun x => match x with p => k end))
  (at level 61, p pattern, m at next level, right associativity).

(** ** Sinks: the overloads of [write] *)

(** A range [from, to) is passed as the list of its characters, which makes
    [assert(from <= to)] hold.  [emitted] is the observation used by the
    properties: the characters a device has received.  [write_emits] is what
    every overload does when it returns. *)
Class Sink (Device : Type) := {
  write : Device -> list Char -> outcome Device;
  emitted : Device -> list Char;
  write_emits : forall d l d', write d l = Ok d' -> emitted d' = emitted d ++ l }.

(** A sink whose [write] always returns: the stream and the string. *)
Class Unbounded (Device : Type) {SK : Sink Device} : Prop :=
  write_returns : forall d l, exists d', write d l = Ok d'.

(** [std::FILE*]: the bytes handed to [fwrite] so far. *)
Record FILE := mkFILE { file_bytes : list Char }.

Definition write_file (f : FILE) (l : list Char) : outcome FILE :=
  Ok (mkFILE (file_bytes f ++ l)).

(** [std::string&]. *)
Definition std_string := list Char.

Definition write_string (s : std_string) (l : list Char) : outcome std_string :=
  Ok (s ++ l).

(** [std::pair<Char*, std::size_t>]: [first] points into an array; the cells
    before it are [filled], [room] cells of the array are left from it on.
    [second] is the count the pair carries. *)
Record CharBuffer := mkBuffer {
  filled : list Char;
  room : Z;
  second : Z }.

(** [if (from + s.second > to) throw]: with [to - from = len l] this is
    [s.second > len l].  [copy] past the array is undefined. *)
Definition write_buffer (s : CharBuffer) (l : list Char) : outcome CharBuffer :=
  if len l <? second s then Thrown
  else if room s <? len l then Undefined
  else Ok (mkBuffer (filled s ++ l) (room s - len l) ((second s - len l) mod WORD)).

#[export] Instance file_sink : Sink FILE.
Proof.
  refine {| write := write_file; emitted := file_bytes |}.
  intros d l d' E. injection E as <-. reflexivity.
Defined.

#[export] Instance string_sink : Sink std_string.
Proof.
  refine {| write := write_string; emitted := fun s => s |}.
  intros d l d' E. injection E as <-. reflexivity.
Defined.

#[export] Instance buffer_sink : Sink CharBuffer.
Proof.
  refine {| write := write_buffer; emitted := filled |}.
  intros d l d' E. unfold write_buffer in E.
  destruct (len l <? second d); [discriminate|].
  destruct (room d <? len l); [discriminate|].
  injection E as <-. reflexivity.
Defined.

#[export] Instance file_unbounded : Unbounded FILE.
Proof. intros d l. eexists. reflexivity. Qed.

#[export] Instance string_unbounded : Unbounded std_string.
Proof. intros d l. eexists. reflexivity. Qed.

(** ** The C library the formatter calls *)

(** [strchr(s, c) != 0]: the terminator is part of the searched string. *)
Definition strchr (s : string) (c : Char) : bool :=
  existsb (Ascii.eqb c) (lit s ++ [NUL]).

(** The characters of a buffer up to its first terminator. *)
Fixpoint c_str (l : list Char) : list Char :=
  match l with
  | [] => []
  | c :: l' => if Ascii.eqb c NUL then [] else c :: c_str l'
  end.

Definition strlen (l : list Char) : Z := len (c_str l).

(** [std::isdigit(c, std::locale())] in the classic locale. *)
Definition isdigit (c : Char) : bool := (48 <=? code c) && (code c <=? 57).

(** The floating-point conversions belong to the platform: [snprintf]
    applied to a directive and a value gives the count it returns and the
    contents of [resultBuf]. *)
Class FloatFormat := {
  Double : Type;
  LongDouble : Type;
  snprintf_double : list Char -> Double -> Z * list Char;
  snprintf_long_double : list Char -> LongDouble -> Z * list Char }.

(** A [const char*] argument: its address and the characters it points to. *)
Record CString := mkCString { address : Z; chars : list Char }.

(** Memory reached through the [int*], [short*] and [long*] arguments. *)
Definition Memory := Z -> Z.
Definition store (m : Memory) (p v : Z) : Memory :=
  fun q => if q =? p then v else m q.

Inductive Pointee := to_int_obj | to_short_obj | to_long_obj.

Definition converted (T : Pointee) (r : Z) : Z :=
  match T with
  | to_short_obj => to_short r
  | _ => r
  end.

(** ** PrintfState *)

(** [format_] is a pointer into the format array: [format_] holds the array
    from the pointer on, terminator included ([[]] is one past the end), and
    [behind_] the characters before it, nearest first. *)
Record PrintfState (Device : Type) := mkState {
  device_ : Device;
  behind_ : list Char;
  format_ : list Char;
  width_ : Z;
  prec_ : Z;
  flags_ : Z;
  result_ : Z }.
Arguments mkState {Device}.
Arguments device_ {Device}.
Arguments behind_ {Device}.
Arguments format_ {Device}.
Arguments width_ {Device}.
Arguments prec_ {Device}.
Arguments flags_ {Device}.
Arguments result_ {Device}.

Definition leftJustify : Z := 1.
Definition showSignAlways : Z := 2.
Definition blank : Z := 4.
Definition alternateForm : Z := 8.
Definition fillZeros : Z := 16.
Definition forceShort : Z := 32.

Section Formatter.
Context {Device : Type} {SK : Sink Device} {FF : FloatFormat}.

Local Abbreviation State := (PrintfState Device).

Definition set_device (st : State) (d : Device) : State :=
  mkState d (behind_ st) (format_ st) (width_ st) (prec_ st) (flags_ st) (result_ st).
Definition seek (st : State) (b a : list Char) : State :=
  mkState (device_ st) b a (width_ st) (prec_ st) (flags_ st) (result_ st).
Definition SetWidth (st : State) (w : Z) : State :=
  mkState (device_ st) (behind_ st) (format_ st) w (prec_ st) (flags_ st) (result_ st).
Definition SetPrec (st : State) (p : Z) : State :=
  mkState (device_ st) (behind_ st) (format_ st) (width_ st) p (flags_ st) (result_ st).
Definition set_flags (st : State) (f : Z) : State :=
  mkState (device_ st) (behind_ st) (format_ st) (width_ st) (prec_ st) f (result_ st).
Definition set_result (st : State) (r : Z) : State :=
  mkState (device_ st) (behind_ st) (format_ st) (width_ st) (prec_ st) (flags_ st) r.

Definition has (st : State) (bit : Z) : bool := negb (Z.land (flags_ st) bit =? 0).
Definition raise (st : State) (bit : Z) : State := set_flags st (Z.lor (flags_ st) bit).

Definition LeftJustify (st : State) : bool := has st leftJustify.
Definition ShowSignAlways (st : State) : bool := has st showSignAlways.
Definition Blank (st : State) : bool := has st blank.
Definition AlternateForm (st : State) : bool := has st alternateForm.
Definition FillZeros (st : State) : bool := has st fillZeros.
Definition ForceShort (st : State) : bool := has st forceShort.

Definition SetLeftJustify (st : State) : State := raise st leftJustify.
Definition SetShowSignAlways (st : State) : State := raise st showSignAlways.
Definition SetBlank (st : State) : State := raise st blank.
Definition SetAlternateForm (st : State) : State := raise st alternateForm.
Definition SetFillZeros (st : State) : State := raise st fillZeros.
Definition SetForceShort (st : State) : State := raise st forceShort.
(** [flags_ &= ~fillZeros] on a 32-bit [unsigned]. *)
Definition ResetFillZeros (st : State) : State :=
  set_flags st (Z.land (flags_ st) (WORD - 1 - fillZeros)).

(** [*format_]. *)
Definition peek (st : State) : outcome Char :=
  match format_ st with
  | [] => Undefined
  | c :: _ => Ok c
  end.

(** [format_[1]]. *)
Definition peek1 (st : State) : outcome Char :=
  match format_ st with
  | _ :: c :: _ => Ok c
  | _ => Undefined
  end.

(** [++format_]; every use follows a read of [*format_]. *)
Definition step (st : State) : State :=
  match format_ st with
  | [] => st
  | c :: rest => seek st (c :: behind_ st) rest
  end.

(** [assert(result_ != EOF)] and the reset of the directive. *)
Definition ResetAll (st : State) : outcome State :=
  if result_ st =? EOF then Aborted
  else Ok (mkState (device_ st) (behind_ st) (format_ st) 0 SIZE_MAX 0 (result_ st)).

(** [Write(b, e)] with the range given by its characters.  [result_ += x]
    adds two 32-bit [int]s ([ptrdiff_t] is [int] here): past [INT_MAX] the
    addition is undefined. *)
Definition Write (st : State) (l : list Char) : outcome State :=
  if result_ st <? 0 then Ok st
  else
    d <- write (device_ st) l ;;
    if result_ st + len l <=? INT_MAX
    then Ok (set_result (set_device st d) (result_ st + len l))
    else Undefined.

Fixpoint Fill_loop (st : State) (c : Char) (n : nat) : outcome State :=
  match n with
  | O => Ok st
  | S n' => st' <- Write st [c] ;; Fill_loop st' c n'
  end.

Definition Fill (st : State) (c : Char) (n : Z) : outcome State :=
  Fill_loop st c (Z.to_nat n).

(** The loop of [Advance]: [pending] is the text between [begin] and
    [format_]. *)
Fixpoint Advance_loop (st : State) (pending behind ahead : list Char)
  {struct ahead} : outcome State :=
  match ahead with
  | [] => Undefined
  | c :: rest =>
      if Ascii.eqb c "%" then
        match rest with
        | [] => Undefined
        | c1 :: rest1 =>
            if negb (Ascii.eqb c1 "%") then
              st' <- Write st pending ;;
              Ok (seek st' (c :: behind) rest)
            else
              st' <- Write st (pending ++ [c]) ;;
              Advance_loop st' [] (c1 :: c :: behind) rest1
        end
      else if Ascii.eqb c NUL then
        st' <- Write st pending ;;
        Ok (seek st' behind ahead)
      else Advance_loop st (pending ++ [c]) (c :: behind) rest
  end.

Definition Advance (st : State) : outcome State :=
  st' <- ResetAll st ;;
  Advance_loop st' [] (behind_ st') (format_ st').

Definition Next (st : State) : outcome State :=
  match format_ st with
  | [] => Undefined
  | _ :: _ => Advance (step st)
  end.

(** ** Reading a directive *)

Definition flag_of (c : Char) : option Z :=
  if Ascii.eqb c "-" then Some leftJustify
  else if Ascii.eqb c "+" then Some showSignAlways
  else if Ascii.eqb c " " then Some blank
  else if Ascii.eqb c "#" then Some alternateForm
  else if Ascii.eqb c "0" then Some fillZeros
  else None.

(** The loop of [ReadFlags], on the cursor and the flag word. *)
Fixpoint ReadFlags_loop (flags : Z) (behind ahead : list Char)
  {struct ahead} : outcome (Z * list Char * list Char) :=
  match ahead with
  | [] => Undefined
  | c :: rest =>
      match flag_of c with
      | Some bit => ReadFlags_loop (Z.lor flags bit) (c :: behind) rest
      | None => Ok (flags, behind, ahead)
      end
  end.

Definition ReadFlags (st : State) : outcome State :=
  '(f, b, a) <- ReadFlags_loop (flags_ st) (behind_ st) (format_ st) ;;
  Ok (seek (set_flags st f) b a).

(** The [do ... while] of [ParseDecimalUInt]: [r *= 10; r += *format_ - '0']
    on a 32-bit [unsigned]. *)
Fixpoint ParseDecimalUInt_loop (r : Z) (behind ahead : list Char)
  {struct ahead} : outcome (Z * list Char * list Char) :=
  match ahead with
  | [] => Undefined
  | c :: rest =>
      if isdigit c then
        ParseDecimalUInt_loop ((r * 10 mod WORD + (code c - 48)) mod WORD) (c :: behind) rest
      else Ok (r, behind, ahead)
  end.

(** [dest] is passed by reference: the call gets its old value and returns
    the new one. *)
Definition ParseDecimalUInt (st : State) (dest : Z) : outcome (State * Z) :=
  c <- peek st ;;
  if negb (isdigit c) then Ok (st, dest)
  else
    '(r, b, a) <- ParseDecimalUInt_loop 0 (behind_ st) (format_ st) ;;
    Ok (seek st b a, r).

Definition ReadWidth (st : State) : outcome State :=
  '(st', w) <- ParseDecimalUInt st (width_ st) ;;
  Ok (SetWidth st' w).

Definition ReadPrecision (st : State) : outcome State :=
  c <- peek st ;;
  if negb (Ascii.eqb c ".") then Aborted
  else
    '(st', p) <- ParseDecimalUInt (step st) (prec_ st) ;;
    Ok (SetPrec st' p).

Definition ReadModifiers (st : State) : outcome State :=
  c <- peek st ;;
  if Ascii.eqb c "h" then Ok (step (SetForceShort st))
  else if Ascii.eqb c "l" then Ok (step st)
  else Ok st.

Definition ReadLeaders (st : State) : outcome State :=
  st1 <- ReadFlags st ;;
  st2 <- ReadWidth st1 ;;
  c <- peek st2 ;;
  st3 <- (if Ascii.eqb c "." then ReadPrecision st2 else Ok st2) ;;
  ReadModifiers st3.

(** ** The integer renderer *)

(** The scratch array of [FormatWithCurrentFlags] has
    [sizeof(unsigned long) * 3 + 1 + 2 + 1] cells. *)
Definition bufSize : nat := 16.

(** [RenderWithoutSign(unsigned long, ...)].  [below] counts the cells of the
    array under [bufLast]; [tail] holds the cells above it, already written.
    The result is the range from the returned pointer to [bufEnd]. *)
Fixpoint RenderWithoutSign_ulong (below : nat) (n base : Z) (uppercase : bool)
  (tail : list Char) : outcome (list Char) :=
  let hex1st := if uppercase then code "A"%char else code "a"%char in
  let next := n / base in
  let c := n - next * base in
  let c := char_of (c + (if c <=? 9 then code "0"%char else hex1st - 10)) in
  if next =? 0 then Ok (c :: tail)
  else
    match below with
    | O => Undefined
    | S below' => RenderWithoutSign_ulong below' next base uppercase (c :: tail)
    end.

(** The decrement of the character [save] points to, the last cell of the
    array. *)
Fixpoint decrement_last (l : list Char) : list Char :=
  match l with
  | [] => []
  | [c] => [char_of (code c - 1)]
  | c :: l' => c :: decrement_last l'
  end.

(** [RenderWithoutSign(long, ...)]. *)
Definition RenderWithoutSign_long (below : nat) (n base : Z) (uppercase : bool)
  : outcome (list Char) :=
  if negb (n =? LONG_MIN) then
    RenderWithoutSign_ulong below (to_ulong (if n <? 0 then - n else n)) base uppercase []
  else
    digits <- RenderWithoutSign_ulong below (to_ulong (n + 1)) base uppercase [] ;;
    Ok (decrement_last digits).

(** ** Formatting an integer *)

Definition FormatWithCurrentFlags (st : State) (i : Z) : outcome State :=
  c0 <- peek st ;;
  let isSigned0 := Ascii.eqb c0 "d" || Ascii.eqb c0 "i" in
  let '(formatChar, st, isSigned) :=
    if Ascii.eqb c0 "p" then ("x"%char, SetAlternateForm st, true)
    else (c0, st, isSigned0) in
  if negb (strchr "cdiuoxX" formatChar) then Ok (set_result st (-1))
  else
    let base :=
      if Ascii.eqb formatChar "c" then 10
      else if Ascii.eqb formatChar "o" then 8
      else if Ascii.eqb formatChar "x" || Ascii.eqb formatChar "X" then 16
      else 10 in
    '(st, digits, signChar) <-
      (if Ascii.eqb formatChar "c" then
         Ok (ResetFillZeros st, [char_of i], NUL)
       else
         let negative := isSigned && (to_long i <? 0) in
         digits <-
           (if isSigned
            then RenderWithoutSign_long (bufSize - 1) (to_long i) base (Ascii.eqb formatChar "X")
            else RenderWithoutSign_ulong (bufSize - 1) i base (Ascii.eqb formatChar "X") []) ;;
         let signChar :=
           if isSigned then
             if negative then "-"%char
             else if ShowSignAlways st then "+"%char
             else if Blank st then " "%char
             else NUL
           else NUL in
         Ok (st, digits, signChar)) ;;
    let countDigits := len digits in
    let countZeros :=
      if negb (prec_ st =? SIZE_MAX) && (countDigits <? prec_ st)
         && negb (Ascii.eqb formatChar "c")
      then prec_ st - countDigits else 0 in
    let countBase :=
      if negb (base =? 10) && AlternateForm st && negb (i =? 0)
      then (if base =? 16 then 2 else if 0 <? countZeros then 0 else 1)
      else 0 in
    let countSign := if negb (Ascii.eqb signChar NUL) then 1 else 0 in
    let totalPrintable := (countDigits + countZeros + countBase + countSign) mod WORD in
    let '(countPadLeft, countPadRight) :=
      if totalPrintable <? width_ st then
        if LeftJustify st then (0, width_ st - totalPrintable)
        else (width_ st - totalPrintable, 0)
      else (0, 0) in
    let '(countZeros, countPadLeft) :=
      if FillZeros st && (prec_ st =? SIZE_MAX) then (countPadLeft, 0)
      else (countZeros, countPadLeft) in
    st <- Fill st " "%char countPadLeft ;;
    st <- (if negb (Ascii.eqb signChar NUL) then Write st [signChar] else Ok st) ;;
    st <- (if 0 <? countBase then Fill st "0"%char 1 else Ok st) ;;
    st <- (if countBase =? 2 then Fill st formatChar 1 else Ok st) ;;
    st <- Fill st "0"%char countZeros ;;
    st <- Write st digits ;;
    st <- Fill st " "%char countPadRight ;;
    Next st.

(** ** The overloads of [operator()] *)

(** [operator()(unsigned long)].  The two early [return *this] of the
    deferred width and precision are the [inl] results. *)
Definition call_unsigned_long (st : State) (i : Z) : outcome State :=
  if result_ st =? -1 then Ok st
  else
    st <- ReadFlags st ;;
    c <- peek st ;;
    if Ascii.eqb c "*" then Ok (step (SetWidth st (to_size_t i)))
    else
      st <- ReadWidth st ;;
      c <- peek st ;;
      r <- (if Ascii.eqb c "." then
              c1 <- peek1 st ;;
              if Ascii.eqb c1 "*"
              then Ok (inl (step (step (SetPrec st (to_size_t i)))))
              else st' <- ReadPrecision st ;; Ok (inr st')
            else Ok (inr st)) ;;
      match r with
      | inl st => Ok st
      | inr st =>
          st <- ReadModifiers st ;;
          i <- (if ForceShort st then
                  c <- peek st ;;
                  if Ascii.eqb c "x" || Ascii.eqb c "X" || Ascii.eqb c "u" || Ascii.eqb c "o"
                  then Ok (to_ulong (to_ushort i))
                  else Ok i
                else Ok i) ;;
          FormatWithCurrentFlags st i
      end.

(** [LOKI_PRINTF_STATE_FORWARD(type)]: [par] is the value of the argument. *)
Definition forward (st : State) (par : Z) : outcome State :=
  call_unsigned_long st (to_ulong par).

(** [PrintFloatingPoint]: [snp] is [snprintf] with the value applied. *)
Definition PrintFloatingPoint (st : State) (snp : list Char -> Z * list Char)
  : outcome State :=
  match behind_ st with
  | [] => Undefined
  | b :: _ =>
      if negb (Ascii.eqb b "%") then Aborted
      else
        st1 <- ReadLeaders st ;;
        c <- peek st1 ;;
        if negb (strchr "eEfgG" c) then Ok (set_result st1 (-1))
        else
          let st2 := step st1 in
          let n := (List.length (behind_ st2) - List.length (behind_ st) + 1)%nat in
          if (128 <=? n)%nat then Ok (set_result st2 (-1))
          else
            let fmtBuf := rev (firstn n (behind_ st2)) in
            let '(stored, resultBuf) := snp (c_str fmtBuf) in
            if stored <? 0 then Ok (set_result st2 (-1))
            else
              st3 <- Write st2 (c_str resultBuf) ;;
              Advance st3
  end.

Definition call_double (st : State) (n : Double) : outcome State :=
  if result_ st =? -1 then Ok st
  else PrintFloatingPoint st (fun fmt => snprintf_double fmt n).

Definition call_long_double (st : State) (n : LongDouble) : outcome State :=
  if result_ st =? -1 then Ok st
  else PrintFloatingPoint st (fun fmt => snprintf_long_double fmt n).

(** [StoreCountHelper(T* pi)]. *)
Definition StoreCountHelper (st : State) (m : Memory) (T : Pointee) (pi : Z)
  : outcome (State * Memory) :=
  if result_ st =? -1 then Ok (st, m)
  else
    st <- ReadLeaders st ;;
    fmt <- peek st ;;
    if Ascii.eqb fmt "p" then
      st' <- FormatWithCurrentFlags st pi ;; Ok (st', m)
    else if negb (Ascii.eqb fmt "n") then Ok (set_result st (-1), m)
    else if pi =? 0 then Aborted
    else
      st' <- Next st ;;
      Ok (st', store m pi (converted T (result_ st))).

(** [operator()] on a [const char *const]. *)
Definition call_c_string (st : State) (s : CString) : outcome State :=
  if result_ st =? -1 then Ok st
  else
    st <- ReadLeaders st ;;
    fmt <- peek st ;;
    if Ascii.eqb fmt "p" then FormatWithCurrentFlags st (address s)
    else if negb (Ascii.eqb fmt "s") then Ok (set_result st (-1))
    else
      let n := Z.min (strlen (chars s)) (prec_ st) in
      let text := firstn (Z.to_nat n) (chars s) in
      st <- (if n <? width_ st then
               if LeftJustify st then
                 st <- Write st text ;; Fill st " "%char (width_ st - n)
               else
                 st <- Fill st " "%char (width_ st - n) ;; Write st text
             else Write st text) ;;
      Next st.

(** [operator()] on a [const void *const]. *)
Definition call_void_ptr (st : State) (p : Z) : outcome State :=
  call_unsigned_long st p.

(** The kinds of argument [operator()] is overloaded on. *)
Inductive Arg : Type :=
| a_bool (b : bool)
| a_char (c : Z)
| a_signed_char (c : Z)
| a_unsigned_char (c : Z)
| a_short (n : Z)
| a_unsigned_short (n : Z)
| a_int (n : Z)
| a_unsigned (n : Z)
| a_long (n : Z)
| a_unsigned_long (i : Z)
| a_double (x : Double)
| a_long_double (x : LongDouble)
| a_int_ptr (pi : Z)
| a_short_ptr (pi : Z)
| a_long_ptr (pi : Z)
| a_c_string (s : CString)
| a_void_ptr (p : Z).

Definition keep (m : Memory) (o : outcome State) : outcome (State * Memory) :=
  st <- o ;; Ok (st, m).

(** Overload resolution. *)
Definition call (st : State) (m : Memory) (a : Arg) : outcome (State * Memory) :=
  match a with
  | a_bool b => keep m (forward st (if b then 1 else 0))
  | a_char c | a_signed_char c | a_unsigned_char c => keep m (forward st c)
  | a_short n | a_unsigned_short n | a_int n | a_unsigned n | a_long n =>
      keep m (forward st n)
  | a_unsigned_long i => keep m (call_unsigned_long st i)
  | a_double x => keep m (call_double st x)
  | a_long_double x => keep m (call_long_double st x)
  | a_int_ptr pi => StoreCountHelper st m to_int_obj pi
  | a_short_ptr pi => StoreCountHelper st m to_short_obj pi
  | a_long_ptr pi => StoreCountHelper st m to_long_obj pi
  | a_c_string s => keep m (call_c_string st s)
  | a_void_ptr p => keep m (call_void_ptr st p)
  end.

(** The constructor: [format] is the C string, the array adds its
    terminator. *)
Definition construct (dev : Device) (format : list Char) : outcome State :=
  Advance (mkState dev [] (format ++ [NUL]) 0 0 0 0).

(** [operator int()]. *)
Definition to_int (st : State) : Z := result_ st.

(** A chain of calls [(a1)(a2)...]. *)
Fixpoint feed (st : State) (m : Memory) (args : list Arg) : outcome (State * Memory) :=
  match args with
  | [] => Ok (st, m)
  | a :: rest => '(st', m') <- call st m a ;; feed st' m' rest
  end.

End Formatter.

(** ** Entry points *)

Definition FPrintf (f : FILE) (format : list Char) :=
  construct f format.
Definition Printf (stdout : FILE) (format : list Char) :=
  FPrintf stdout format.
Definition SPrintf (s : std_string) (format : list Char) :=
  construct s format.
(** [BufPrintf(buf, format)] for an array [buf] of [N] characters. *)
Definition BufPrintf (N : Z) (format : list Char) :=
  construct (mkBuffer [] N N) format.

(** * Vocabulary of the properties *)

Section Vocabulary.
Context {Device : Type} {SK : Sink Device} {FF : FloatFormat}.
Local Abbreviation State := (PrintfState Device).

(** What a call has put out: the device and the count. *)
Definition same_output (st st' : State) : Prop :=
  device_ st' = device_ st /\ result_ st' = result_ st.

(** The value [FormatWithCurrentFlags] receives under the [h] modifier. *)
Definition short_value (st : State) (c : Char) (i : Z) : Z :=
  if ForceShort st
     && (Ascii.eqb c "x" || Ascii.eqb c "X" || Ascii.eqb c "u" || Ascii.eqb c "o")
  then to_ulong (to_ushort i) else i.

End Vocabulary.

(** A string sink that has received nothing yet. *)
Definition empty : std_string := [].

(** A platform whose [snprintf] reports an error for every conversion; the
    closed examples of the integer and string paths run on it. *)
Definition no_float_output : FloatFormat :=
  {| Double := unit;
     LongDouble := unit;
     snprintf_double := fun _ _ => (-1, []);
     snprintf_long_double := fun _ _ => (-1, []) |}.

(** The argument [a] does not fit the conversion character [c]: a string
    where [c] is neither [s] nor [p]; a count-store pointer where [c] is
    neither [n] nor [p]; an integer (or an opaque pointer, which takes the
    integer path) where [c] is a character of the directive other than
    [c d i u o x X p] and other than the [*] of a deferred read. *)
Definition kind_mismatch {FF : FloatFormat} (a : Arg) (c : Char) : bool :=
  match a with
  | a_c_string _ => negb (Ascii.eqb c "s") && negb (Ascii.eqb c "p")
  | a_int_ptr _ | a_short_ptr _ | a_long_ptr _ =>
      negb (Ascii.eqb c "n") && negb (Ascii.eqb c "p")
  | a_double _ | a_long_double _ => false
  | _ =>
      negb (existsb (Ascii.eqb c) (lit "cdiuoxXp"))
      && negb (Ascii.eqb c NUL) && negb (Ascii.eqb c "*")
  end.

Section Emission.
Context {Device : Type} {SK : Sink Device}.
Local Abbreviation State := (PrintfState Device).

(** The formatter after [k] more characters went to the device, now [d]. *)
Definition put (st : State) (d : Device) (k : Z) : State :=
  set_result (set_device st d) (result_ st + k).

(** [f] sends [out] to the device and counts it, whenever the count has
    room for it. *)
Definition emitter (f : State -> outcome State) (out : list Char) : Prop :=
  forall st, 0 <= result_ st -> result_ st + len out <= INT_MAX ->
    exists d, f st = Ok (put st d (len out)) /\
              emitted d = emitted (device_ st) ++ out.

(** [F] sends [out] to the device, counts it and hands over to [Next]. *)
Definition hands_over (F : State -> outcome State) (out : list Char) : Prop :=
  forall st, 0 <= result_ st -> result_ st + len out <= INT_MAX ->
    exists st2, F st = Next st2 /\
                emitted (device_ st2) = emitted (device_ st) ++ out /\
                result_ st2 = result_ st + len out /\
                behind_ st2 = behind_ st /\
                format_ st2 = format_ st.

End Emission.

(** Literal text of a format string and what it prints: plain characters
    print as themselves, [%%] prints one [%]. *)
Inductive literal : list Char -> list Char -> Prop :=
| literal_end : literal [] []
| literal_plain c s o :
    c <> "%"%char -> c <> NUL -> literal s o -> literal (c :: s) (c :: o)
| literal_percent s o :
    literal s o -> literal ("%"%char :: "%"%char :: s) ("%"%char :: o).

(** Where the scan of literal text stops: [stops tail skipped ahead] when the
    array continues with [tail], the scan moves over [skipped] and leaves the
    cursor in front of [ahead].  It stops at the terminator, or moves over
    the [%] that opens a directive. *)
Inductive stops : list Char -> list Char -> list Char -> Prop :=
| stops_at_end more : stops (NUL :: more) [] (NUL :: more)
| stops_at_directive c more :
    c <> "%"%char -> stops ("%"%char :: c :: more) ["%"%char] (c :: more).

(** The character the renderer writes for the digit [d]. *)
Definition numeral (uppercase : bool) (d : Z) : Char :=
  char_of (d + (if d <=? 9 then code "0"%char
                else (if uppercase then code "A"%char else code "a"%char) - 10)).

(** The value of a list of digits, most significant first. *)
Definition positional (base : Z) (ds : list Z) : Z :=
  fold_left (fun a d => a * base + d) ds 0.

(** Reading a decimal integer back: an optional [-] and one or more decimal
    digits. *)
Fixpoint parse_digits (acc : Z) (l : list Char) : option Z :=
  match l with
  | [] => Some acc
  | c :: l' => if isdigit c then parse_digits (acc * 10 + (code c - 48)) l' else None
  end.

Definition parse_decimal (l : list Char) : option Z :=
  match l with
  | [] => None
  | c :: l' =>
      if Ascii.eqb c "-" then
        match l' with
        | [] => None
        | _ :: _ => option_map Z.opp (parse_digits 0 l')
        end
      else parse_digits 0 l
  end.

Section Fields.
Context {Device : Type} {SK : Sink Device}.
Local Abbreviation State := (PrintfState Device).

(** [emits st out st']: between [st] and [st'] exactly [out] went to the
    device and was counted, and the cursor stayed where it was. *)
Definition emits (st : State) (out : list Char) (st' : State) : Prop :=
  emitted (device_ st') = emitted (device_ st) ++ out /\
  result_ st' = result_ st + len out /\
  behind_ st' = behind_ st /\
  format_ st' = format_ st.

(** The formatter at the start of a directive: what [ResetAll] leaves. *)
Definition opened (st : State) : State :=
  mkState (device_ st) (behind_ st) (format_ st) 0 SIZE_MAX 0 (result_ st).

(** The characters a directive can begin with before its conversion
    character: flags, digits, the point and the length modifiers. *)
Definition leader (c : Char) : bool :=
  match flag_of c with Some _ => true | None => false end
  || isdigit c || Ascii.eqb c "." || Ascii.eqb c "h" || Ascii.eqb c "l".

(** The numeric conversions, and what [FormatWithCurrentFlags] makes of the
    conversion character: [p] prints as [x], signed, in alternate form. *)
Definition numeric (c : Char) : bool := existsb (Ascii.eqb c) (lit "diuoxXp").

(** The characters [FormatWithCurrentFlags] formats as a number: the numeric
    conversions and, since [strchr] finds it, the terminator. *)
Definition passes (c : Char) : bool := numeric c || Ascii.eqb c NUL.

Definition conversion (c : Char) : Char := if Ascii.eqb c "p" then "x"%char else c.

Definition is_signed (c : Char) : bool :=
  Ascii.eqb c "d" || Ascii.eqb c "i" || Ascii.eqb c "p".

Definition base_of (c : Char) : Z :=
  if Ascii.eqb (conversion c) "o" then 8
  else if Ascii.eqb (conversion c) "x" || Ascii.eqb (conversion c) "X" then 16
  else 10.

Definition alternate (st : State) (c : Char) : bool :=
  AlternateForm st || Ascii.eqb c "p".

(** The digits of the value [i] under the conversion [c], as the renderer
    called by [FormatWithCurrentFlags] returns them. *)
Definition rendered (c : Char) (i : Z) : outcome (list Char) :=
  if is_signed c
  then RenderWithoutSign_long (bufSize - 1) (to_long i) (base_of c)
         (Ascii.eqb (conversion c) "X")
  else RenderWithoutSign_ulong (bufSize - 1) i (base_of c)
         (Ascii.eqb (conversion c) "X") [].

(** The sign: [-] for a negative value, else [+] under the show-sign flag,
    else a blank under the blank flag, else nothing; signed conversions
    only. *)
Definition sign_text (st : State) (c : Char) (i : Z) : list Char :=
  if is_signed c then
    if to_long i <? 0 then ["-"%char]
    else if ShowSignAlways st then ["+"%char]
    else if Blank st then [" "%char]
    else []
  else [].

(** The zeros that bring the digits up to an explicit precision. *)
Definition precision_zeros (st : State) (digits : list Char) : list Char :=
  if negb (prec_ st =? SIZE_MAX) && (len digits <? prec_ st)
  then repeat "0"%char (Z.to_nat (prec_ st - len digits))
  else [].

(** The prefix of the alternate form, for a value other than zero: [0x] or
    [0X] in base 16; [0] in base 8 unless precision zeros lead already. *)
Definition base_prefix (st : State) (c : Char) (i : Z) (digits : list Char)
  : list Char :=
  if alternate st c && negb (i =? 0) then
    if base_of c =? 16 then ["0"%char; conversion c]
    else if base_of c =? 8 then
      match precision_zeros st digits with
      | [] => ["0"%char]
      | _ :: _ => []
      end
    else []
  else [].

Definition printable (st : State) (c : Char) (i : Z) (digits : list Char)
  : list Char :=
  sign_text st c i ++ base_prefix st c i digits
  ++ precision_zeros st digits ++ digits.

(** The field of a numeric directive: the printable content, brought up to
    the width with blanks on the right under the left-justify flag, else
    with zeros between prefix and digits under the zero-fill flag when no
    precision was given, else with blanks on the left. *)
Definition field (st : State) (c : Char) (i : Z) (digits : list Char)
  : list Char :=
  let p := printable st c i digits in
  let pad := Z.to_nat (width_ st - len p) in
  if len p <? width_ st then
    if LeftJustify st then p ++ repeat " "%char pad
    else if FillZeros st && (prec_ st =? SIZE_MAX) then
      sign_text st c i ++ base_prefix st c i digits
      ++ repeat "0"%char pad ++ digits
    else repeat " "%char pad ++ p
  else p.

(** The field of an [s] directive for the characters [text]. *)
Definition string_field (st : State) (text : list Char) : list Char :=
  let pad := Z.to_nat (width_ st - len text) in
  if len text <? width_ st then
    if LeftJustify st then text ++ repeat " "%char pad
    else repeat " "%char pad ++ text
  else text.

(** The state [FormatWithCurrentFlags] goes on with: [p] sets the
    alternate form. *)
Definition with_conversion (st : State) (c : Char) : State :=
  if Ascii.eqb c "p" then SetAlternateForm st else st.

(** [signChar], [countZeros] (from the precision) and [countBase] as
    [FormatWithCurrentFlags] computes them. *)
Definition sign_char (st : State) (c : Char) (i : Z) : Char :=
  if is_signed c then
    if is_signed c && (to_long i <? 0) then "-"%char
    else if ShowSignAlways st then "+"%char
    else if Blank st then " "%char
    else NUL
  else NUL.

Definition count_zeros (st : State) (countDigits : Z) : Z :=
  if negb (prec_ st =? SIZE_MAX) && (countDigits <? prec_ st) && true
  then prec_ st - countDigits else 0.

Definition count_base (st : State) (c : Char) (i countZeros : Z) : Z :=
  if negb (base_of c =? 10) && AlternateForm st && negb (i =? 0)
  then (if base_of c =? 16 then 2 else if 0 <? countZeros then 0 else 1)
  else 0.

(** The writes that end [FormatWithCurrentFlags], with the counts it has
    computed. *)
Definition print_counted (st : State) (countPadLeft : Z) (signChar : Char)
  (countBase : Z) (formatChar : Char) (countZeros : Z) (digits : list Char)
  (countPadRight : Z) : outcome State :=
  st <- Fill st " "%char countPadLeft ;;
  st <- (if negb (Ascii.eqb signChar NUL) then Write st [signChar] else Ok st) ;;
  st <- (if 0 <? countBase then Fill st "0"%char 1 else Ok st) ;;
  st <- (if countBase =? 2 then Fill st formatChar 1 else Ok st) ;;
  st <- Fill st "0"%char countZeros ;;
  st <- Write st digits ;;
  st <- Fill st " "%char countPadRight ;;
  Next st.

(** What [print_counted] sends to the device. *)
Definition counted_text (countPadLeft : Z) (signChar : Char) (countBase : Z)
  (formatChar : Char) (countZeros : Z) (digits : list Char) (countPadRight : Z)
  : list Char :=
  repeat " "%char (Z.to_nat countPadLeft)
  ++ (if negb (Ascii.eqb signChar NUL) then [signChar] else [])
  ++ (if 0 <? countBase then ["0"%char] else [])
  ++ (if countBase =? 2 then [formatChar] else [])
  ++ repeat "0"%char (Z.to_nat countZeros)
  ++ digits
  ++ repeat " "%char (Z.to_nat countPadRight).

End Fields.

(** The [unsigned long] that an argument of integer kind (or an opaque
    pointer) passes to [operator()(unsigned long)]. *)
Definition integral {FF : FloatFormat} (a : Arg) : option Z :=
  match a with
  | a_bool b => Some (to_ulong (if b then 1 else 0))
  | a_char n | a_signed_char n | a_unsigned_char n
  | a_short n | a_unsigned_short n | a_int n | a_unsigned n | a_long n =>
      Some (to_ulong n)
  | a_unsigned_long i => Some i
  | a_void_ptr p => Some p
  | _ => None
  end.

(** The invariant of the result: the error sentinel, or the number of
    characters the device has received beyond the [base] it started with. *)
Definition counted {Device : Type} {SK : Sink Device} (base : Z)
  (st : PrintfState Device) : Prop :=
  result_ st = -1 \/ result_ st = len (emitted (device_ st)) - base.

(** What a format and a chain of arguments leave in a string sink that was
    empty, and the result. *)
Definition printed (format : string) (args : list (@Arg no_float_output))
  : outcome (string * Z) :=
  st <- SPrintf [] (lit format) ;;
  '(st', _) <- feed st (fun _ => 0) args ;;
  Ok (string_of_list_ascii (device_ st'), to_int st').

(** The text of a directive behind its [%]: flags, width digits, an
    optional point with precision digits, an optional length modifier, and
    the values [ReadLeaders] makes of them. *)
Definition is_flag (c : Char) : bool :=
  match flag_of c with Some _ => true | None => false end.

Definition flag_bits (fl : list Char) (flags : Z) : Z :=
  fold_left (fun f c => match flag_of c with Some bit => Z.lor f bit | None => f end)
            fl flags.

Definition decimal_value (ds : list Char) : Z :=
  fold_left (fun r c => (r * 10 mod WORD + (code c - 48)) mod WORD) ds 0.

Definition precision_text (p : option (list Char)) : list Char :=
  match p with
  | None => []
  | Some ds => "."%char :: ds
  end.

Inductive Modifier := no_modifier | modifier_h | modifier_l.

Definition modifier_text (md : Modifier) : list Char :=
  match md with
  | no_modifier => []
  | modifier_h => ["h"%char]
  | modifier_l => ["l"%char]
  end.

Definition leaders_text (fl wd : list Char) (p : option (list Char)) (md : Modifier)
  : list Char :=
  fl ++ wd ++ precision_text p ++ modifier_text md.

(** The formatter after the leaders [fl wd p md] were read from [st]: a
    width or precision without digits leaves the field as it was. *)
Definition after_leaders {Device : Type} (st : PrintfState Device)
  (fl wd : list Char) (p : option (list Char)) (md : Modifier) (ahead : list Char)
  : PrintfState Device :=
  mkState (device_ st)
    (rev (leaders_text fl wd p md) ++ behind_ st)
    ahead
    (match wd with [] => width_ st | _ :: _ => decimal_value wd end)
    (match p with Some (d :: ds) => decimal_value (d :: ds) | _ => prec_ st end)
    (match md with
     | modifier_h => Z.lor (flag_bits fl (flags_ st)) forceShort
     | _ => flag_bits fl (flags_ st)
     end)
    (result_ st).

(** The flags of the enumeration, and the flag a flag character stands
    for. *)
Definition flag_list : list Z :=
  [leftJustify; showSignAlways; blank; alternateForm; fillZeros; forceShort].

Definition names_flag (bit : Z) (c : Char) : bool :=
  match flag_of c with Some b => b =? bit | None => false end.

(** The value [operator()(unsigned long)] formats for the argument [i]
    under the length modifier [md] and the conversion [c]. *)
Definition shortened (md : Modifier) (c : Char) (i : Z) : Z :=
  match md with
  | modifier_h =>
      if Ascii.eqb c "x" || Ascii.eqb c "X" || Ascii.eqb c "u" || Ascii.eqb c "o"
      then to_ulong (to_ushort i) else i
  | _ => i
  end.

(** The platform's [snprintf] applied to a floating-point argument; no
    other kind of argument reaches it. *)
Definition snprintf_of {FF : FloatFormat} (a : Arg) : option (list Char -> Z * list Char) :=
  match a with
  | a_double x => Some (fun fmt => snprintf_double fmt x)
  | a_long_double x => Some (fun fmt => snprintf_long_double fmt x)
  | _ => None
  end.

(** An upper bound of the length of the field of a directive read as the
    width and precision of [st]: the width, or sign, prefix and 16 digits
    and the precision. *)
Definition field_bound {Device : Type} (st : PrintfState Device) : Z :=
  Z.max (width_ st) (19 + (if prec_ st =? SIZE_MAX then 0 else Z.max 0 (prec_ st))).

(** [f] runs into the signed overflow of the count whenever the count has
    no room for [out]. *)
Definition overflows {Device : Type} {SK : Sink Device}
  (f : PrintfState Device -> outcome (PrintfState Device)) (out : list Char) : Prop :=
  forall st, 0 <= result_ st <= INT_MAX -> INT_MAX < result_ st + len out ->
    f st = Undefined.

(** * Properties *)

(** ** Outcomes *)

Lemma bind_Ok {A B} (m : outcome A) (k : A -> outcome B) (b : B) :
  bind m k = Ok b -> exists a, m = Ok a /\ k a = Ok b.
Proof. destruct m; simpl; intros E; try discriminate. eauto. Qed.

Ltac bind_inv H :=
  let a := fresh "x" in
  let E := fresh "E" in
  apply bind_Ok in H; destruct H as (a & E & H).

Section Readers.
Context {Device : Type} {SK : Sink Device} {FF : FloatFormat}.
Local Abbreviation State := (PrintfState Device).

Lemma same_output_refl (st : State) : same_output st st.
Proof. split; reflexivity. Qed.

Lemma same_output_trans (st1 st2 st3 : State) :
  same_output st1 st2 -> same_output st2 st3 -> same_output st1 st3.
Proof. intros [A B] [C D]. split; congruence. Qed.

Lemma step_output (st : State) : same_output st (step st).
Proof. unfold step. destruct (format_ st); split; reflexivity. Qed.

Lemma ReadFlags_output (st st' : State) : ReadFlags st = Ok st' -> same_output st st'.
Proof.
  unfold ReadFlags. intros H. bind_inv H. destruct x as [[f b] a].
  injection H as <-. split; reflexivity.
Qed.

Lemma ParseDecimalUInt_output (st st' : State) d r :
  ParseDecimalUInt st d = Ok (st', r) -> same_output st st'.
Proof.
  unfold ParseDecimalUInt. intros H. bind_inv H.
  destruct (negb (isdigit x)).
  - injection H as <- <-. apply same_output_refl.
  - bind_inv H. destruct x0 as [[r' b] a]. injection H as <- <-. split; reflexivity.
Qed.

Lemma ReadWidth_output (st st' : State) : ReadWidth st = Ok st' -> same_output st st'.
Proof.
  unfold ReadWidth. intros H. bind_inv H. destruct x as [s w].
  injection H as <-. apply ParseDecimalUInt_output in E. destruct E. split; simpl; assumption.
Qed.

Lemma ReadPrecision_output (st st' : State) : ReadPrecision st = Ok st' -> same_output st st'.
Proof.
  unfold ReadPrecision. intros H. bind_inv H.
  destruct (negb (Ascii.eqb x ".")); [discriminate|].
  bind_inv H. destruct x0 as [s p]. injection H as <-.
  apply ParseDecimalUInt_output in E0. destruct E0 as [A B].
  destruct (step_output st) as [C D]. split; simpl; congruence.
Qed.

Lemma ReadModifiers_output (st st' : State) : ReadModifiers st = Ok st' -> same_output st st'.
Proof.
  unfold ReadModifiers. intros H. bind_inv H.
  destruct (Ascii.eqb x "h").
  - injection H as <-. destruct (step_output (SetForceShort st)). split; simpl in *; congruence.
  - destruct (Ascii.eqb x "l"); injection H as <-.
    + apply step_output.
    + apply same_output_refl.
Qed.

Lemma ReadLeaders_output (st st' : State) : ReadLeaders st = Ok st' -> same_output st st'.
Proof.
  unfold ReadLeaders. intros H. bind_inv H. bind_inv H. bind_inv H. bind_inv H.
  apply ReadFlags_output in E. apply ReadWidth_output in E0.
  apply ReadModifiers_output in H.
  assert (same_output x0 x2).
  { destruct (Ascii.eqb x1 ".").
    - apply ReadPrecision_output; assumption.
    - injection E2 as <-. apply same_output_refl. }
  eauto using same_output_trans.
Qed.

Lemma SetWidth_same (st : State) : SetWidth st (width_ st) = st.
Proof. destruct st; reflexivity. Qed.

Lemma SetPrec_same (st : State) : SetPrec st (prec_ st) = st.
Proof. destruct st; reflexivity. Qed.

Lemma ParseDecimalUInt_stops (st : State) c d :
  peek st = Ok c -> isdigit c = false -> ParseDecimalUInt st d = Ok (st, d).
Proof. unfold ParseDecimalUInt. intros P D. rewrite P. simpl. rewrite D. reflexivity. Qed.

Lemma ReadModifiers_stops (st : State) c :
  peek st = Ok c -> Ascii.eqb c "h" = false -> Ascii.eqb c "l" = false ->
  ReadModifiers st = Ok st.
Proof. unfold ReadModifiers. intros P H L. rewrite P. simpl. rewrite H, L. reflexivity. Qed.

(** When the leaders do not end at a [*], [operator()(unsigned long)] reads
    the directive as [ReadLeaders] does. *)
Lemma call_unsigned_long_leaders (st st1 : State) c i :
  result_ st <> -1 ->
  ReadLeaders st = Ok st1 ->
  peek st1 = Ok c ->
  c <> "*"%char ->
  call_unsigned_long st i = FormatWithCurrentFlags st1 (short_value st1 c i).
Proof.
  intros Hlive HL Hc Hstar.
  unfold call_unsigned_long.
  destruct (Z.eqb_spec (result_ st) (-1)) as [|_]; [contradiction|].
  unfold ReadLeaders in HL.
  bind_inv HL. rename x into s1. rewrite E. simpl.
  bind_inv HL. rename x into s2.
  bind_inv HL. rename x into c2.
  bind_inv HL. rename x into s3.
  destruct (peek s1) as [c1| | |] eqn:P1.
  2-4: (unfold ReadWidth, ParseDecimalUInt in E0; rewrite P1 in E0; discriminate).
  simpl.
  destruct (Ascii.eqb_spec c1 "*") as [->|N1].
  { (* the leaders would end at the star *)
    exfalso.
    unfold ReadWidth in E0. rewrite (ParseDecimalUInt_stops s1 "*"%char) in E0 by (assumption || reflexivity).
    simpl in E0. rewrite SetWidth_same in E0. injection E0 as <-.
    rewrite P1 in E1. injection E1 as <-. simpl in E2. injection E2 as <-.
    rewrite (ReadModifiers_stops s1 "*"%char) in HL by (assumption || reflexivity).
    injection HL as <-. rewrite P1 in Hc. injection Hc as <-. contradiction. }
  rewrite E0. simpl. rewrite E1. simpl.
  destruct (Ascii.eqb_spec c2 ".") as [->|N2].
  - destruct (peek1 s2) as [c3| | |] eqn:P2.
    2-4: (exfalso; unfold ReadPrecision in E2; rewrite E1 in E2; simpl in E2;
          unfold peek in E1; unfold peek1 in P2; unfold ParseDecimalUInt, peek, step in E2;
          destruct (format_ s2) as [|a [|b r]]; simpl in E2; discriminate).
    simpl.
    destruct (Ascii.eqb_spec c3 "*") as [->|N3].
    + exfalso.
      unfold ReadPrecision in E2. rewrite E1 in E2. simpl in E2.
      assert (Ps : peek (step s2) = Ok "*"%char).
      { unfold peek, peek1, step in *. destruct (format_ s2) as [|a [|b r]]; try discriminate.
        simpl. injection P2 as ->. reflexivity. }
      rewrite (ParseDecimalUInt_stops (step s2) "*"%char) in E2 by (assumption || reflexivity).
      simpl in E2. injection E2 as <-.
      assert (Pp : peek (SetPrec (step s2) (prec_ s2)) = Ok "*"%char) by exact Ps.
      rewrite (ReadModifiers_stops _ "*"%char) in HL by (assumption || reflexivity).
      injection HL as <-. rewrite Pp in Hc. injection Hc as <-. contradiction.
    + rewrite E2. simpl. rewrite HL. simpl.
      unfold short_value. rewrite Hc. simpl.
      destruct (ForceShort st1); simpl; [|reflexivity].
      destruct (_ || _); reflexivity.
  - injection E2 as <-. simpl. rewrite HL. simpl.
    unfold short_value. rewrite Hc. simpl.
    destruct (ForceShort st1); simpl; [|reflexivity].
    destruct (_ || _); reflexivity.
Qed.

End Readers.

(** ** The bounded sink *)

(** The test of [write] on a buffer is the wrong way round: it throws exactly
    when the data is shorter than the count the pair carries. *)
Lemma write_buffer_Thrown (s : CharBuffer) (l : list Char) :
  write s l = Thrown <-> len l < second s.
Proof.
  simpl. unfold write_buffer.
  destruct (Z.ltb_spec (len l) (second s)) as [A|A].
  - split; auto.
  - destruct (room s <? len l); split; intros B; try discriminate; lia.
Qed.

(** C1 (the code departs from it): a bounded sink with eight cells left
    throws on a three-character write that fits, and a five-character write
    into two cells is not refused but runs past the array. *)
Theorem write_buffer_refuses_what_fits :
  write (mkBuffer [] 8 8) (lit "abc") = Thrown /\
  write (mkBuffer [] 2 2) (lit "hello") = Undefined.
Proof. split; reflexivity. Qed.

(** [BufPrintf] throws on the empty leading text of any directive. *)
Lemma BufPrintf_throws : BufPrintf 16 (lit "%d") = Thrown.
Proof. reflexivity. Qed.

Section Sticky.
Context {Device : Type} {SK : Sink Device} {FF : FloatFormat}.
Local Abbreviation State := (PrintfState Device).

Lemma Write_failed (st : State) l : result_ st < 0 -> Write st l = Ok st.
Proof.
  intros H. unfold Write. destruct (Z.ltb_spec (result_ st) 0); [reflexivity|lia].
Qed.

Lemma Fill_loop_failed (st : State) c n : result_ st < 0 -> Fill_loop st c n = Ok st.
Proof.
  intros H. induction n as [|n IH]; simpl; [reflexivity|].
  rewrite Write_failed by assumption. exact IH.
Qed.

Lemma call_failed (st : State) m a : result_ st = -1 -> call st m a = Ok (st, m).
Proof.
  intros H.
  destruct a; simpl;
    unfold forward, call_void_ptr, call_unsigned_long, call_double, call_long_double,
           StoreCountHelper, call_c_string;
    rewrite H; reflexivity.
Qed.

(** C2: once the result is the error sentinel, every call of [operator()],
    every chain of calls, every [Write] and every [Fill] returns the
    formatter and the memory as they were: nothing reaches the sink, no
    pointee is stored to, and the result stays [-1]. *)
Theorem error_sentinel_is_terminal (st : State) (m : Memory) :
  result_ st = -1 ->
  (forall a, call st m a = Ok (st, m)) /\
  (forall args, feed st m args = Ok (st, m)) /\
  (forall l, Write st l = Ok st) /\
  (forall c n, Fill st c n = Ok st).
Proof.
  intros H. repeat split.
  - intros a. apply call_failed, H.
  - intros args. induction args as [|a args IH]; simpl; [reflexivity|].
    rewrite call_failed by assumption. exact IH.
  - intros l. apply Write_failed. lia.
  - intros c n. apply Fill_loop_failed. lia.
Qed.

End Sticky.

Lemma error_sentinel_is_terminal_witness :
  let st : PrintfState std_string :=
    mkState (lit "x=") (lit "%=x") (lit "d" ++ [NUL]) 0 SIZE_MAX 0 (-1) in
  let m : Memory := fun _ => 0 in
  result_ st = -1 /\
  (forall a, call (FF := no_float_output) st m a = Ok (st, m)) /\
  (forall args, feed (FF := no_float_output) st m args = Ok (st, m)) /\
  (forall l, Write st l = Ok st) /\
  (forall c n, Fill st c n = Ok st).
Proof.
  intros st m. split; [reflexivity|].
  apply (error_sentinel_is_terminal (FF := no_float_output) st m). reflexivity.
Defined.

(** ** Arguments of the wrong kind *)

Section Mismatch.
Context {Device : Type} {SK : Sink Device} {FF : FloatFormat}.
Local Abbreviation State := (PrintfState Device).

Lemma strchr_other (c : Char) :
  existsb (Ascii.eqb c) (lit "cdiuoxXp") = false ->
  c <> NUL ->
  strchr "cdiuoxX" c = false /\ Ascii.eqb c "p" = false.
Proof.
  intros H N. apply Ascii.eqb_neq in N.
  unfold strchr.
  cbn [lit list_ascii_of_string existsb app] in *.
  repeat (apply orb_false_elim in H; destruct H as [? H]).
  repeat match goal with E : Ascii.eqb c _ = false |- _ => rewrite E; clear E end.
  split; reflexivity.
Qed.

Lemma FormatWithCurrentFlags_rejects (st : State) c i :
  peek st = Ok c ->
  existsb (Ascii.eqb c) (lit "cdiuoxXp") = false ->
  c <> NUL ->
  FormatWithCurrentFlags st i = Ok (set_result st (-1)).
Proof.
  intros P H N. destruct (strchr_other c H N) as [A B].
  unfold FormatWithCurrentFlags. rewrite P. cbn [bind]. rewrite B, A. reflexivity.
Qed.

(** C8: an argument whose kind does not fit the conversion character the
    leaders end at makes the call return (nothing is thrown) with the result
    at the error sentinel, and with the device as it was before the call. *)
Theorem kind_mismatch_latches (st st1 : State) (m : Memory) (a : Arg) (c : Char) :
  result_ st <> -1 ->
  ReadLeaders st = Ok st1 ->
  peek st1 = Ok c ->
  kind_mismatch a c = true ->
  exists st', call st m a = Ok (st', m) /\
              result_ st' = -1 /\ device_ st' = device_ st.
Proof.
  intros Hlive HL P K.
  destruct (ReadLeaders_output _ _ HL) as [Hdev _].
  exists (set_result st1 (-1)). split; [|split; [reflexivity|exact Hdev]].
  assert (integer : forall i, existsb (Ascii.eqb c) (lit "cdiuoxXp") = false ->
            c <> NUL -> c <> "*"%char ->
            keep m (call_unsigned_long st i) = Ok (set_result st1 (-1), m)).
  { intros i A B C.
    rewrite (call_unsigned_long_leaders st st1 c) by assumption.
    rewrite (FormatWithCurrentFlags_rejects st1 c) by assumption. reflexivity. }
  assert (pointer : forall T p, negb (Ascii.eqb c "n") && negb (Ascii.eqb c "p") = true ->
            StoreCountHelper st m T p = Ok (set_result st1 (-1), m)).
  { intros T p A. apply andb_prop in A. destruct A as [A B].
    apply negb_true_iff in A, B.
    unfold StoreCountHelper.
    destruct (Z.eqb_spec (result_ st) (-1)); [contradiction|].
    rewrite HL. simpl. rewrite P. simpl. rewrite B, A. reflexivity. }
  destruct a; simpl in K |- *; try discriminate;
    try (apply pointer; exact K);
    try (unfold forward, call_void_ptr;
         apply andb_prop in K; destruct K as [K K3];
         apply andb_prop in K; destruct K as [K1 K2];
         apply negb_true_iff in K1, K2, K3;
         apply integer;
         [exact K1 | apply Ascii.eqb_neq; exact K2 | apply Ascii.eqb_neq; exact K3]).
  (* the string *)
  apply andb_prop in K. destruct K as [A B]. apply negb_true_iff in A, B.
  unfold call_c_string.
  destruct (Z.eqb_spec (result_ st) (-1)); [contradiction|].
  rewrite HL. simpl. rewrite P. simpl. rewrite B, A. reflexivity.
Qed.

End Mismatch.

Lemma kind_mismatch_latches_witness :
  exists st', call (FF := no_float_output)
                (mkState (lit "n=") (lit "%=n") (lit "d" ++ [NUL]) 0 SIZE_MAX 0 2)
                (fun _ => 0) (a_c_string (mkCString 4096 (lit "hello")))
              = Ok (st', fun _ => 0) /\
              result_ st' = -1 /\ device_ st' = lit "n=".
Proof.
  apply (kind_mismatch_latches (FF := no_float_output)
           (mkState (lit "n=") (lit "%=n") (lit "d" ++ [NUL]) 0 SIZE_MAX 0 2)
           (mkState (lit "n=") (lit "%=n") (lit "d" ++ [NUL]) 0 SIZE_MAX 0 2)
           (fun _ => 0) (a_c_string (mkCString 4096 (lit "hello"))) "d"%char).
  - simpl. lia.
  - reflexivity.
  - reflexivity.
  - reflexivity.
Defined.

(** ** Deferred width *)

Section DeferredWidth.
Context {Device : Type} {SK : Sink Device} {FF : FloatFormat}.
Local Abbreviation State := (PrintfState Device).

Lemma step_fields (st : State) :
  width_ (step st) = width_ st /\ prec_ (step st) = prec_ st /\
  flags_ (step st) = flags_ st.
Proof. unfold step. destruct (format_ st); repeat split; reflexivity. Qed.

(** C10: at the [*] of a deferred width a negative [int] becomes the width
    as the unsigned value [2^32 + n] (the largest [size_t] for [-1]), which
    is not its absolute value; the flags stay as they were read, so no
    left-justification is added. *)
Theorem negative_deferred_width_wraps (st st1 : State) (m : Memory) (n : Z) :
  result_ st <> -1 ->
  ReadFlags st = Ok st1 ->
  peek st1 = Ok "*"%char ->
  INT_MIN <= n < 0 ->
  exists st', call st m (a_int n) = Ok (st', m) /\
              width_ st' = WORD + n /\
              (n = -1 -> width_ st' = SIZE_MAX) /\
              (INT_MIN < n -> width_ st' <> - n) /\
              flags_ st' = flags_ st1 /\
              LeftJustify st' = LeftJustify st1 /\
              same_output st st'.
Proof.
  intros Hlive HF P Hn.
  exists (step (SetWidth st1 (WORD + n))).
  destruct (step_fields (SetWidth st1 (WORD + n))) as (W & _ & Fl).
  split; [|split; [|split; [|split; [|split; [|split; [|split]]]]]].
  - unfold call, forward, call_unsigned_long.
    destruct (Z.eqb_spec (result_ st) (-1)); [contradiction|].
    rewrite HF. cbn [bind]. rewrite P. cbn [bind Ascii.eqb Bool.eqb keep].
    assert (E : to_size_t (to_ulong n) = WORD + n).
    { unfold to_size_t, to_ulong. rewrite Z.mod_mod by (unfold WORD; lia).
      symmetry. apply Z.mod_unique with (q := -1); unfold WORD, INT_MIN in *; lia. }
    rewrite E. reflexivity.
  - rewrite W. reflexivity.
  - intros ->. rewrite W. reflexivity.
  - intros L. rewrite W. cbn [width_ SetWidth]. unfold WORD, INT_MIN in *. lia.
  - rewrite Fl. reflexivity.
  - unfold LeftJustify, has. rewrite Fl. reflexivity.
  - destruct (step_output (SetWidth st1 (WORD + n))) as [A _].
    destruct (ReadFlags_output _ _ HF) as [B _]. rewrite A. exact B.
  - destruct (step_output (SetWidth st1 (WORD + n))) as [_ A].
    destruct (ReadFlags_output _ _ HF) as [_ B]. rewrite A. exact B.
Qed.

End DeferredWidth.

Lemma negative_deferred_width_wraps_witness :
  exists st', call (FF := no_float_output)
                (mkState empty (lit "%") (lit "*d" ++ [NUL]) 0 SIZE_MAX 0 0)
                (fun _ => 0) (a_int (-1))
              = Ok (st', fun _ => 0) /\
              width_ st' = WORD + -1 /\
              (-1 = -1 -> width_ st' = SIZE_MAX) /\
              (INT_MIN < -1 -> width_ st' <> - -1) /\
              flags_ st' = 0 /\
              LeftJustify st' = false /\
              same_output (mkState empty (lit "%") (lit "*d" ++ [NUL]) 0 SIZE_MAX 0 0) st'.
Proof.
  apply (negative_deferred_width_wraps (FF := no_float_output)
           (mkState empty (lit "%") (lit "*d" ++ [NUL]) 0 SIZE_MAX 0 0)
           (mkState empty (lit "%") (lit "*d" ++ [NUL]) 0 SIZE_MAX 0 0)
           (fun _ => 0) (-1)).
  - simpl. lia.
  - reflexivity.
  - reflexivity.
  - unfold INT_MIN. lia.
Defined.

(** ** The directive without a conversion character *)

(** [strchr] finds the terminator in every string, so the test of
    [FormatWithCurrentFlags] lets the terminator through. *)
Lemma strchr_terminator (s : string) : strchr s NUL = true.
Proof.
  unfold strchr. apply existsb_exists. exists NUL. split.
  - apply in_or_app. right. left. reflexivity.
  - reflexivity.
Qed.

(** C4 (the code departs from it): an [int] fed to the format ["%"] is not
    rejected.  On the array of the literal the call prints the digits and
    then steps over the terminator; where the array goes on after the
    terminator the call returns with ["42"] in the sink and the result 2. *)
Theorem trailing_percent_takes_an_integer :
  (st <- SPrintf [] (lit "%") ;;
   call (FF := no_float_output) st (fun _ => 0) (a_int 42)) = Undefined /\
  (st <- SPrintf [] ("%"%char :: [NUL]) ;;
   '(st', _) <- call (FF := no_float_output) st (fun _ => 0) (a_int 42) ;;
   Ok (device_ st', to_int st')) = Ok (lit "42", 2).
Proof. split; reflexivity. Qed.

(** The same directive rejects a string and a count-store pointer. *)
Lemma trailing_percent_rejects_a_string :
  (st <- SPrintf [] (lit "%") ;;
   '(st', _) <- call (FF := no_float_output) st (fun _ => 0) (a_c_string (mkCString 4096 (lit "hello"))) ;;
   Ok (device_ st', to_int st')) = Ok ([], -1).
Proof. reflexivity. Qed.

(** ** Emission *)

Section Emitters.
Context {Device : Type} {SK : Sink Device} {UB : Unbounded Device}.
Local Abbreviation State := (PrintfState Device).

Lemma len_app {A} (l1 l2 : list A) : len (l1 ++ l2) = len l1 + len l2.
Proof. unfold len. rewrite length_app. lia. Qed.

Lemma len_cons {A} (a : A) (l : list A) : len (a :: l) = 1 + len l.
Proof. unfold len. simpl List.length. lia. Qed.

Lemma len_nonneg {A} (l : list A) : 0 <= len l.
Proof. unfold len. lia. Qed.

Lemma len_repeat {A} (c : A) (n : nat) : len (repeat c n) = Z.of_nat n.
Proof. unfold len. rewrite repeat_length. reflexivity. Qed.

Lemma put_0 (st : State) : put st (device_ st) 0 = st.
Proof. destruct st. unfold put, set_result, set_device. simpl. rewrite Z.add_0_r. reflexivity. Qed.

Lemma put_put (st : State) d1 k1 d2 k2 :
  put (put st d1 k1) d2 k2 = put st d2 (k1 + k2).
Proof. unfold put, set_result, set_device. simpl. rewrite Z.add_assoc. reflexivity. Qed.

Lemma emitter_Write (l : list Char) : emitter (fun st : State => Write st l) l.
Proof.
  intros st H0 H1. unfold Write.
  destruct (Z.ltb_spec (result_ st) 0); [lia|].
  destruct (write_returns (device_ st) l) as [d E].
  exists d. rewrite E. simpl.
  destruct (Z.leb_spec (result_ st + len l) INT_MAX); [|lia].
  split; [reflexivity|]. apply write_emits. exact E.
Qed.

Lemma emitter_skip : emitter (fun st : State => Ok st) [].
Proof.
  intros st _ _. exists (device_ st). rewrite put_0. split; [reflexivity|].
  rewrite app_nil_r. reflexivity.
Qed.

Lemma emitter_seq (f g : State -> outcome State) o1 o2 :
  emitter f o1 -> emitter g o2 ->
  emitter (fun st => st' <- f st ;; g st') (o1 ++ o2).
Proof.
  intros Hf Hg st H0 H1. rewrite len_app in H1.
  pose proof (len_nonneg o1). pose proof (len_nonneg o2).
  destruct (Hf st) as (d1 & E1 & M1); [lia..|].
  rewrite E1. simpl bind.
  destruct (Hg (put st d1 (len o1))) as (d2 & E2 & M2); [simpl; lia..|].
  exists d2. rewrite E2, put_put, len_app. split; [reflexivity|].
  rewrite M2. simpl. rewrite M1, app_assoc. reflexivity.
Qed.

Lemma emitter_Fill_loop (c : Char) (n : nat) :
  emitter (fun st : State => Fill_loop st c n) (repeat c n).
Proof.
  induction n as [|n IH].
  - apply emitter_skip.
  - simpl. apply (emitter_seq (fun st => Write st [c]) _ [c] (repeat c n)).
    + apply emitter_Write.
    + exact IH.
Qed.

Lemma emitter_Fill (c : Char) (n : Z) :
  emitter (fun st : State => Fill st c n) (repeat c (Z.to_nat n)).
Proof. apply emitter_Fill_loop. Qed.

Lemma emitter_if (b : bool) (f g : State -> outcome State) o1 o2 :
  emitter f o1 -> emitter g o2 ->
  emitter (fun st => if b then f st else g st) (if b then o1 else o2).
Proof. destruct b; auto. Qed.

(** ** Literal text *)

Lemma seek_put (st : State) d k b a : seek (put st d k) b a = put (seek st b a) d k.
Proof. reflexivity. Qed.

(** The scan over literal text prints it, one [%] for each [%%], and stops
    at the terminator or behind the [%] of the next directive. *)
Lemma Advance_loop_literal s o :
  literal s o ->
  forall (st : State) pending behind tail skipped ahead,
    stops tail skipped ahead ->
    0 <= result_ st ->
    result_ st + len (pending ++ o) <= INT_MAX ->
    exists d,
      Advance_loop st pending behind (s ++ tail)
      = Ok (put (seek st (skipped ++ rev s ++ behind) ahead) d (len (pending ++ o))) /\
      emitted d = emitted (device_ st) ++ pending ++ o.
Proof.
  induction 1 as [|c s o Hc Hn Hl IH|s o Hl IH]; intros st pending behind tail skipped ahead Hs H0 H1.
  - rewrite app_nil_r in *. simpl app.
    destruct Hs as [more|c more Hc].
    + simpl.
      destruct (emitter_Write pending st) as (d & E & M); [lia..|].
      rewrite E. simpl. exists d. split; [reflexivity|exact M].
    + simpl. apply Ascii.eqb_neq in Hc. rewrite Hc. simpl.
      destruct (emitter_Write pending st) as (d & E & M); [lia..|].
      rewrite E. simpl. exists d. split; [reflexivity|exact M].
  - cbn [Advance_loop app]. apply Ascii.eqb_neq in Hc, Hn. rewrite Hc, Hn.
    destruct (IH st (pending ++ [c]) (c :: behind) tail skipped ahead Hs H0) as (d & E & M).
    { rewrite <- app_assoc. exact H1. }
    exists d. rewrite E. rewrite <- !app_assoc in *. simpl in *.
    rewrite <- !app_assoc. split; [reflexivity|exact M].
  - cbn [Advance_loop app Ascii.eqb Bool.eqb negb].
    rewrite !len_app, len_cons in H1.
    pose proof (len_nonneg pending). pose proof (len_nonneg o).
    destruct (emitter_Write (pending ++ ["%"%char]) st) as (d1 & E1 & M1).
    { lia. } { rewrite len_app, len_cons; change (len (@nil Char)) with 0; lia. }
    rewrite E1. cbn [bind].
    destruct (IH (put st d1 (len (pending ++ ["%"%char]))) [] ("%"%char :: "%"%char :: behind)
                tail skipped ahead Hs) as (d & E & M).
    { cbn [put set_result result_]. rewrite len_app, len_cons; change (len (@nil Char)) with 0; lia. }
    { cbn [put set_result result_ app]. rewrite len_app, len_cons; change (len (@nil Char)) with 0; lia. }
    exists d. rewrite E. split.
    + rewrite seek_put, put_put.
      replace (len (pending ++ ["%"%char]) + len ([] ++ o))
        with (len (pending ++ "%"%char :: o)).
      * cbn [rev]. rewrite <- !app_assoc. reflexivity.
      * cbn [app]. rewrite !len_app, !len_cons; change (len (@nil Char)) with 0; lia.
    + rewrite M. cbn [put set_result set_device device_ app]. rewrite M1.
      rewrite <- !app_assoc. reflexivity.
Qed.


Lemma literal_app s1 o1 s2 o2 :
  literal s1 o1 -> literal s2 o2 -> literal (s1 ++ s2) (o1 ++ o2).
Proof.
  induction 1 as [|c s o Hc Hn _ IH|s o _ IH]; intros H2; simpl.
  - exact H2.
  - apply literal_plain; auto.
  - apply literal_percent; auto.
Qed.

Lemma literal_plain_text s :
  Forall (fun c => c <> "%"%char /\ c <> NUL) s -> literal s s.
Proof.
  induction 1 as [|c s [A B] _ IH]; constructor; assumption.
Qed.

(** Plain text around one [%%] prints with a single [%] in its place. *)
Lemma literal_around_percent pre post :
  Forall (fun c => c <> "%"%char /\ c <> NUL) pre ->
  Forall (fun c => c <> "%"%char /\ c <> NUL) post ->
  literal (pre ++ lit "%%" ++ post) (pre ++ lit "%" ++ post).
Proof.
  intros A B. apply literal_app; [apply literal_plain_text, A|].
  simpl. apply literal_percent, literal_plain_text, B.
Qed.

(** [Advance] over literal text, with the state it returns. *)
Lemma Advance_literal (st : State) (s o tail skipped ahead : list Char) :
  literal s o ->
  stops tail skipped ahead ->
  format_ st = s ++ tail ->
  0 <= result_ st ->
  result_ st + len o <= INT_MAX ->
  exists d, Advance st
            = Ok (put (seek (opened st) (skipped ++ rev s ++ behind_ st) ahead) d (len o)) /\
            emitted d = emitted (device_ st) ++ o.
Proof.
  intros Hl Hs Hf H0 H1.
  assert (E0 : Advance st = Advance_loop (opened st) [] (behind_ st) (format_ st)).
  { unfold Advance, ResetAll.
    destruct (Z.eqb_spec (result_ st) EOF) as [E|_]; [unfold EOF in E; lia|reflexivity]. }
  rewrite E0, Hf.
  exact (Advance_loop_literal s o Hl (opened st) [] (behind_ st) tail skipped ahead Hs H0 H1).
Qed.

(** [Next] steps over the conversion character and scans on. *)
Lemma Next_literal (st : State) (c : Char) (s o tail skipped ahead : list Char) :
  literal s o ->
  stops tail skipped ahead ->
  format_ st = c :: s ++ tail ->
  0 <= result_ st ->
  result_ st + len o <= INT_MAX ->
  exists d, Next st
            = Ok (put (seek (opened st) (skipped ++ rev s ++ c :: behind_ st) ahead) d (len o)) /\
            emitted d = emitted (device_ st) ++ o.
Proof.
  intros Hl Hs Hf H0 H1. unfold Next, step. rewrite Hf.
  destruct (Advance_literal (seek st (c :: behind_ st) (s ++ tail)) s o tail skipped ahead
              Hl Hs eq_refl H0 H1) as (d & E & M).
  exists d. split; [exact E|exact M].
Qed.

(** C6: [Advance], which runs between the arguments and takes none, prints
    the literal text in front of it with one [%] for every [%%] and every
    other character unchanged, counts what it printed, and goes on to the
    terminator or to the conversion part of the next directive; the [%%]
    never becomes a directive that a call would see. *)
Theorem percent_percent_prints_one_percent
  (st : State) (s o tail skipped ahead : list Char) :
  literal s o ->
  stops tail skipped ahead ->
  format_ st = s ++ tail ->
  0 <= result_ st ->
  result_ st + len o <= INT_MAX ->
  exists st', Advance st = Ok st' /\
              emitted (device_ st') = emitted (device_ st) ++ o /\
              result_ st' = result_ st + len o /\
              format_ st' = ahead /\
              behind_ st' = skipped ++ rev s ++ behind_ st.
Proof.
  intros Hl Hs Hf H0 H1.
  destruct (Advance_literal st s o tail skipped ahead Hl Hs Hf H0 H1) as (d & E & M).
  eexists. split; [exact E|]. cbn. auto.
Qed.

End Emitters.

Lemma percent_percent_prints_one_percent_witness :
  exists st', Advance (SK := string_sink)
                (mkState empty [] (lit "50%% of %d" ++ [NUL]) 0 0 0 0) = Ok st' /\
              emitted (device_ st') = empty ++ lit "50% of " /\
              result_ st' = 0 + len (lit "50% of ") /\
              format_ st' = lit "d" ++ [NUL] /\
              behind_ st' = lit "%" ++ rev (lit "50%% of ") ++ [].
Proof.
  refine (percent_percent_prints_one_percent (SK := string_sink)
            (mkState empty [] (lit "50%% of %d" ++ [NUL]) 0 0 0 0)
            (lit "50%% of ") (lit "50% of ") (lit "%d" ++ [NUL]) (lit "%") (lit "d" ++ [NUL])
            _ _ _ _ _).
  - apply (literal_around_percent (lit "50") (lit " of "));
      repeat constructor; discriminate.
  - apply stops_at_directive. discriminate.
  - reflexivity.
  - simpl. lia.
  - vm_compute. discriminate.
Defined.

(** ** The integer renderer *)

Lemma RenderWithoutSign_ulong_eq below n base uppercase tail :
  RenderWithoutSign_ulong below n base uppercase tail =
  let c := numeral uppercase (n - n / base * base) in
  if n / base =? 0 then Ok (c :: tail)
  else match below with
       | O => Undefined
       | S below' => RenderWithoutSign_ulong below' (n / base) base uppercase (c :: tail)
       end.
Proof. destruct below; reflexivity. Qed.

Lemma positional_snoc base ds d :
  positional base (ds ++ [d]) = positional base ds * base + d.
Proof. unfold positional. rewrite fold_left_app. reflexivity. Qed.

(** The renderer returns the digits of [n], most significant first, in front
    of what the array already holds, as long as they fit under [bufLast]. *)
Lemma RenderWithoutSign_ulong_digits below :
  forall n base uppercase tail,
    2 <= base ->
    0 <= n < base ^ (Z.of_nat below + 1) ->
    exists ds,
      RenderWithoutSign_ulong below n base uppercase tail
      = Ok (map (numeral uppercase) ds ++ tail) /\
      ds <> [] /\
      Forall (fun d => 0 <= d < base) ds /\
      positional base ds = n /\
      (List.length ds <= S below)%nat.
Proof.
  induction below as [|below IH]; intros n base uppercase tail Hb Hn;
    rewrite RenderWithoutSign_ulong_eq; cbv zeta.
  - assert (n / base = 0) as ->.
    { apply Z.div_small. simpl in Hn. lia. }
    replace (n - 0 * base) with n by lia. cbn [Z.eqb].
    exists [n]. split; [|split; [|split; [|split]]].
    + reflexivity.
    + discriminate.
    + constructor; [simpl in Hn; lia|constructor].
    + unfold positional. simpl. lia.
    + simpl. lia.
  - assert (Hq : 0 <= n / base) by (apply Z.div_pos; lia).
    assert (Hr : 0 <= n - n / base * base < base).
    { pose proof (Z.mod_pos_bound n base ltac:(lia)).
      rewrite Z.mod_eq in H by lia. lia. }
    destruct (Z.eqb_spec (n / base) 0) as [E|E].
    + exists [n - n / base * base]. split; [|split; [|split; [|split]]].
      * reflexivity.
      * discriminate.
      * constructor; [exact Hr|constructor].
      * unfold positional. simpl. rewrite E. lia.
      * simpl. lia.
    + destruct (IH (n / base) base uppercase (numeral uppercase (n - n / base * base) :: tail) Hb)
        as (ds & R & Hne & Hall & Hval & Hlen).
      { split; [exact Hq|]. apply Z.div_lt_upper_bound; [lia|].
        replace (Z.of_nat (S below) + 1) with (Z.succ (Z.of_nat below + 1)) in Hn by lia.
        rewrite Z.pow_succ_r in Hn by lia. lia. }
      exists (ds ++ [n - n / base * base]). split; [|split; [|split; [|split]]].
      * rewrite R, map_app, <- app_assoc. reflexivity.
      * destruct ds; discriminate.
      * apply Forall_app. split; [exact Hall|constructor; [exact Hr|constructor]].
      * rewrite positional_snoc, Hval. lia.
      * rewrite length_app. simpl. lia.
Qed.

(** Decimal numerals read back as the digits they stand for. *)
Lemma parse_digits_numerals ds :
  forall acc,
    Forall (fun d => 0 <= d < 10) ds ->
    parse_digits acc (map (numeral false) ds)
    = Some (fold_left (fun a d => a * 10 + d) ds acc).
Proof.
  induction ds as [|d ds IH]; intros acc H; [reflexivity|].
  inversion H as [|? ? Hd Hds]; subst. cbn [map parse_digits fold_left].
  assert (numeral false d = char_of (d + 48)) as ->.
  { unfold numeral. destruct (Z.leb_spec d 9); [reflexivity|lia]. }
  assert (code (char_of (d + 48)) = d + 48) as C.
  { assert (d = 0 \/ d = 1 \/ d = 2 \/ d = 3 \/ d = 4 \/ d = 5 \/ d = 6 \/ d = 7 \/ d = 8 \/ d = 9) by lia.
    repeat match goal with H : _ \/ _ |- _ => destruct H end; subst; reflexivity. }
  unfold isdigit. rewrite C.
  destruct (Z.leb_spec 48 (d + 48)); [|lia].
  destruct (Z.leb_spec (d + 48) 57); [|lia].
  cbn [andb]. replace (d + 48 - 48) with d by lia. apply IH, Hds.
Qed.

(** ** What the renderer returns *)

Lemma map_numeral_length up ds : len (map (numeral up) ds) = len ds.
Proof. unfold len. rewrite length_map. reflexivity. Qed.

(** Every 32-bit value has a rendering in the bases 8, 10 and 16, of at most
    eleven characters. *)
Lemma RenderWithoutSign_ulong_returns n base up :
  base = 8 \/ base = 10 \/ base = 16 ->
  0 <= n < WORD ->
  exists ds,
    RenderWithoutSign_ulong (bufSize - 1) n base up [] = Ok (map (numeral up) ds) /\
    ds <> [] /\
    Forall (fun d => 0 <= d < base) ds /\
    positional base ds = n /\
    len ds <= 16.
Proof.
  intros Hb Hn.
  destruct (RenderWithoutSign_ulong_digits (bufSize - 1) n base up []) as (ds & R & A & B & C & D).
  - lia.
  - change (Z.of_nat (bufSize - 1) + 1) with 16.
    assert (WORD <= base ^ 16).
    { destruct Hb as [-> | [-> | ->]]; vm_compute; discriminate. }
    lia.
  - exists ds. rewrite app_nil_r in R.
    split; [exact R|]. split; [exact A|]. split; [exact B|]. split; [exact C|].
    unfold len. change (S (bufSize - 1)) with 16%nat in D. lia.
Qed.

Lemma decrement_last_length l : len (decrement_last l) = len l.
Proof.
  induction l as [|a [|b l] IH]; try reflexivity.
  change (decrement_last (a :: b :: l)) with (a :: decrement_last (b :: l)).
  rewrite !len_cons, IH, len_cons. reflexivity.
Qed.

Lemma to_long_range i : 0 <= i < WORD -> LONG_MIN <= to_long i <= LONG_MAX.
Proof.
  unfold to_long, WORD, LONG_MIN, LONG_MAX. intros H.
  destruct (Z.ltb_spec i 2147483648); lia.
Qed.

Lemma to_long_to_ulong n : LONG_MIN <= n <= LONG_MAX -> to_long (to_ulong n) = n.
Proof.
  unfold to_long, to_ulong, WORD, LONG_MIN, LONG_MAX. intros H.
  destruct (Z_lt_le_dec n 0) as [L|L].
  - assert (n mod 4294967296 = n + 4294967296) as ->.
    { symmetry. apply Z.mod_unique with (q := -1); lia. }
    destruct (Z.ltb_spec (n + 4294967296) 2147483648); lia.
  - rewrite Z.mod_small by lia.
    destruct (Z.ltb_spec n 2147483648); lia.
Qed.

(** The signed renderer returns the digits of the magnitude. *)
Lemma RenderWithoutSign_long_returns n base up :
  base = 8 \/ base = 10 \/ base = 16 ->
  LONG_MIN <= n <= LONG_MAX ->
  exists digits,
    RenderWithoutSign_long (bufSize - 1) n base up = Ok digits /\
    digits <> [] /\ len digits <= 16 /\
    (n <> LONG_MIN ->
     exists ds, digits = map (numeral up) ds /\
                Forall (fun d => 0 <= d < base) ds /\
                positional base ds = Z.abs n).
Proof.
  intros Hb Hn. unfold RenderWithoutSign_long.
  destruct (Z.eqb_spec n LONG_MIN) as [->|N]; cbn [negb].
  - destruct (RenderWithoutSign_ulong_returns (to_ulong (LONG_MIN + 1)) base up Hb)
      as (ds & R & A & B & C & D).
    { vm_compute. split; [discriminate|reflexivity]. }
    rewrite R. cbn [bind]. eexists. split; [reflexivity|]. split; [|split].
    + destruct ds as [|d [|d' ds]]; [contradiction|discriminate|].
      cbn [map]. destruct (map (numeral up) ds); discriminate.
    + rewrite decrement_last_length, map_numeral_length. exact D.
    + intros F. contradiction.
  - assert (E : to_ulong (if n <? 0 then - n else n) = Z.abs n).
    { unfold to_ulong, WORD, LONG_MIN, LONG_MAX in *.
      destruct (Z.ltb_spec n 0); rewrite Z.mod_small by lia; lia. }
    rewrite E.
    destruct (RenderWithoutSign_ulong_returns (Z.abs n) base up Hb)
      as (ds & R & A & B & C & D).
    { unfold WORD, LONG_MIN, LONG_MAX in *. lia. }
    rewrite R. eexists. split; [reflexivity|]. split; [|split].
    + destruct ds; [contradiction|discriminate].
    + rewrite map_numeral_length. exact D.
    + intros _. exists ds. auto.
Qed.

(** ** Formatting a number *)

Section Numbers.
Context {Device : Type} {SK : Sink Device} {FF : FloatFormat}.
Local Abbreviation State := (PrintfState Device).

Lemma passes_cases (c : Char) :
  passes c = true ->
  c = "d"%char \/ c = "i"%char \/ c = "u"%char \/ c = "o"%char \/
  c = "x"%char \/ c = "X"%char \/ c = "p"%char \/ c = NUL.
Proof.
  unfold passes, numeric. cbn [lit list_ascii_of_string existsb]. intros H.
  repeat (apply orb_prop in H; destruct H as [H|H]);
    try (apply Ascii.eqb_eq in H; auto 10); discriminate.
Qed.

Lemma numeric_passes (c : Char) : numeric c = true -> passes c = true.
Proof. unfold passes. intros ->. reflexivity. Qed.

(** [FormatWithCurrentFlags] on a character it formats as a number: the
    counts, then the writes. *)
Lemma FormatWithCurrentFlags_numeric (st : State) c i digits :
  peek st = Ok c ->
  passes c = true ->
  rendered c i = Ok digits ->
  FormatWithCurrentFlags st i =
  let st' := with_conversion st c in
  let signChar := sign_char st' c i in
  let countZeros := count_zeros st' (len digits) in
  let countBase := count_base st' c i countZeros in
  let countSign := if negb (Ascii.eqb signChar NUL) then 1 else 0 in
  let totalPrintable := (len digits + countZeros + countBase + countSign) mod WORD in
  let countPadLeft :=
    if totalPrintable <? width_ st' then
      if LeftJustify st' then 0 else width_ st' - totalPrintable
    else 0 in
  let countPadRight :=
    if totalPrintable <? width_ st' then
      if LeftJustify st' then width_ st' - totalPrintable else 0
    else 0 in
  if FillZeros st' && (prec_ st' =? SIZE_MAX)
  then print_counted st' 0 signChar countBase (conversion c) countPadLeft digits countPadRight
  else print_counted st' countPadLeft signChar countBase (conversion c) countZeros digits countPadRight.
Proof.
  intros P N R. unfold FormatWithCurrentFlags. rewrite P. cbn [bind].
  unfold rendered in R.
  assert (T : (NUL =? "p")%char = false /\ (NUL =? "d")%char = false /\
              (NUL =? "i")%char = false /\ (NUL =? "c")%char = false /\
              (NUL =? "o")%char = false /\ (NUL =? "x")%char = false /\
              (NUL =? "X")%char = false /\ strchr "cdiuoxX" NUL = true)
    by (repeat split; reflexivity).
  destruct T as (T1 & T2 & T3 & T4 & T5 & T6 & T7 & T8).
  destruct (passes_cases c N) as [->|[->|[->|[->|[->|[->|[->| ->]]]]]]];
    unfold is_signed, base_of, conversion in R;
    rewrite ?T1, ?T2, ?T3, ?T4, ?T5, ?T6, ?T7, ?T8 in R;
    rewrite ?T1, ?T2, ?T3, ?T4, ?T5, ?T6, ?T7, ?T8;
    cbn [Ascii.eqb Bool.eqb orb andb negb strchr existsb lit list_ascii_of_string app] in R |- *;
    rewrite ?T1, ?T2, ?T3, ?T4, ?T5, ?T6, ?T7, ?T8 in R;
    rewrite ?T1, ?T2, ?T3, ?T4, ?T5, ?T6, ?T7, ?T8;
    cbn [orb andb negb] in R |- *;
    rewrite R; cbn [bind];
    unfold with_conversion, sign_char, count_zeros, count_base, is_signed, base_of, conversion, print_counted;
    rewrite ?T1, ?T2, ?T3, ?T4, ?T5, ?T6, ?T7;
    cbn [Ascii.eqb Bool.eqb orb andb negb Z.eqb Pos.eqb];
    rewrite ?T1, ?T2, ?T3, ?T4, ?T5, ?T6, ?T7;
    cbn [Ascii.eqb Bool.eqb orb andb negb Z.eqb Pos.eqb];
    cbv zeta;
    try match goal with |- context [?t <? width_ ?s] => destruct (t <? width_ s) end;
    try match goal with |- context [LeftJustify ?s] => destruct (LeftJustify s) end;
    try match goal with |- context [FillZeros ?s && ?p] => destruct (FillZeros s && p) end;
    reflexivity.
Qed.

End Numbers.

Section FieldProofs.
Context {Device : Type} {SK : Sink Device} {FF : FloatFormat} {UB : Unbounded Device}.
Local Abbreviation State := (PrintfState Device).

Lemma emits_refl (st : State) : emits st [] st.
Proof. unfold emits. rewrite app_nil_r. change (len (@nil Char)) with 0. repeat split; lia. Qed.

Lemma emits_put (st : State) d out :
  emitted d = emitted (device_ st) ++ out -> emits st out (put st d (len out)).
Proof. intros E. unfold emits. cbn. repeat split. exact E. Qed.

Lemma emits_trans (st1 st2 st3 : State) o1 o2 :
  emits st1 o1 st2 -> emits st2 o2 st3 -> emits st1 (o1 ++ o2) st3.
Proof.
  intros (A1 & B1 & C1 & D1) (A2 & B2 & C2 & D2). unfold emits.
  rewrite A2, A1, B2, B1, C2, C1, D2, D1, len_app, app_assoc. repeat split. lia.
Qed.

Lemma hands_over_Next : hands_over Next [].
Proof. intros st _ _. exists st. split; [reflexivity|apply emits_refl]. Qed.

Lemma hands_over_seq (f F : State -> outcome State) o1 o2 :
  emitter f o1 -> hands_over F o2 ->
  hands_over (fun st => st' <- f st ;; F st') (o1 ++ o2).
Proof.
  intros Hf HF st H0 H1. rewrite len_app in H1.
  pose proof (len_nonneg o1). pose proof (len_nonneg o2).
  destruct (Hf st) as (d1 & E1 & M1); [lia..|].
  rewrite E1. cbn [bind].
  destruct (HF (put st d1 (len o1))) as (st2 & E2 & M2); [cbn; lia..|].
  exists st2. split; [exact E2|].
  eapply emits_trans; [apply emits_put; exact M1|exact M2].
Qed.

Lemma print_counted_hands_over pl sc cb fc cz digits pr :
  hands_over (fun st : State => print_counted st pl sc cb fc cz digits pr)
             (counted_text pl sc cb fc cz digits pr).
Proof.
  unfold print_counted, counted_text.
  apply hands_over_seq; [apply emitter_Fill|].
  apply hands_over_seq; [apply emitter_if; [apply emitter_Write|apply emitter_skip]|].
  apply hands_over_seq; [apply (emitter_if _ (fun st => Fill st "0"%char 1) _ ["0"%char]);
                         [apply (emitter_Fill "0"%char 1)|apply emitter_skip]|].
  apply hands_over_seq; [apply (emitter_if _ (fun st => Fill st fc 1) _ [fc]);
                         [apply (emitter_Fill fc 1)|apply emitter_skip]|].
  apply hands_over_seq; [apply emitter_Fill|].
  apply hands_over_seq; [apply emitter_Write|].
  rewrite <- (app_nil_r (repeat " "%char (Z.to_nat pr))).
  apply hands_over_seq; [apply emitter_Fill|].
  apply hands_over_Next.
Qed.
(** The flags next to the alternate-form bit are not touched by setting it. *)
Lemma raise_has (st : State) (bit bit' : Z) :
  Z.land bit bit' = 0 -> has (raise st bit) bit' = has st bit'.
Proof.
  intros H. unfold has, raise. cbn [flags_ set_flags].
  rewrite Z.land_lor_distr_l, H, Z.lor_0_r. reflexivity.
Qed.

Lemma raise_has_same (st : State) (bit : Z) :
  bit <> 0 -> has (raise st bit) bit = true.
Proof.
  intros H. unfold has, raise. cbn [flags_ set_flags].
  rewrite Z.land_lor_distr_l, Z.land_diag.
  destruct (Z.eqb_spec (Z.lor (Z.land (flags_ st) bit) bit) 0) as [E|E]; [|reflexivity].
  apply Z.lor_eq_0_iff in E. tauto.
Qed.

Lemma with_conversion_flags (st : State) c :
  LeftJustify (with_conversion st c) = LeftJustify st /\
  ShowSignAlways (with_conversion st c) = ShowSignAlways st /\
  Blank (with_conversion st c) = Blank st /\
  FillZeros (with_conversion st c) = FillZeros st /\
  AlternateForm (with_conversion st c) = alternate st c /\
  width_ (with_conversion st c) = width_ st /\
  prec_ (with_conversion st c) = prec_ st.
Proof.
  unfold with_conversion, alternate. destruct (Ascii.eqb c "p").
  - unfold LeftJustify, ShowSignAlways, Blank, FillZeros, AlternateForm, SetAlternateForm.
    rewrite !raise_has by reflexivity.
    rewrite raise_has_same by discriminate.
    rewrite orb_true_r. repeat split.
  - rewrite orb_false_r. repeat split.
Qed.

Lemma with_conversion_emits (st st2 : State) c out :
  emits (with_conversion st c) out st2 -> emits st out st2.
Proof. unfold with_conversion. destruct (Ascii.eqb c "p"); exact (fun H => H). Qed.

Lemma base_of_cases c : base_of c = 8 \/ base_of c = 10 \/ base_of c = 16.
Proof.
  unfold base_of. destruct (Ascii.eqb (conversion c) "o"); [auto|].
  destruct (_ || _); auto.
Qed.

Lemma sign_char_text (st : State) c i :
  (if negb (Ascii.eqb (sign_char (with_conversion st c) c i) NUL)
   then [sign_char (with_conversion st c) c i] else []) = sign_text st c i.
Proof.
  destruct (with_conversion_flags st c) as (_ & S & B & _).
  unfold sign_char, sign_text. rewrite S, B.
  destruct (is_signed c); [|reflexivity]. cbn [andb].
  destruct (to_long i <? 0); [reflexivity|].
  destruct (ShowSignAlways st); [reflexivity|].
  destruct (Blank st); reflexivity.
Qed.

Lemma count_zeros_text (st : State) c digits :
  repeat "0"%char (Z.to_nat (count_zeros (with_conversion st c) (len digits)))
  = precision_zeros st digits /\
  count_zeros (with_conversion st c) (len digits) = len (precision_zeros st digits).
Proof.
  destruct (with_conversion_flags st c) as (_ & _ & _ & _ & _ & _ & P).
  unfold count_zeros, precision_zeros. rewrite P, andb_true_r.
  destruct (negb (prec_ st =? SIZE_MAX)); cbn [andb]; [|split; reflexivity].
  destruct (Z.ltb_spec (len digits) (prec_ st)); [|split; reflexivity].
  split; [reflexivity|]. rewrite len_repeat. lia.
Qed.

Lemma count_base_text (st : State) c i digits :
  let cb := count_base (with_conversion st c) c i
              (count_zeros (with_conversion st c) (len digits)) in
  (if 0 <? cb then ["0"%char] else []) ++ (if cb =? 2 then [conversion c] else [])
  = base_prefix st c i digits /\
  cb = len (base_prefix st c i digits).
Proof.
  destruct (with_conversion_flags st c) as (_ & _ & _ & _ & A & _ & _).
  destruct (count_zeros_text st c digits) as [_ Z0].
  cbv zeta. unfold count_base, base_prefix. rewrite A, Z0.
  destruct (base_of_cases c) as [-> | [-> | ->]]; cbn [Z.eqb Pos.eqb negb andb];
    destruct (alternate st c); cbn [andb]; try (split; reflexivity);
    destruct (i =? 0); cbn [negb]; try (split; reflexivity).
  destruct (precision_zeros st digits) as [|z zs].
  - split; reflexivity.
  - rewrite len_cons. pose proof (len_nonneg zs).
    destruct (Z.ltb_spec 0 (1 + len zs)); [|lia]. split; reflexivity.
Qed.


Lemma with_conversion_output (st : State) c :
  result_ (with_conversion st c) = result_ st.
Proof. unfold with_conversion. destruct (Ascii.eqb c "p"); reflexivity. Qed.

Lemma counted_text_eq (st : State) c i digits pl cz pr :
  counted_text pl (sign_char (with_conversion st c) c i)
    (count_base (with_conversion st c) c i
       (count_zeros (with_conversion st c) (len digits)))
    (conversion c) cz digits pr
  = repeat " "%char (Z.to_nat pl) ++ sign_text st c i ++ base_prefix st c i digits
    ++ repeat "0"%char (Z.to_nat cz) ++ digits ++ repeat " "%char (Z.to_nat pr).
Proof.
  unfold counted_text. rewrite sign_char_text.
  destruct (count_base_text st c i digits) as [B _]. cbv zeta in B.
  rewrite <- B, <- !app_assoc. reflexivity.
Qed.

Lemma printable_length (st : State) c i digits :
  len (printable st c i digits)
  = len digits + count_zeros (with_conversion st c) (len digits)
    + count_base (with_conversion st c) c i
        (count_zeros (with_conversion st c) (len digits))
    + (if negb (Ascii.eqb (sign_char (with_conversion st c) c i) NUL) then 1 else 0).
Proof.
  destruct (count_base_text st c i digits) as [_ B]. cbv zeta in B.
  destruct (count_zeros_text st c digits) as [_ Z0].
  rewrite B, Z0. unfold printable. rewrite !len_app, <- sign_char_text.
  destruct (negb _); [rewrite len_cons|]; change (len (@nil Char)) with 0; lia.
Qed.

(** The field is as long as the width, or as the printable content when
    that is longer. *)
Lemma field_length (st : State) c i digits :
  len (field st c i digits) = Z.max (width_ st) (len (printable st c i digits)).
Proof.
  unfold field. cbv zeta.
  pose proof (len_nonneg (printable st c i digits)) as Hp.
  destruct (Z.ltb_spec (len (printable st c i digits)) (width_ st)) as [L|L]; [|lia].
  assert (Hpad : Z.of_nat (Z.to_nat (width_ st - len (printable st c i digits)))
                 = width_ st - len (printable st c i digits)) by lia.
  destruct (LeftJustify st).
  { rewrite len_app, len_repeat. lia. }
  destruct (FillZeros st && (prec_ st =? SIZE_MAX)) eqn:Z0.
  - apply andb_prop in Z0. destruct Z0 as [_ Z0].
    revert Hpad L. unfold printable, precision_zeros. rewrite Z0. cbn [negb andb app].
    intros Hpad L. rewrite !len_app, len_repeat in *. lia.
  - rewrite len_app, len_repeat. lia.
Qed.

(** A conversion formatted as a number sends its field to the device, counts
    it and hands over to [Next]. *)
Lemma FormatWithCurrentFlags_field (st : State) c i digits :
  peek st = Ok c ->
  passes c = true ->
  rendered c i = Ok digits ->
  width_ st < WORD ->
  0 <= result_ st ->
  result_ st + len (field st c i digits) <= INT_MAX ->
  exists st2, FormatWithCurrentFlags st i = Next st2 /\
              emits st (field st c i digits) st2.
Proof.
  intros P N R Hw H0 H1.
  rewrite (FormatWithCurrentFlags_numeric st c i digits P N R). cbv zeta.
  pose proof (len_nonneg (printable st c i digits)) as Hp.
  pose proof (field_length st c i digits) as HL.
  rewrite <- printable_length.
  rewrite Z.mod_small by (unfold WORD, INT_MAX in *; lia).
  destruct (with_conversion_flags st c) as (LJ & _ & _ & FZ & _ & W & PR).
  rewrite LJ, FZ, W, PR.
  assert (live : 0 <= result_ (with_conversion st c))
    by (rewrite with_conversion_output; exact H0).
  assert (finish : forall pl cz pr,
    field st c i digits
    = repeat " "%char (Z.to_nat pl) ++ sign_text st c i ++ base_prefix st c i digits
      ++ repeat "0"%char (Z.to_nat cz) ++ digits ++ repeat " "%char (Z.to_nat pr) ->
    exists st2,
      print_counted (with_conversion st c) pl (sign_char (with_conversion st c) c i)
        (count_base (with_conversion st c) c i
           (count_zeros (with_conversion st c) (len digits)))
        (conversion c) cz digits pr = Next st2 /\
      emits st (field st c i digits) st2).
  { intros pl cz pr E.
    rewrite <- counted_text_eq in E.
    destruct (print_counted_hands_over pl (sign_char (with_conversion st c) c i)
                (count_base (with_conversion st c) c i
                   (count_zeros (with_conversion st c) (len digits)))
                (conversion c) cz digits pr (with_conversion st c) live)
      as (st2 & E2 & M2).
    { rewrite with_conversion_output, <- E. exact H1. }
    exists st2. split; [exact E2|]. rewrite E.
    apply (with_conversion_emits st st2 c). exact M2. }
  unfold field in *. cbv zeta in *. unfold printable in finish |- *.
  destruct (count_zeros_text st c digits) as [Z1 Z2].
  destruct (Z.ltb_spec (len (printable st c i digits)) (width_ st)) as [L|L];
    unfold printable in L;
    [destruct (Z.ltb_spec (len (sign_text st c i ++ base_prefix st c i digits
                                  ++ precision_zeros st digits ++ digits)) (width_ st)); [|lia]
    |destruct (Z.ltb_spec (len (sign_text st c i ++ base_prefix st c i digits
                                  ++ precision_zeros st digits ++ digits)) (width_ st)); [lia|]];
    destruct (LeftJustify st);
    destruct (FillZeros st && (prec_ st =? SIZE_MAX)) eqn:ZF;
    apply finish;
    try (apply andb_prop in ZF; destruct ZF as [_ ZF];
         unfold precision_zeros; rewrite ZF; cbn [negb andb]);
    try rewrite Z1;
    cbn [Z.to_nat repeat app]; rewrite <- ?app_assoc, ?app_nil_r; reflexivity.
Qed.


End FieldProofs.

(** ** The calls on a directive *)

Section Calls.
Context {Device : Type} {SK : Sink Device} {FF : FloatFormat} {UB : Unbounded Device}.
Local Abbreviation State := (PrintfState Device).

Lemma call_integral (st : State) m a i :
  integral a = Some i -> call st m a = keep m (call_unsigned_long st i).
Proof.
  destruct a; cbn [integral]; intros E; try discriminate;
    injection E as <-; reflexivity.
Qed.

Lemma seek_same (st : State) : seek st (behind_ st) (format_ st) = st.
Proof. destruct st; reflexivity. Qed.

Lemma set_flags_same (st : State) : set_flags st (flags_ st) = st.
Proof. destruct st; reflexivity. Qed.

(** A directive that begins with its conversion character has no leaders
    to read. *)
Lemma ReadLeaders_none (st : State) c :
  peek st = Ok c -> leader c = false -> ReadLeaders st = Ok st.
Proof.
  intros P L. unfold leader in L.
  repeat (apply orb_false_elim in L; destruct L as [L ?]).
  unfold ReadLeaders.
  assert (ReadFlags st = Ok st) as ->.
  { unfold ReadFlags. unfold peek in P.
    destruct (format_ st) as [|c' rest] eqn:F; [discriminate|]. injection P as ->.
    cbn [ReadFlags_loop]. destruct (flag_of c); [discriminate|].
    cbn [bind]. rewrite set_flags_same, <- F, seek_same. reflexivity. }
  cbn [bind]. unfold ReadWidth.
  rewrite (ParseDecimalUInt_stops st c) by assumption.
  cbn [bind]. rewrite SetWidth_same, P. cbn [bind].
  replace (Ascii.eqb c ".") with false by auto.
  cbn [bind]. apply (ReadModifiers_stops st c); assumption.
Qed.

(** The renderer returns for every value under every numeric conversion. *)
Lemma rendered_returns c i :
  0 <= i < WORD ->
  exists digits, rendered c i = Ok digits /\ digits <> [] /\ len digits <= 16.
Proof.
  intros Hi. unfold rendered. destruct (is_signed c).
  - destruct (RenderWithoutSign_long_returns (to_long i) (base_of c)
                (Ascii.eqb (conversion c) "X") (base_of_cases c) (to_long_range i Hi))
      as (digits & R & A & B & _).
    exists digits. auto.
  - destruct (RenderWithoutSign_ulong_returns i (base_of c)
                (Ascii.eqb (conversion c) "X") (base_of_cases c) Hi)
      as (ds & R & A & _ & _ & D).
    exists (map (numeral (Ascii.eqb (conversion c) "X")) ds).
    rewrite map_numeral_length. split; [exact R|]. split; [|exact D].
    destruct ds; [contradiction|discriminate].
Qed.

End Calls.

(** ** Width *)

Section Width.
Context {Device : Type} {SK : Sink Device} {FF : FloatFormat} {UB : Unbounded Device}.
Local Abbreviation State := (PrintfState Device).

(** The width rule with flags, width and precision as the code has read
    them into [st1] (a point without digits leaves the precision unset, see
    the last section of the file): an argument of integer kind on a
    directive whose conversion [c] is numeric.  The renderer returns
    digits; when sign, prefix, precision zeros and digits are shorter than
    the width, the call sends a field of exactly the width to the device
    before it hands over to [Next]: the content then blanks under
    left-justify; else sign and prefix, zeros and the digits under zero-fill
    when the precision is unset; else blanks then the content. *)
Theorem width_pads_numeric_field
  (st st1 : State) (m : Memory) (a : Arg) (i : Z) (c : Char) :
  0 <= result_ st ->
  ReadLeaders st = Ok st1 ->
  peek st1 = Ok c ->
  numeric c = true ->
  integral a = Some i ->
  0 <= i < WORD ->
  width_ st1 < WORD ->
  result_ st + width_ st1 <= INT_MAX ->
  exists digits,
    rendered c (short_value st1 c i) = Ok digits /\
    let v := short_value st1 c i in
    let content := printable st1 c v digits in
    let pad := Z.to_nat (width_ st1 - len content) in
    (len content < width_ st1 ->
     exists st2 out,
       call st m a = keep m (Next st2) /\
       emits st1 out st2 /\
       emitted (device_ st2) = emitted (device_ st) ++ out /\
       len out = width_ st1 /\
       out = if LeftJustify st1 then content ++ repeat " "%char pad
             else if FillZeros st1 && (prec_ st1 =? SIZE_MAX)
                  then sign_text st1 c v ++ base_prefix st1 c v digits
                       ++ repeat "0"%char pad ++ digits
                  else repeat " "%char pad ++ content).
Proof.
  intros H0 HL P N I Hi Hw H1.
  assert (Hv : 0 <= short_value st1 c i < WORD).
  { unfold short_value, to_ulong, to_ushort.
    destruct (_ && _); [|exact Hi].
    pose proof (Z.mod_pos_bound i 65536 eq_refl).
    unfold WORD. rewrite Z.mod_small; lia. }
  destruct (rendered_returns c (short_value st1 c i) Hv) as (digits & R & _ & _).
  exists digits. split; [exact R|]. cbv zeta. intros Hlt.
  destruct (ReadLeaders_output _ _ HL) as [Dev Res].
  pose proof (field_length st1 c (short_value st1 c i) digits) as FL.
  destruct (FormatWithCurrentFlags_field st1 c (short_value st1 c i) digits P
              (numeric_passes c N) R Hw)
    as (st2 & E & M).
  { rewrite Res. exact H0. }
  { rewrite Res, FL. lia. }
  exists st2, (field st1 c (short_value st1 c i) digits).
  split; [|split; [exact M|split; [|split]]].
  - rewrite (call_integral st m a i I).
    rewrite (call_unsigned_long_leaders st st1 c i); [rewrite E; reflexivity|lia|exact HL|exact P|].
    intros ->. discriminate.
  - destruct M as (A & _). rewrite A, Dev. reflexivity.
  - rewrite FL. lia.
  - unfold field. cbv zeta.
    destruct (Z.ltb_spec (len (printable st1 c (short_value st1 c i) digits)) (width_ st1));
      [reflexivity|lia].
Qed.

End Width.

(** ** Strings *)

Lemma c_str_length l : len (c_str l) <= len l.
Proof.
  induction l as [|c l IH]; [reflexivity|]. cbn [c_str].
  destruct (Ascii.eqb c NUL).
  - rewrite len_cons. pose proof (len_nonneg l). change (len (@nil Char)) with 0. lia.
  - rewrite !len_cons. lia.
Qed.

Lemma firstn_c_str l : forall k, (k <= List.length (c_str l))%nat ->
  firstn k l = firstn k (c_str l).
Proof.
  induction l as [|c l IH]; intros k H; [reflexivity|].
  cbn [c_str] in *. destruct (Ascii.eqb c NUL).
  - simpl in H. assert (k = 0%nat) as -> by lia. reflexivity.
  - destruct k; [reflexivity|]. cbn [firstn]. f_equal. apply IH. simpl in H. lia.
Qed.

Lemma len_firstn {A} (l : list A) k : 0 <= k <= len l -> len (firstn (Z.to_nat k) l) = k.
Proof. unfold len. intros H. rewrite length_firstn. lia. Qed.

Section Strings.
Context {Device : Type} {SK : Sink Device} {FF : FloatFormat} {UB : Unbounded Device}.
Local Abbreviation State := (PrintfState Device).

Lemma string_field_length (st : State) text :
  len (string_field st text) = Z.max (width_ st) (len text).
Proof.
  unfold string_field. cbv zeta. pose proof (len_nonneg text).
  destruct (Z.ltb_spec (len text) (width_ st)); [|lia].
  destruct (LeftJustify st); rewrite len_app, len_repeat; lia.
Qed.

(** A C string on an [s] directive, with flags, width and precision as the
    code has read them into [st1] (a point without digits leaves the
    precision unset).  The call copies the first
    [min(strlen(s), precision)] characters of the string, all of it when the
    precision is unset, and sends them to the device in a field brought up
    to the width with blanks, on the right under left-justify and on the
    left otherwise, before it hands over to [Next]. *)
Theorem string_directive_field (st st1 : State) (m : Memory) (s : CString) :
  0 <= result_ st ->
  ReadLeaders st = Ok st1 ->
  peek st1 = Ok "s"%char ->
  0 <= prec_ st1 ->
  result_ st + Z.max (width_ st1) (Z.min (strlen (chars s)) (prec_ st1)) <= INT_MAX ->
  let n := Z.min (strlen (chars s)) (prec_ st1) in
  let text := firstn (Z.to_nat n) (c_str (chars s)) in
  exists st2,
    call st m (a_c_string s) = keep m (Next st2) /\
    emits st1 (string_field st1 text) st2 /\
    emitted (device_ st2) = emitted (device_ st) ++ string_field st1 text /\
    len text = n /\
    (prec_ st1 = SIZE_MAX -> strlen (chars s) <= SIZE_MAX -> text = c_str (chars s)) /\
    len (string_field st1 text) = Z.max (width_ st1) n.
Proof.
  intros H0 HL P Hp H1 n text.
  destruct (ReadLeaders_output _ _ HL) as [Dev Res].
  pose proof (len_nonneg (c_str (chars s))) as Hs.
  assert (Hn : 0 <= n <= len (c_str (chars s))) by (unfold n, strlen in *; lia).
  assert (Lt : len text = n) by (apply len_firstn; exact Hn).
  assert (Tx : firstn (Z.to_nat n) (chars s) = text).
  { apply firstn_c_str. unfold len in Hn. lia. }
  pose proof (string_field_length st1 text) as FL. rewrite Lt in FL.
  assert (body : exists st2,
    (st' <- (if n <? width_ st1 then
               if LeftJustify st1 then
                 st' <- Write st1 text ;; Fill st' " "%char (width_ st' - n)
               else
                 st' <- Fill st1 " "%char (width_ st1 - n) ;; Write st' text
             else Write st1 text) ;;
     Next st') = Next st2 /\ emits st1 (string_field st1 text) st2).
  { unfold string_field. cbv zeta. rewrite Lt.
    destruct (Z.ltb_spec n (width_ st1)) as [L|L].
    - destruct (LeftJustify st1).
      + destruct (emitter_Write text st1) as (d1 & E1 & M1); [lia..|].
        rewrite E1. cbn [bind].
        change (width_ (put st1 d1 (len text))) with (width_ st1).
        destruct (emitter_Fill " "%char (width_ st1 - n) (put st1 d1 (len text)))
          as (d2 & E2 & M2); [cbn; rewrite ?len_repeat; lia..|].
        rewrite E2. cbn [bind]. eexists. split; [reflexivity|].
        eapply emits_trans; [apply emits_put; exact M1|apply emits_put; exact M2].
      + destruct (emitter_Fill " "%char (width_ st1 - n) st1) as (d1 & E1 & M1);
          [rewrite ?len_repeat; lia..|].
        rewrite E1. cbn [bind].
        destruct (emitter_Write text (put st1 d1 (len (repeat " "%char (Z.to_nat (width_ st1 - n))))))
          as (d2 & E2 & M2); [cbn; rewrite ?len_repeat; lia..|].
        rewrite E2. cbn [bind]. eexists. split; [reflexivity|].
        eapply emits_trans; [apply emits_put; exact M1|apply emits_put; exact M2].
    - destruct (emitter_Write text st1) as (d1 & E1 & M1); [lia..|].
      rewrite E1. cbn [bind]. eexists. split; [reflexivity|]. apply emits_put. exact M1. }
  destruct body as (st2 & E & M).
  exists st2. split; [|split; [exact M|split; [|split; [exact Lt|split; [|exact FL]]]]].
  - cbn [call]. unfold call_c_string.
    destruct (Z.eqb_spec (result_ st) (-1)); [lia|].
    rewrite HL. cbn [bind]. rewrite P. cbn [bind Ascii.eqb Bool.eqb negb].
    fold n. rewrite Tx, E. reflexivity.
  - destruct M as (A & _). rewrite A, Dev. reflexivity.
  - intros Pu Hlen. unfold text, n. rewrite Pu, Z.min_l by exact Hlen.
    unfold strlen, len. rewrite Nat2Z.id. apply firstn_all.
Qed.

End Strings.

(** ** Signed decimal output *)

Lemma parse_digits_head acc c l v :
  parse_digits acc (c :: l) = Some v -> Ascii.eqb c "-" = false.
Proof.
  cbn [parse_digits]. destruct (Ascii.eqb_spec c "-") as [->|]; [|reflexivity].
  cbn. discriminate.
Qed.

(** The digits [%d] and [%i] render for [n] read back as the magnitude
    of [n]; this includes [LONG_MIN], whose digits come from the rendering
    of [2^31 + 1] with the last digit lowered by one. *)
Lemma rendered_decimal (c : Char) (n : Z) :
  c = "d"%char \/ c = "i"%char ->
  LONG_MIN <= n <= LONG_MAX ->
  exists digits,
    rendered c (to_ulong n) = Ok digits /\
    digits <> [] /\ len digits <= 16 /\
    parse_digits 0 digits = Some (Z.abs n).
Proof.
  intros Hc Hn.
  assert (rendered c (to_ulong n) = RenderWithoutSign_long (bufSize - 1) n 10 false) as ->.
  { unfold rendered. rewrite (to_long_to_ulong n Hn). destruct Hc as [-> | ->]; reflexivity. }
  destruct (Z.eq_dec n LONG_MIN) as [->|N].
  - eexists. split; [vm_compute; reflexivity|].
    split; [discriminate|]. split; [vm_compute; discriminate|reflexivity].
  - destruct (RenderWithoutSign_long_returns n 10 false ltac:(auto) Hn)
      as (digits & R & A & B & C).
    destruct (C N) as (ds & -> & F & V).
    exists (map (numeral false) ds). split; [exact R|]. split; [exact A|]. split; [exact B|].
    rewrite parse_digits_numerals by exact F. exact (f_equal Some V).
Qed.

Lemma parse_signed (n : Z) digits :
  digits <> [] ->
  parse_digits 0 digits = Some (Z.abs n) ->
  parse_decimal ((if n <? 0 then ["-"%char] else []) ++ digits) = Some n.
Proof.
  intros A P. destruct digits as [|d ds]; [contradiction|].
  destruct (Z.ltb_spec n 0).
  - cbn [app parse_decimal Ascii.eqb Bool.eqb]. rewrite P. cbn. f_equal. lia.
  - cbn [app parse_decimal]. rewrite (parse_digits_head 0 d ds _ P), P. f_equal. lia.
Qed.

Section Decimal.
Context {Device : Type} {SK : Sink Device} {FF : FloatFormat} {UB : Unbounded Device}.
Local Abbreviation State := (PrintfState Device).

(** A directive [%d] or [%i] without flags, width or precision prints the
    sign and the digits. *)
Lemma plain_decimal_field (st : State) (c : Char) (n : Z) digits :
  c = "d"%char \/ c = "i"%char ->
  LONG_MIN <= n <= LONG_MAX ->
  width_ st = 0 -> prec_ st = SIZE_MAX -> flags_ st = 0 ->
  field st c (to_ulong n) digits = (if n <? 0 then ["-"%char] else []) ++ digits.
Proof.
  intros Hc Hn W P F.
  unfold field, printable, precision_zeros, base_prefix, sign_text, alternate,
    AlternateForm, ShowSignAlways, Blank, has. cbv zeta.
  rewrite W, P, F, (to_long_to_ulong n Hn).
  match goal with |- context [len ?l <? 0] =>
    pose proof (len_nonneg l); destruct (Z.ltb_spec (len l) 0); [lia|] end.
  destruct Hc as [-> | ->]; cbn; destruct (n <? 0); reflexivity.
Qed.

(** C3: the format [%d] (or [%i]) fed a [long]: for every [n] from
    [LONG_MIN] to [LONG_MAX] the construction and the call return, and what
    they send to the device is a text that reads back as [n]; the result is
    its length. *)
Theorem signed_decimal_round_trip (dev : Device) (m : Memory) (c : Char) (n : Z) :
  c = "d"%char \/ c = "i"%char ->
  LONG_MIN <= n <= LONG_MAX ->
  exists st text st',
    construct dev ["%"%char; c] = Ok st /\
    call st m (a_long n) = Ok (st', m) /\
    emitted (device_ st') = emitted dev ++ text /\
    to_int st' = len text /\
    parse_decimal text = Some n.
Proof.
  intros Hc Hn.
  assert (Cp : c <> "%"%char) by (destruct Hc as [-> | ->]; discriminate).
  assert (Lc : leader c = false) by (destruct Hc as [-> | ->]; reflexivity).
  assert (Nc : passes c = true) by (destruct Hc as [-> | ->]; reflexivity).
  (* the constructor *)
  destruct (Advance_literal (mkState dev [] (["%"%char; c] ++ [NUL]) 0 0 0 0)
              [] [] ("%"%char :: c :: [NUL]) ["%"%char] (c :: [NUL])
              literal_end (stops_at_directive c [NUL] Cp) eq_refl)
    as (d0 & E0 & M0); [cbn; lia | cbn; unfold INT_MAX; lia |].
  cbn [opened seek put set_result set_device device_ behind_ format_ result_ rev app] in E0.
  change (len (@nil Char)) with 0 in E0. cbn [Z.add] in E0.
  cbn [device_] in M0. rewrite app_nil_r in M0.
  set (st := mkState d0 ["%"%char] [c; NUL] 0 SIZE_MAX 0 0) in E0.
  (* the call *)
  destruct (rendered_decimal c n Hc Hn) as (digits & R & A & B & P).
  set (text := (if n <? 0 then ["-"%char] else []) ++ digits).
  assert (Fd : field st c (to_ulong n) digits = text)
    by (apply plain_decimal_field; auto).
  assert (Lt : len text <= 17).
  { unfold text. rewrite len_app. destruct (n <? 0); [rewrite len_cons|];
      change (len (@nil Char)) with 0; lia. }
  destruct (FormatWithCurrentFlags_field st c (to_ulong n) digits eq_refl Nc R)
    as (st2 & E2 & M2 & R2 & B2 & F2).
  { cbn. unfold WORD. lia. } { cbn. lia. } { rewrite Fd. cbn. unfold INT_MAX. lia. }
  rewrite Fd in M2, R2. cbn [device_ result_ behind_ format_ st] in M2, R2, B2, F2.
  pose proof (len_nonneg text).
  destruct (Next_literal st2 c [] [] [NUL] [] [NUL] literal_end (stops_at_end []) F2)
    as (d3 & E3 & M3); [lia | change (len (@nil Char)) with 0; unfold INT_MAX; lia |].
  exists st, text. eexists. split; [exact E0|]. split; [|split; [|split]].
  - rewrite (call_integral st m (a_long n) (to_ulong n) eq_refl).
    rewrite (call_unsigned_long_leaders st st c (to_ulong n));
      [|cbn; lia|apply (ReadLeaders_none st c eq_refl Lc)|reflexivity|intros ->; discriminate].
    replace (short_value st c (to_ulong n)) with (to_ulong n) by reflexivity.
    rewrite E2, E3. reflexivity.
  - cbn [device_ put set_result set_device]. rewrite M3, app_nil_r, M2, M0. reflexivity.
  - unfold to_int. cbn [result_ put set_result set_device seek opened].
    change (len (@nil Char)) with 0. rewrite R2. lia.
  - apply parse_signed; assumption.
Qed.

End Decimal.

(** ** The result counts what was emitted *)

Section Counting.
Context {Device : Type} {SK : Sink Device} {FF : FloatFormat}.
Local Abbreviation State := (PrintfState Device).
Variable base : Z.

Lemma counted_same_output (st st' : State) :
  same_output st st' -> counted base st -> counted base st'.
Proof. intros [A B]. unfold counted. rewrite A, B. exact (fun H => H). Qed.

Lemma counted_failed (st : State) : counted base (set_result st (-1)).
Proof. left. reflexivity. Qed.

(** A [Write] that changes anything adds the length of its range to the
    result and the range to the device. *)
Lemma Write_Ok (st st' : State) l :
  Write st l = Ok st' ->
  (result_ st < 0 /\ st' = st) \/
  (0 <= result_ st /\ result_ st' = result_ st + len l /\
   emitted (device_ st') = emitted (device_ st) ++ l).
Proof.
  unfold Write. intros H.
  destruct (Z.ltb_spec (result_ st) 0) as [L|L].
  - injection H as <-. left. auto.
  - bind_inv H. destruct (result_ st + len l <=? INT_MAX); [|discriminate].
    injection H as <-. right. cbn. split; [exact L|]. split; [reflexivity|].
    apply write_emits. exact E.
Qed.

Lemma Write_counted (st st' : State) l :
  Write st l = Ok st' -> counted base st -> counted base st'.
Proof.
  intros H C. destruct (Write_Ok _ _ _ H) as [[_ ->]|(L & R & M)]; [exact C|].
  right. destruct C as [C|C]; [lia|]. rewrite R, M, len_app. lia.
Qed.

Lemma Fill_loop_counted c n : forall (st st' : State),
  Fill_loop st c n = Ok st' -> counted base st -> counted base st'.
Proof.
  induction n as [|n IH]; intros st st' H C; cbn [Fill_loop] in H.
  - injection H as <-. exact C.
  - bind_inv H. eapply IH; [exact H|]. eapply Write_counted; eassumption.
Qed.

Lemma Fill_counted (st st' : State) c n :
  Fill st c n = Ok st' -> counted base st -> counted base st'.
Proof. apply Fill_loop_counted. Qed.

Lemma seek_counted (st : State) b a : counted base st -> counted base (seek st b a).
Proof. exact (fun H => H). Qed.

Lemma Advance_loop_counted n : forall ahead (st st' : State) pending behind,
  (List.length ahead <= n)%nat ->
  Advance_loop st pending behind ahead = Ok st' -> counted base st -> counted base st'.
Proof.
  induction n as [|n IH]; intros ahead st st' pending behind L H C.
  - destruct ahead; [discriminate|simpl in L; lia].
  - destruct ahead as [|c rest]; [discriminate|]. cbn [Advance_loop] in H.
    destruct (Ascii.eqb c "%").
    + destruct rest as [|c1 rest1]; [discriminate|].
      destruct (negb (Ascii.eqb c1 "%")).
      * bind_inv H. injection H as <-. apply seek_counted.
        eapply Write_counted; eassumption.
      * bind_inv H. eapply (IH rest1); [simpl in L; lia|exact H|].
        eapply Write_counted; eassumption.
    + destruct (Ascii.eqb c NUL).
      * bind_inv H. injection H as <-. apply seek_counted.
        eapply Write_counted; eassumption.
      * eapply (IH rest); [simpl in L; lia|exact H|exact C].
Qed.

Lemma Advance_counted (st st' : State) :
  Advance st = Ok st' -> counted base st -> counted base st'.
Proof.
  unfold Advance, ResetAll. intros H C.
  destruct (result_ st =? EOF); [discriminate|]. cbn [bind] in H.
  eapply Advance_loop_counted; [apply Nat.le_refl|exact H|exact C].
Qed.

Lemma Next_counted (st st' : State) :
  Next st = Ok st' -> counted base st -> counted base st'.
Proof.
  unfold Next. intros H C. destruct (format_ st) eqn:F; [discriminate|].
  eapply Advance_counted; [exact H|].
  eapply counted_same_output; [apply step_output|exact C].
Qed.

Lemma print_counted_counted (st st' : State) pl sc cb fc cz digits pr :
  print_counted st pl sc cb fc cz digits pr = Ok st' ->
  counted base st -> counted base st'.
Proof.
  unfold print_counted. intros H C.
  bind_inv H. apply Fill_counted in E; [|exact C].
  bind_inv H. assert (C1 : counted base x0).
  { destruct (negb _); [eapply Write_counted; eassumption|injection E0 as <-; exact E]. }
  bind_inv H. assert (C2 : counted base x1).
  { destruct (0 <? cb); [eapply Fill_counted; eassumption|injection E1 as <-; exact C1]. }
  bind_inv H. assert (C3 : counted base x2).
  { destruct (cb =? 2); [eapply Fill_counted; eassumption|injection E2 as <-; exact C2]. }
  bind_inv H. apply Fill_counted in E3; [|exact C3].
  bind_inv H. apply Write_counted in E4; [|exact E3].
  bind_inv H. apply Fill_counted in E5; [|exact E4].
  eapply Next_counted; eassumption.
Qed.

(** [FormatWithCurrentFlags] either rejects the conversion character or
    goes through the writes of [print_counted]. *)
Lemma FormatWithCurrentFlags_Ok (st st' : State) i :
  FormatWithCurrentFlags st i = Ok st' ->
  exists stx, same_output st stx /\
    (st' = set_result stx (-1) \/
     exists pl sc cb fc cz digits pr,
       print_counted stx pl sc cb fc cz digits pr = Ok st').
Proof.
  unfold FormatWithCurrentFlags. intros H. bind_inv H. rename x into c0.
  assert (body : forall fc (stx : State) sg,
    same_output st stx ->
    (if negb (strchr "cdiuoxX" fc) then Ok (set_result stx (-1))
     else
       let base :=
         if Ascii.eqb fc "c" then 10
         else if Ascii.eqb fc "o" then 8
         else if Ascii.eqb fc "x" || Ascii.eqb fc "X" then 16
         else 10 in
       '(st, digits, signChar) <-
         (if Ascii.eqb fc "c" then
            Ok (ResetFillZeros stx, [char_of i], NUL)
          else
            let negative := sg && (to_long i <? 0) in
            digits <-
              (if sg
               then RenderWithoutSign_long (bufSize - 1) (to_long i) base (Ascii.eqb fc "X")
               else RenderWithoutSign_ulong (bufSize - 1) i base (Ascii.eqb fc "X") []) ;;
            let signChar :=
              if sg then
                if negative then "-"%char
                else if ShowSignAlways stx then "+"%char
                else if Blank stx then " "%char
                else NUL
              else NUL in
            Ok (stx, digits, signChar)) ;;
       let countDigits := len digits in
       let countZeros :=
         if negb (prec_ st =? SIZE_MAX) && (countDigits <? prec_ st)
            && negb (Ascii.eqb fc "c")
         then prec_ st - countDigits else 0 in
       let countBase :=
         if negb (base =? 10) && AlternateForm st && negb (i =? 0)
         then (if base =? 16 then 2 else if 0 <? countZeros then 0 else 1)
         else 0 in
       let countSign := if negb (Ascii.eqb signChar NUL) then 1 else 0 in
       let totalPrintable := (countDigits + countZeros + countBase + countSign) mod WORD in
       let '(countPadLeft, countPadRight) :=
         if totalPrintable <? width_ st then
           if LeftJustify st then (0, width_ st - totalPrintable)
           else (width_ st - totalPrintable, 0)
         else (0, 0) in
       let '(countZeros, countPadLeft) :=
         if FillZeros st && (prec_ st =? SIZE_MAX) then (countPadLeft, 0)
         else (countZeros, countPadLeft) in
       print_counted st countPadLeft signChar countBase fc countZeros digits countPadRight)
    = Ok st' ->
    exists stx, same_output st stx /\
      (st' = set_result stx (-1) \/
       exists pl sc cb fc cz digits pr,
         print_counted stx pl sc cb fc cz digits pr = Ok st')).
  { intros fc stx sg So Hb.
    destruct (negb (strchr "cdiuoxX" fc)).
    { injection Hb as <-. exists stx. auto. }
    cbv zeta in Hb. bind_inv Hb. destruct x as [[sty digits] signChar].
    assert (So' : same_output st sty).
    { destruct (Ascii.eqb fc "c").
      - injection E0 as <- _ _. exact So.
      - bind_inv E0. injection E0 as <- _ _. exact So. }
    exists sty. split; [exact So'|]. right.
    destruct (_ <? width_ sty); [destruct (LeftJustify sty)|];
      destruct (FillZeros sty && _); eauto 12. }
  destruct (Ascii.eqb c0 "p").
  - apply (body "x"%char (SetAlternateForm st) true); [split; reflexivity|exact H].
  - apply (body c0 st (Ascii.eqb c0 "d" || Ascii.eqb c0 "i")); [apply same_output_refl|exact H].
Qed.

Lemma FormatWithCurrentFlags_counted (st st' : State) i :
  FormatWithCurrentFlags st i = Ok st' -> counted base st -> counted base st'.
Proof.
  intros H C. destruct (FormatWithCurrentFlags_Ok _ _ _ H) as (stx & So & [->|K]).
  - apply counted_failed.
  - destruct K as (pl & sc & cb & fc & cz & digits & pr & K).
    eapply print_counted_counted; [exact K|].
    eapply counted_same_output; eassumption.
Qed.


Lemma call_unsigned_long_counted (st st' : State) i :
  call_unsigned_long st i = Ok st' -> counted base st -> counted base st'.
Proof.
  unfold call_unsigned_long. intros H C.
  destruct (result_ st =? -1); [injection H as <-; exact C|].
  bind_inv H. apply ReadFlags_output in E.
  bind_inv H. destruct (Ascii.eqb x0 "*").
  { injection H as <-. eapply counted_same_output; [|exact C].
    eapply same_output_trans; [exact E|].
    eapply same_output_trans; [|apply step_output]. split; reflexivity. }
  bind_inv H. apply ReadWidth_output in E1.
  bind_inv H. bind_inv H.
  assert (S2 : same_output st x1) by (eapply same_output_trans; eassumption).
  assert (S3 : match x3 with inl s => same_output st s | inr s => same_output st s end).
  { destruct (Ascii.eqb x2 ".").
    - bind_inv E3. destruct (Ascii.eqb x4 "*").
      + injection E3 as <-. eapply same_output_trans; [exact S2|].
        eapply same_output_trans; [|apply step_output].
        eapply same_output_trans; [|apply step_output]. split; reflexivity.
      + bind_inv E3. injection E3 as <-. apply ReadPrecision_output in E5.
        eapply same_output_trans; eassumption.
    - injection E3 as <-. exact S2. }
  destruct x3 as [s|s].
  - injection H as <-. eapply counted_same_output; eassumption.
  - bind_inv H. apply ReadModifiers_output in E4. bind_inv H.
    eapply FormatWithCurrentFlags_counted; [exact H|].
    eapply counted_same_output; [|exact C].
    eapply same_output_trans; eassumption.
Qed.

Lemma PrintFloatingPoint_counted (st st' : State) snp :
  PrintFloatingPoint st snp = Ok st' -> counted base st -> counted base st'.
Proof.
  unfold PrintFloatingPoint. intros H C.
  destruct (behind_ st) as [|b bs]; [discriminate|].
  destruct (negb (Ascii.eqb b "%")); [discriminate|].
  bind_inv H. apply ReadLeaders_output in E. bind_inv H.
  destruct (negb (strchr "eEfgG" x0)); [injection H as <-; apply counted_failed|].
  cbv zeta in H.
  destruct (_ <=? _)%nat; [injection H as <-; apply counted_failed|].
  destruct (snp _) as [stored resultBuf].
  destruct (stored <? 0); [injection H as <-; apply counted_failed|].
  bind_inv H. eapply Advance_counted; [exact H|].
  eapply Write_counted; [exact E1|].
  eapply counted_same_output; [apply step_output|].
  eapply counted_same_output; eassumption.
Qed.

Lemma StoreCountHelper_counted (st st' : State) m m' T pi :
  StoreCountHelper st m T pi = Ok (st', m') -> counted base st -> counted base st'.
Proof.
  unfold StoreCountHelper. intros H C.
  destruct (result_ st =? -1); [injection H as <- _; exact C|].
  bind_inv H. apply ReadLeaders_output in E. bind_inv H.
  assert (C1 : counted base x) by (eapply counted_same_output; eassumption).
  destruct (Ascii.eqb x0 "p").
  { bind_inv H. injection H as <- _. eapply FormatWithCurrentFlags_counted; eassumption. }
  destruct (negb (Ascii.eqb x0 "n")); [injection H as <- _; apply counted_failed|].
  destruct (pi =? 0); [discriminate|].
  bind_inv H. injection H as <- _. eapply Next_counted; eassumption.
Qed.

Lemma call_c_string_counted (st st' : State) s :
  call_c_string st s = Ok st' -> counted base st -> counted base st'.
Proof.
  unfold call_c_string. intros H C.
  destruct (result_ st =? -1); [injection H as <-; exact C|].
  bind_inv H. apply ReadLeaders_output in E. bind_inv H.
  assert (C1 : counted base x) by (eapply counted_same_output; eassumption).
  destruct (Ascii.eqb x0 "p"); [eapply FormatWithCurrentFlags_counted; eassumption|].
  destruct (negb (Ascii.eqb x0 "s")); [injection H as <-; apply counted_failed|].
  cbv zeta in H. bind_inv H.
  eapply Next_counted; [exact H|].
  destruct (_ <? width_ x); [destruct (LeftJustify x)|].
  - bind_inv E1. eapply Fill_counted; [exact E1|]. eapply Write_counted; eassumption.
  - bind_inv E1. eapply Write_counted; [exact E1|]. eapply Fill_counted; eassumption.
  - eapply Write_counted; eassumption.
Qed.

Lemma keep_Ok (m m' : Memory) (o : outcome State) (st' : State) :
  keep m o = Ok (st', m') -> o = Ok st' /\ m' = m.
Proof. destruct o; cbn; intros H; try discriminate. injection H as <- <-. auto. Qed.

Lemma call_counted (st st' : State) m m' a :
  call st m a = Ok (st', m') -> counted base st -> counted base st'.
Proof.
  destruct a; cbn [call]; intros H C;
    try (apply keep_Ok in H; destruct H as [H _]);
    unfold forward, call_void_ptr, call_double, call_long_double in H;
    eauto using call_unsigned_long_counted, StoreCountHelper_counted, call_c_string_counted.
  - destruct (result_ st =? -1); [injection H as <-; exact C|].
    eapply PrintFloatingPoint_counted; eassumption.
  - destruct (result_ st =? -1); [injection H as <-; exact C|].
    eapply PrintFloatingPoint_counted; eassumption.
Qed.

Lemma feed_counted args : forall (st st' : State) m m',
  feed st m args = Ok (st', m') -> counted base st -> counted base st'.
Proof.
  induction args as [|a args IH]; intros st st' m m' H C; cbn [feed] in H.
  - injection H as <- _. exact C.
  - bind_inv H. destruct x as [st1 m1]. eapply IH; [exact H|].
    eapply call_counted; eassumption.
Qed.

End Counting.

Section Result.
Context {Device : Type} {SK : Sink Device} {FF : FloatFormat}.
Local Abbreviation State := (PrintfState Device).

(** C9: after the construction and after every chain of calls that
    returns, the result is the error sentinel or the number of characters
    the device has received since the construction.  A [Write] that acts
    adds exactly the length of its range; one on a negative result changes
    nothing. *)
Theorem result_counts_emitted
  (dev : Device) (format : list Char) (m : Memory) (args : list Arg)
  (st st' : State) (m' : Memory) :
  construct dev format = Ok st ->
  feed st m args = Ok (st', m') ->
  (to_int st' = -1 \/ to_int st' = len (emitted (device_ st')) - len (emitted dev)) /\
  (forall (s s' : State) l,
     Write s l = Ok s' ->
     (result_ s < 0 /\ s' = s) \/
     (0 <= result_ s /\ result_ s' = result_ s + len l /\
      emitted (device_ s') = emitted (device_ s) ++ l)).
Proof.
  intros Hc Hf. split; [|apply Write_Ok].
  apply (feed_counted (len (emitted dev)) args st st' m m' Hf).
  unfold construct in Hc.
  apply (Advance_counted (len (emitted dev)) _ _ Hc).
  right. cbn. lia.
Qed.

End Result.

(** ** The most negative value *)

(** For [LONG_MIN] the renderer is given [static_cast<unsigned long>(n + 1)],
    which is [2^31 + 1], and lowers its last digit by one. *)
Lemma most_negative_rendering :
  to_ulong (LONG_MIN + 1) = 2147483649 /\
  RenderWithoutSign_ulong (bufSize - 1) (to_ulong (LONG_MIN + 1)) 10 false []
  = Ok (lit "2147483649") /\
  RenderWithoutSign_long (bufSize - 1) LONG_MIN 10 false = Ok (lit "2147483648") /\
  RenderWithoutSign_long (bufSize - 1) LONG_MIN 16 false = Ok (lit "80000000").
Proof. repeat split; reflexivity. Qed.

(** ** Every terminated format can be read *)

Lemma ReadFlags_loop_returns ahead : forall flags behind,
  In NUL ahead ->
  exists f b a, ReadFlags_loop flags behind ahead = Ok (f, b, a) /\ In NUL a.
Proof.
  induction ahead as [|c rest IH]; intros flags behind H; [contradiction|].
  cbn [ReadFlags_loop]. destruct (flag_of c) eqn:Fl.
  - apply IH. destruct H as [->|H]; [vm_compute in Fl; discriminate|exact H].
  - eauto.
Qed.

Lemma ParseDecimalUInt_loop_returns ahead : forall r behind,
  In NUL ahead ->
  exists r' b a, ParseDecimalUInt_loop r behind ahead = Ok (r', b, a) /\ In NUL a.
Proof.
  induction ahead as [|c rest IH]; intros r behind H; [contradiction|].
  cbn [ParseDecimalUInt_loop]. destruct (isdigit c) eqn:D.
  - apply IH. destruct H as [->|H]; [vm_compute in D; discriminate|exact H].
  - eauto.
Qed.

Section Returns.
Context {Device : Type} {SK : Sink Device} {FF : FloatFormat}.
Local Abbreviation State := (PrintfState Device).

Lemma peek_returns (st : State) : In NUL (format_ st) -> exists c, peek st = Ok c.
Proof. unfold peek. destruct (format_ st); [contradiction|eauto]. Qed.

Lemma ReadFlags_returns (st : State) :
  In NUL (format_ st) -> exists st1, ReadFlags st = Ok st1 /\ In NUL (format_ st1).
Proof.
  intros H. unfold ReadFlags.
  destruct (ReadFlags_loop_returns (format_ st) (flags_ st) (behind_ st) H)
    as (f & b & a & E & I).
  rewrite E. cbn [bind]. eauto.
Qed.

Lemma ParseDecimalUInt_returns (st : State) d :
  In NUL (format_ st) ->
  exists st1 r, ParseDecimalUInt st d = Ok (st1, r) /\ In NUL (format_ st1).
Proof.
  intros H. unfold ParseDecimalUInt. destruct (peek_returns st H) as [c ->]. cbn [bind].
  destruct (negb (isdigit c)); [eauto|].
  destruct (ParseDecimalUInt_loop_returns (format_ st) 0 (behind_ st) H)
    as (r & b & a & E & I).
  rewrite E. cbn [bind]. eauto.
Qed.

Lemma ReadWidth_returns (st : State) :
  In NUL (format_ st) -> exists st1, ReadWidth st = Ok st1 /\ In NUL (format_ st1).
Proof.
  intros H. unfold ReadWidth.
  destruct (ParseDecimalUInt_returns st (width_ st) H) as (st1 & r & E & I).
  rewrite E. cbn [bind]. eauto.
Qed.

Lemma step_terminated (st : State) c :
  peek st = Ok c -> c <> NUL -> In NUL (format_ st) -> In NUL (format_ (step st)).
Proof.
  unfold peek, step. destruct (format_ st) as [|c' rest]; [discriminate|].
  intros E N H. injection E as ->. destruct H as [->|H]; [contradiction|exact H].
Qed.

Lemma ReadPrecision_returns (st : State) :
  peek st = Ok "."%char -> In NUL (format_ st) ->
  exists st1, ReadPrecision st = Ok st1 /\ In NUL (format_ st1).
Proof.
  intros P H. unfold ReadPrecision. rewrite P. cbn [bind Ascii.eqb Bool.eqb negb].
  destruct (ParseDecimalUInt_returns (step st) (prec_ st)) as (st1 & r & E & I).
  { apply (step_terminated st "."%char P); [discriminate|exact H]. }
  rewrite E. cbn [bind]. eauto.
Qed.

Lemma ReadModifiers_returns (st : State) :
  In NUL (format_ st) -> exists st1, ReadModifiers st = Ok st1 /\ In NUL (format_ st1).
Proof.
  intros H. unfold ReadModifiers. destruct (peek_returns st H) as [c P]. rewrite P. cbn [bind].
  destruct (Ascii.eqb_spec c "h") as [->|].
  { eexists. split; [reflexivity|].
    apply (step_terminated (SetForceShort st) "h"%char P); [discriminate|exact H]. }
  destruct (Ascii.eqb_spec c "l") as [->|].
  { eexists. split; [reflexivity|].
    apply (step_terminated st "l"%char P); [discriminate|exact H]. }
  eauto.
Qed.

(** On a format that has its terminator [ReadLeaders] returns, with the
    cursor on a character of the format. *)
Lemma ReadLeaders_returns (st : State) :
  In NUL (format_ st) ->
  exists st1 c, ReadLeaders st = Ok st1 /\ peek st1 = Ok c /\ In NUL (format_ st1).
Proof.
  intros H. unfold ReadLeaders.
  destruct (ReadFlags_returns st H) as (s1 & -> & H1). cbn [bind].
  destruct (ReadWidth_returns s1 H1) as (s2 & -> & H2). cbn [bind].
  destruct (peek_returns s2 H2) as [c P]. rewrite P. cbn [bind].
  assert (exists s3, (if Ascii.eqb c "." then ReadPrecision s2 else Ok s2) = Ok s3
                     /\ In NUL (format_ s3)) as (s3 & -> & H3).
  { destruct (Ascii.eqb_spec c ".") as [->|]; [apply ReadPrecision_returns; assumption|eauto]. }
  cbn [bind].
  destruct (ReadModifiers_returns s3 H3) as (s4 & E & H4).
  destruct (peek_returns s4 H4) as [c4 P4]. eauto.
Qed.

End Returns.

(** Every array with a terminator begins with literal text up to a stop. *)
Lemma literal_split n : forall ahead,
  (List.length ahead <= n)%nat ->
  In NUL ahead ->
  exists s o tail skipped ahead',
    ahead = s ++ tail /\ literal s o /\ stops tail skipped ahead'.
Proof.
  induction n as [|n IH]; intros ahead L H.
  - destruct ahead; [contradiction|simpl in L; lia].
  - destruct ahead as [|c rest]; [contradiction|]. simpl in L.
    destruct (Ascii.eqb_spec c NUL) as [->|N].
    { exists [], [], (NUL :: rest), [], (NUL :: rest).
      split; [reflexivity|]. split; constructor. }
    assert (Hr : In NUL rest) by (destruct H as [->|H]; [contradiction|exact H]).
    destruct (Ascii.eqb_spec c "%") as [->|P].
    + destruct rest as [|c1 rest1]; [contradiction|].
      destruct (Ascii.eqb_spec c1 "%") as [->|P1].
      * destruct (IH rest1) as (s & o & tail & skipped & ahead' & -> & Hl & Hs).
        { simpl in L. lia. }
        { destruct Hr as [E|Hr]; [discriminate|exact Hr]. }
        exists ("%"%char :: "%"%char :: s), ("%"%char :: o), tail, skipped, ahead'.
        split; [reflexivity|]. split; [constructor; exact Hl|exact Hs].
      * exists [], [], ("%"%char :: c1 :: rest1), ["%"%char], (c1 :: rest1).
        split; [reflexivity|]. split; constructor. exact P1.
    + destruct (IH rest) as (s & o & tail & skipped & ahead' & -> & Hl & Hs); [lia|exact Hr|].
      exists (c :: s), (c :: o), tail, skipped, ahead'.
      split; [reflexivity|]. split; [constructor; assumption|exact Hs].
Qed.

Section AdvanceReturns.
Context {Device : Type} {SK : Sink Device} {UB : Unbounded Device}.
Local Abbreviation State := (PrintfState Device).

Lemma literal_length s o : literal s o -> len o <= len s.
Proof. induction 1; rewrite ?len_cons in *; lia. Qed.

(** On an unbounded sink [Advance] returns for every format that has its
    terminator, as long as the count has room for the text. *)
Lemma Advance_returns (st : State) :
  In NUL (format_ st) ->
  0 <= result_ st ->
  result_ st + len (format_ st) <= INT_MAX ->
  exists st', Advance st = Ok st'.
Proof.
  intros H H0 H1.
  destruct (literal_split (List.length (format_ st)) (format_ st) (Nat.le_refl _) H)
    as (s & o & tail & skipped & ahead' & E & Hl & Hs).
  destruct (Advance_literal st s o tail skipped ahead' Hl Hs E H0) as (d & A & _).
  { pose proof (literal_length s o Hl). rewrite E, len_app in H1.
    pose proof (len_nonneg tail). lia. }
  eauto.
Qed.

End AdvanceReturns.

(** ** An integer on a directive without conversion character *)

Section Incomplete.
Context {Device : Type} {SK : Sink Device} {FF : FloatFormat} {UB : Unbounded Device}.
Local Abbreviation State := (PrintfState Device).

(** X14: with the cursor on the terminator an argument of integer kind is
    formatted as an unsigned decimal: the call sends its field to the
    device, leaves a result that is not the error sentinel, and calls
    [Next] on the terminator. *)
Lemma incomplete_directive_prints_integer
  (st st1 : State) (m : Memory) (a : Arg) (i : Z) :
  0 <= result_ st ->
  ReadLeaders st = Ok st1 ->
  peek st1 = Ok NUL ->
  integral a = Some i ->
  0 <= i < WORD ->
  width_ st1 < WORD ->
  exists digits,
    RenderWithoutSign_ulong (bufSize - 1) i 10 false [] = Ok digits /\
    (result_ st + len (field st1 NUL i digits) <= INT_MAX ->
     exists st2,
       call st m a = keep m (Next st2) /\
       emits st1 (field st1 NUL i digits) st2 /\
       0 <= result_ st2).
Proof.
  intros H0 HL P I Hi Hw.
  destruct (rendered_returns NUL i Hi) as (digits & R & _ & _).
  exists digits. split; [exact R|]. intros H1.
  destruct (ReadLeaders_output _ _ HL) as [Dev Res].
  destruct (FormatWithCurrentFlags_field st1 NUL i digits P eq_refl R Hw)
    as (st2 & E & M); [rewrite Res; exact H0|rewrite Res; exact H1|].
  exists st2. split; [|split; [exact M|]].
  - rewrite (call_integral st m a i I).
    rewrite (call_unsigned_long_leaders st st1 NUL i); [|lia|exact HL|exact P|discriminate].
    replace (short_value st1 NUL i) with i; [rewrite E; reflexivity|].
    unfold short_value. cbn [Ascii.eqb Bool.eqb orb NUL Ascii.zero].
    rewrite andb_false_r. reflexivity.
  - destruct M as (_ & R2 & _). rewrite R2, Res.
    pose proof (len_nonneg (field st1 NUL i digits)). lia.
Qed.

(** X5: [Next] on the last cell of the format array reads past its end:
    the step over the terminator leaves the cursor one past the array, where
    [Advance] reads [*format_]. *)
Lemma Next_over_the_end (st : State) c :
  format_ st = [c] -> result_ st <> EOF -> Next st = Undefined.
Proof.
  intros F R. unfold Next, step. rewrite F. unfold Advance, ResetAll.
  cbn [result_ seek]. destruct (Z.eqb_spec (result_ st) EOF); [contradiction|reflexivity].
Qed.

End Incomplete.

(** ** The character conversion *)

Section Character.
Context {Device : Type} {SK : Sink Device} {FF : FloatFormat} {UB : Unbounded Device}.
Local Abbreviation State := (PrintfState Device).

Lemma ResetFillZeros_flags (st : State) :
  FillZeros (ResetFillZeros st) = false /\
  LeftJustify (ResetFillZeros st) = LeftJustify st.
Proof.
  unfold FillZeros, LeftJustify, has, ResetFillZeros. cbn [flags_ set_flags].
  rewrite <- !Z.land_assoc.
  change (Z.land (WORD - 1 - fillZeros) fillZeros) with 0.
  change (Z.land (WORD - 1 - fillZeros) leftJustify) with leftJustify.
  rewrite Z.land_0_r. split; reflexivity.
Qed.

(** [%c] sends one character in a field that is brought up to the width
    with blanks only: the zero-fill flag is dropped for this conversion. *)
Lemma FormatWithCurrentFlags_character (st : State) (i : Z) :
  peek st = Ok "c"%char ->
  0 <= result_ st ->
  result_ st + len (string_field st [char_of i]) <= INT_MAX ->
  exists st2, FormatWithCurrentFlags st i = Next st2 /\
              emits st (string_field st [char_of i]) st2.
Proof.
  intros P H0 H1. destruct (ResetFillZeros_flags st) as [FZ LJ].
  assert (shape : forall pl pr,
    string_field st [char_of i]
    = repeat " "%char (Z.to_nat pl) ++ [char_of i] ++ repeat " "%char (Z.to_nat pr) ->
    exists st2,
      print_counted (ResetFillZeros st) pl NUL 0 "c"%char 0 [char_of i] pr = Next st2 /\
      emits st (string_field st [char_of i]) st2).
  { intros pl pr E.
    assert (CT : counted_text pl NUL 0 "c"%char 0 [char_of i] pr
                 = repeat " "%char (Z.to_nat pl) ++ [char_of i]
                   ++ repeat " "%char (Z.to_nat pr)) by reflexivity.
    destruct (print_counted_hands_over pl NUL 0 "c"%char 0 [char_of i] pr (ResetFillZeros st) H0)
      as (st2 & E2 & M2).
    { rewrite CT, <- E. exact H1. }
    exists st2. split; [exact E2|]. rewrite CT, <- E in M2. exact M2. }
  unfold FormatWithCurrentFlags. rewrite P.
  cbn [bind Ascii.eqb Bool.eqb orb andb negb strchr existsb lit list_ascii_of_string app].
  cbv zeta. rewrite FZ, !andb_false_r.
  cbn [andb Z.eqb Pos.eqb negb NUL Ascii.zero Ascii.eqb Bool.eqb].
  change ((len [char_of i] + 0 + 0 + 0) mod WORD) with 1.
  change (width_ (ResetFillZeros st)) with (width_ st). rewrite LJ.
  unfold string_field in *. cbv zeta in *. change (len [char_of i]) with 1 in *.
  destruct (1 <? width_ st); [destruct (LeftJustify st)|]; apply shape; reflexivity.
Qed.

End Character.

Example character_ignores_zero_fill : printed "%03c|%-3c|" [a_char 65; a_char 66] = Ok ("  A|B  |"%string, 8).
Proof. reflexivity. Qed.

(** ** The text of a directive *)

Lemma ReadFlags_loop_text fl : forall flags behind c rest,
  forallb is_flag fl = true ->
  is_flag c = false ->
  ReadFlags_loop flags behind (fl ++ c :: rest)
  = Ok (flag_bits fl flags, rev fl ++ behind, c :: rest).
Proof.
  induction fl as [|a fl IH]; intros flags behind c rest Hf Hc.
  - cbn [app ReadFlags_loop]. unfold is_flag in Hc. destruct (flag_of c); [discriminate|reflexivity].
  - cbn [forallb] in Hf. apply andb_prop in Hf. destruct Hf as [Ha Hf].
    cbn [app ReadFlags_loop rev]. unfold flag_bits. cbn [fold_left].
    unfold is_flag in Ha. destruct (flag_of a) as [bit|]; [|discriminate].
    rewrite (IH (Z.lor flags bit) (a :: behind) c rest Hf Hc), <- app_assoc. reflexivity.
Qed.

Lemma ParseDecimalUInt_loop_text ds : forall r behind c rest,
  forallb isdigit ds = true ->
  isdigit c = false ->
  ParseDecimalUInt_loop r behind (ds ++ c :: rest)
  = Ok (fold_left (fun r c => (r * 10 mod WORD + (code c - 48)) mod WORD) ds r,
        rev ds ++ behind, c :: rest).
Proof.
  induction ds as [|a ds IH]; intros r behind c rest Hd Hc.
  - cbn [app ParseDecimalUInt_loop]. rewrite Hc. reflexivity.
  - cbn [forallb] in Hd. apply andb_prop in Hd. destruct Hd as [Ha Hd].
    cbn [app ParseDecimalUInt_loop rev fold_left]. rewrite Ha.
    rewrite (IH _ (a :: behind) c rest Hd Hc), <- app_assoc. reflexivity.
Qed.

Section Text.
Context {Device : Type} {SK : Sink Device} {FF : FloatFormat}.
Local Abbreviation State := (PrintfState Device).

Lemma ParseDecimalUInt_text (st : State) dest ds c rest :
  format_ st = ds ++ c :: rest ->
  forallb isdigit ds = true ->
  isdigit c = false ->
  ParseDecimalUInt st dest
  = Ok (seek st (rev ds ++ behind_ st) (c :: rest),
        match ds with [] => dest | _ :: _ => decimal_value ds end).
Proof.
  intros F Hd Hc. destruct ds as [|d ds].
  - cbn [app] in F. rewrite (ParseDecimalUInt_stops st c dest); [|unfold peek; rewrite F; reflexivity|exact Hc].
    cbn [rev app]. rewrite <- F, seek_same. reflexivity.
  - unfold ParseDecimalUInt, peek. rewrite F. cbn [app bind].
    cbn [forallb] in Hd. apply andb_prop in Hd. destruct Hd as [Ha Hd].
    rewrite Ha. cbn [negb].
    change (d :: ds ++ c :: rest) with ((d :: ds) ++ c :: rest).
    rewrite ParseDecimalUInt_loop_text; [reflexivity| |exact Hc].
    cbn [forallb]. rewrite Ha, Hd. reflexivity.
Qed.

(** [ReadLeaders] on the text of a directive.  The width digits do not
    begin with [0], which is a flag; [c], the conversion character, is no
    leader. *)
Lemma ReadLeaders_text (st : State) fl wd p md c rest :
  format_ st = leaders_text fl wd p md ++ c :: rest ->
  forallb is_flag fl = true ->
  forallb isdigit wd = true ->
  is_flag (hd c wd) = false ->
  forallb isdigit (match p with Some ds => ds | None => [] end) = true ->
  leader c = false ->
  ReadLeaders st = Ok (after_leaders st fl wd p md (c :: rest)).
Proof.
  intros F Hfl Hwd Hw0 Hp Hc.
  unfold leader in Hc. fold (is_flag c) in Hc.
  repeat (apply orb_false_elim in Hc; destruct Hc as [Hc ?]).
  rename Hc into Cf, H2 into Cd, H1 into Cp, H0 into Ch, H into Cl.
  unfold leaders_text in F. rewrite <- !app_assoc in F.
  (* what follows the flags begins with a character that is no flag *)
  set (after_flags := wd ++ precision_text p ++ modifier_text md ++ c :: rest) in *.
  assert (exists x xs, after_flags = x :: xs /\ is_flag x = false) as (x & xs & Ex & Fx).
  { unfold after_flags. destruct wd as [|d wd]; [|cbn in Hw0 |- *; eauto].
    destruct p as [ds|]; [cbn; eauto|].
    destruct md; cbn; eauto. }
  unfold ReadLeaders, ReadFlags. rewrite F, Ex.
  rewrite (ReadFlags_loop_text fl (flags_ st) (behind_ st) x xs Hfl Fx). cbn [bind].
  rewrite <- Ex. unfold after_flags.
  (* the width *)
  set (after_width := precision_text p ++ modifier_text md ++ c :: rest).
  assert (exists y ys, after_width = y :: ys /\ isdigit y = false) as (y & ys & Ey & Dy).
  { unfold after_width. destruct p as [ds|]; [cbn; eauto|]. destruct md; cbn; eauto. }
  unfold ReadWidth.
  rewrite (ParseDecimalUInt_text _ _ wd y ys); [|cbn [format_ seek]; rewrite Ey; reflexivity|exact Hwd|exact Dy].
  cbn [bind]. rewrite <- Ey. unfold after_width.
  (* the precision *)
  set (after_prec := modifier_text md ++ c :: rest).
  assert (exists z zs, after_prec = z :: zs /\ isdigit z = false /\ Ascii.eqb z "." = false)
    as (z & zs & Ez & Dz & Pz).
  { unfold after_prec. destruct md; cbn; eauto. }
  assert (Prec :
    forall s : State, format_ s = precision_text p ++ after_prec ->
      (c0 <- peek s ;;
       s3 <- (if Ascii.eqb c0 "." then ReadPrecision s else Ok s) ;;
       ReadModifiers s3)
      = ReadModifiers
          (SetPrec (seek s (rev (precision_text p) ++ behind_ s) after_prec)
             (match p with Some (d :: ds) => decimal_value (d :: ds) | _ => prec_ s end))).
  { intros s Fs. destruct p as [ds|]; cbn [precision_text app] in Fs.
    - unfold peek at 1. rewrite Fs. cbn [bind Ascii.eqb Bool.eqb].
      unfold ReadPrecision, peek. rewrite Fs. cbn [bind Ascii.eqb Bool.eqb negb].
      rewrite (ParseDecimalUInt_text (step s) (prec_ s) ds z zs);
        [|unfold step; rewrite Fs; cbn [format_ seek]; rewrite Ez; reflexivity|exact Hp|exact Dz].
      cbn [bind]. f_equal. unfold step. rewrite Fs, Ez.
      cbn [seek SetPrec behind_ device_ format_ width_ prec_ flags_ result_ precision_text rev].
      rewrite <- !app_assoc. destruct ds; reflexivity.
    - unfold peek at 1. rewrite Fs, Ez. cbn [bind]. rewrite Pz. cbn [bind precision_text rev app].
      rewrite <- Ez, <- Fs, seek_same, SetPrec_same. reflexivity. }
  rewrite Prec by reflexivity. clear Prec.
  (* the modifier *)
  unfold after_prec, after_leaders, leaders_text.
  destruct md; cbn [modifier_text app]; unfold ReadModifiers, peek; cbn [format_ SetPrec seek bind].
  - rewrite Ch, Cl. f_equal. cbn [SetPrec seek set_flags SetWidth behind_ device_ format_ width_ prec_ flags_ result_].
    rewrite !rev_app_distr, <- !app_assoc, ?app_nil_r. cbn [rev app]. reflexivity.
  - cbn [Ascii.eqb Bool.eqb]. f_equal. unfold step, SetForceShort, raise.
    cbn [SetPrec seek set_flags SetWidth behind_ device_ format_ width_ prec_ flags_ result_].
    rewrite !rev_app_distr, <- !app_assoc. cbn [rev app]. reflexivity.
  - cbn [Ascii.eqb Bool.eqb]. f_equal. unfold step.
    cbn [SetPrec seek set_flags SetWidth behind_ device_ format_ width_ prec_ flags_ result_].
    rewrite !rev_app_distr, <- !app_assoc. cbn [rev app]. reflexivity.
Qed.

End Text.

Example leaders_of_a_directive :
  ReadLeaders (mkState empty (lit "%") (lit "-08.3hd|" ++ [NUL]) 0 SIZE_MAX 0 0)
  = Ok (after_leaders (mkState empty (lit "%") (lit "-08.3hd|" ++ [NUL]) 0 SIZE_MAX 0 0)
          (lit "-0") (lit "8") (Some (lit "3")) modifier_h (lit "d|" ++ [NUL])).
Proof. reflexivity. Qed.

(** ** Closed instances *)

Lemma signed_decimal_round_trip_witness :
  exists st text st',
    construct empty ["%"%char; "d"%char] = Ok st /\
    call (FF := no_float_output) st (fun _ => 0) (a_long LONG_MIN) = Ok (st', fun _ => 0) /\
    emitted (device_ st') = emitted empty ++ text /\
    to_int st' = len text /\
    parse_decimal text = Some LONG_MIN.
Proof.
  refine (signed_decimal_round_trip (SK := string_sink) (FF := no_float_output)
            empty (fun _ => 0) "d"%char LONG_MIN _ _).
  - left. reflexivity.
  - unfold LONG_MIN, LONG_MAX. lia.
Defined.

Lemma width_pads_numeric_field_witness :
  let st : PrintfState std_string :=
    mkState empty (lit "%") (lit "05d" ++ [NUL]) 0 SIZE_MAX 0 0 in
  let st1 : PrintfState std_string :=
    mkState empty (lit "50%") (lit "d" ++ [NUL]) 5 SIZE_MAX fillZeros 0 in
  exists digits,
    rendered "d" (short_value st1 "d" 42) = Ok digits /\
    let v := short_value st1 "d" 42 in
    let content := printable st1 "d" v digits in
    let pad := Z.to_nat (width_ st1 - len content) in
    (len content < width_ st1 ->
     exists st2 out,
       call (FF := no_float_output) st (fun _ => 0) (a_int 42) = keep (fun _ => 0) (Next st2) /\
       emits st1 out st2 /\
       emitted (device_ st2) = emitted (device_ st) ++ out /\
       len out = width_ st1 /\
       out = if LeftJustify st1 then content ++ repeat " "%char pad
             else if FillZeros st1 && (prec_ st1 =? SIZE_MAX)
                  then sign_text st1 "d" v ++ base_prefix st1 "d" v digits
                       ++ repeat "0"%char pad ++ digits
                  else repeat " "%char pad ++ content).
Proof.
  intros st st1.
  refine (width_pads_numeric_field (SK := string_sink) (FF := no_float_output)
            st st1 (fun _ => 0) (a_int 42) 42 "d"%char _ _ _ _ _ _ _ _).
  - simpl. lia.
  - reflexivity.
  - reflexivity.
  - reflexivity.
  - reflexivity.
  - unfold WORD. lia.
  - simpl. unfold WORD. lia.
  - simpl. unfold INT_MAX. lia.
Defined.

Lemma string_directive_field_witness :
  let st : PrintfState std_string :=
    mkState empty (lit "%") (lit ".3s" ++ [NUL]) 0 SIZE_MAX 0 0 in
  let st1 : PrintfState std_string :=
    mkState empty (lit "3.%") (lit "s" ++ [NUL]) 0 3 0 0 in
  let s := mkCString 4096 (lit "hello") in
  let n := Z.min (strlen (chars s)) (prec_ st1) in
  let text := firstn (Z.to_nat n) (c_str (chars s)) in
  exists st2,
    call (FF := no_float_output) st (fun _ => 0) (a_c_string s) = keep (fun _ => 0) (Next st2) /\
    emits st1 (string_field st1 text) st2 /\
    emitted (device_ st2) = emitted (device_ st) ++ string_field st1 text /\
    len text = n /\
    (prec_ st1 = SIZE_MAX -> strlen (chars s) <= SIZE_MAX -> text = c_str (chars s)) /\
    len (string_field st1 text) = Z.max (width_ st1) n.
Proof.
  intros st st1 s.
  refine (string_directive_field (SK := string_sink) (FF := no_float_output)
            st st1 (fun _ => 0) s _ _ _ _ _).
  - simpl. lia.
  - reflexivity.
  - reflexivity.
  - simpl. lia.
  - vm_compute. discriminate.
Defined.

Lemma result_counts_emitted_witness :
  let st : PrintfState std_string :=
    mkState (lit "n=") (lit "%=n") (lit "d;" ++ [NUL]) 0 SIZE_MAX 0 2 in
  let st' : PrintfState std_string :=
    mkState (lit "n=42;") (lit ";d%=n") [NUL] 0 SIZE_MAX 0 5 in
  (to_int st' = -1 \/ to_int st' = len (emitted (device_ st')) - len (emitted empty)) /\
  (forall (s s' : PrintfState std_string) l,
     Write s l = Ok s' ->
     (result_ s < 0 /\ s' = s) \/
     (0 <= result_ s /\ result_ s' = result_ s + len l /\
      emitted (device_ s') = emitted (device_ s) ++ l)).
Proof.
  intros st st'.
  refine (result_counts_emitted (SK := string_sink) (FF := no_float_output)
            empty (lit "n=%d;") (fun _ => 0) [a_int 42] st st' (fun _ => 0) _ _).
  - reflexivity.
  - reflexivity.
Defined.

(** The scenarios of the width, flag and precision rules on a string sink. *)

Example width_right_justifies : printed "%5d" [a_int 42] = Ok ("   42"%string, 5).
Proof. reflexivity. Qed.

Example width_left_justifies : printed "%-5d" [a_int 42] = Ok ("42   "%string, 5).
Proof. reflexivity. Qed.

Example width_zero_fills : printed "%05d" [a_int 42] = Ok ("00042"%string, 5).
Proof. reflexivity. Qed.

Example precision_overrides_zero_fill :
  printed "%06.3d" [a_int (-42)] = Ok ("  -042"%string, 6).
Proof. reflexivity. Qed.

Example alternate_hex : printed "%#x" [a_int 255] = Ok ("0xff"%string, 4).
Proof. reflexivity. Qed.

Example precision_pads_digits : printed "%.3d" [a_int 5] = Ok ("005"%string, 3).
Proof. reflexivity. Qed.

Example precision_cuts_string :
  printed "%.3s" [a_c_string (mkCString 4096 (lit "hello"))] = Ok ("hel"%string, 3).
Proof. reflexivity. Qed.

Example string_for_integer_fails :
  printed "n=%d" [a_c_string (mkCString 4096 (lit "hello"))] = Ok ("n="%string, -1).
Proof. reflexivity. Qed.

Example most_negative_long :
  printed "%d" [a_long LONG_MIN] = Ok ("-2147483648"%string, 11).
Proof. reflexivity. Qed.

Example count_is_stored :
  (st <- SPrintf [] (lit "abc%n") ;;
   '(_, m) <- call (FF := no_float_output) st (fun _ => 0) (a_int_ptr 4096) ;;
   Ok (m 4096)) = Ok 3.
Proof. reflexivity. Qed.

(** ** The bounded sink, continued *)

(** X1: a pair whose count equals the cells left, as [BufPrintf] builds it:
    [write] returns only for a range that fills the cells exactly, and then
    leaves no cell and the count 0. *)
Theorem bounded_write_takes_only_an_exact_fill (s : CharBuffer) (l : list Char) :
  room s = second s ->
  ((exists s', write s l = Ok s') <-> len l = second s) /\
  (forall s', write s l = Ok s' ->
     filled s' = filled s ++ l /\ room s' = 0 /\ second s' = 0).
Proof.
  intros R. cbn [write buffer_sink]. unfold write_buffer. rewrite R.
  destruct (Z.ltb_spec (len l) (second s)) as [A|A];
    [|destruct (Z.ltb_spec (second s) (len l)) as [B|B]].
  - split; [split; [intros [s' E]; discriminate|lia]|intros s' E; discriminate].
  - split; [split; [intros [s' E]; discriminate|lia]|intros s' E; discriminate].
  - assert (E : len l = second s) by lia.
    split; [split; [intros _; exact E|eauto]|].
    intros s' H. injection H as <-. cbn [filled room second].
    rewrite <- E, Z.sub_diag. split; [reflexivity|]. split; reflexivity.
Qed.

Lemma bounded_write_takes_only_an_exact_fill_witness :
  ((exists s', write (mkBuffer [] 3 3) (lit "abc") = Ok s') <-> len (lit "abc") = second (mkBuffer [] 3 3)) /\
  (forall s', write (mkBuffer [] 3 3) (lit "abc") = Ok s' ->
     filled s' = filled (mkBuffer [] 3 3) ++ lit "abc" /\ room s' = 0 /\ second s' = 0).
Proof.
  apply (bounded_write_takes_only_an_exact_fill (mkBuffer [] 3 3) (lit "abc")).
  reflexivity.
Defined.

Section Plain.
Context {Device : Type} {SK : Sink Device}.
Local Abbreviation State := (PrintfState Device).

(** Over text without [%] the loop of [Advance] only moves the cursor; at
    the stop it writes the text in one range. *)
Lemma Advance_loop_plain text : forall (st : State) pending behind tail skipped ahead,
  Forall (fun c => c <> "%"%char /\ c <> NUL) text ->
  stops tail skipped ahead ->
  Advance_loop st pending behind (text ++ tail)
  = (st' <- Write st (pending ++ text) ;;
     Ok (seek st' (skipped ++ rev text ++ behind) ahead)).
Proof.
  induction text as [|c text IH]; intros st pending behind tail skipped ahead Hp Hs.
  - cbn [app rev]. rewrite app_nil_r.
    destruct Hs as [more|c more Hc]; cbn [Advance_loop Ascii.eqb Bool.eqb NUL Ascii.zero app].
    + reflexivity.
    + destruct (Ascii.eqb_spec c "%"); [contradiction|]. cbn [negb]. reflexivity.
  - inversion Hp as [|? ? [Hc Hn] Hp']; subst.
    cbn [app Advance_loop].
    destruct (Ascii.eqb_spec c "%"); [contradiction|].
    destruct (Ascii.eqb_spec c NUL); [contradiction|].
    rewrite (IH st (pending ++ [c]) (c :: behind) tail skipped ahead Hp' Hs).
    cbn [rev]. rewrite <- !app_assoc. reflexivity.
Qed.

End Plain.

(** X2: [BufPrintf] on an array of [N] characters, for a format that begins
    with the plain text [text]: the construction throws when the text is
    shorter than the array, runs past the array when it is longer, and
    returns only when the text fills the array, terminator left out. *)
Theorem BufPrintf_takes_only_an_exact_fill
  (N : Z) (format text tail skipped ahead : list Char) :
  Forall (fun c => c <> "%"%char /\ c <> NUL) text ->
  stops tail skipped ahead ->
  format ++ [NUL] = text ++ tail ->
  N <= INT_MAX ->
  (len text < N -> BufPrintf N format = Thrown) /\
  (N < len text -> BufPrintf N format = Undefined) /\
  (len text = N ->
   exists st, BufPrintf N format = Ok st /\
              filled (device_ st) = text /\ second (device_ st) = 0 /\
              to_int st = N /\ format_ st = ahead).
Proof.
  intros Hp Hs E HN.
  unfold BufPrintf, construct, Advance, ResetAll.
  cbn [result_ device_ behind_ format_ Z.eqb EOF bind]. rewrite E.
  rewrite (Advance_loop_plain text _ [] [] tail skipped ahead Hp Hs).
  cbn [app]. unfold Write. cbn [result_ device_ Z.ltb Z.compare write buffer_sink].
  unfold write_buffer. cbn [second room filled app].
  split; [|split].
  - intros L. destruct (Z.ltb_spec (len text) N); [reflexivity|lia].
  - intros L. destruct (Z.ltb_spec (len text) N); [lia|].
    destruct (Z.ltb_spec N (len text)); [reflexivity|lia].
  - intros L. destruct (Z.ltb_spec (len text) N); [lia|].
    destruct (Z.ltb_spec N (len text)); [lia|]. cbn [bind Z.add].
    destruct (Z.leb_spec (len text) INT_MAX); [|lia]. cbn [bind].
    eexists. split; [reflexivity|].
    cbn [device_ seek set_result set_device filled second to_int result_ format_].
    rewrite L, Z.sub_diag. repeat split; reflexivity.
Qed.

Lemma BufPrintf_takes_only_an_exact_fill_witness :
  (len (lit "n=") < 8 -> BufPrintf 8 (lit "n=%d") = Thrown) /\
  (8 < len (lit "n=") -> BufPrintf 8 (lit "n=%d") = Undefined) /\
  (len (lit "n=") = 8 ->
   exists st, BufPrintf 8 (lit "n=%d") = Ok st /\
              filled (device_ st) = lit "n=" /\ second (device_ st) = 0 /\
              to_int st = 8 /\ format_ st = lit "d" ++ [NUL]).
Proof.
  refine (BufPrintf_takes_only_an_exact_fill 8 (lit "n=%d") (lit "n=")
            (lit "%d" ++ [NUL]) (lit "%") (lit "d" ++ [NUL]) _ _ _ _).
  - repeat constructor; discriminate.
  - apply stops_at_directive. discriminate.
  - reflexivity.
  - unfold INT_MAX. lia.
Defined.

(** ** The construction *)

Lemma literal_unterminated s o : literal s o -> ~ In NUL s.
Proof.
  induction 1 as [|c s o Hc Hn Hl IH|s o Hl IH]; intros H.
  - contradiction.
  - destruct H as [H|H]; [congruence|auto].
  - destruct H as [H|[H|H]]; [discriminate|discriminate|auto].
Qed.

Lemma stops_terminated s tail skipped ahead :
  ~ In NUL s -> In NUL (s ++ tail) -> stops tail skipped ahead ->
  In NUL ahead /\ 1 <= len tail.
Proof.
  intros Hs H St. apply in_app_or in H. destruct H as [H|H]; [contradiction|].
  destruct St as [more|c more Hc].
  - split; [left; reflexivity|]. rewrite len_cons. pose proof (len_nonneg more). lia.
  - split.
    + destruct H as [H|H]; [discriminate|exact H].
    + rewrite len_cons. pose proof (len_nonneg (c :: more)). lia.
Qed.

Section Construction.
Context {Device : Type} {SK : Sink Device} {UB : Unbounded Device}.
Local Abbreviation State := (PrintfState Device).


End Construction.


Section Total.
Context {Device : Type} {SK : Sink Device} {UB : Unbounded Device}.
Local Abbreviation State := (PrintfState Device).

(** [Advance] on a format that has its terminator: it returns, has sent
    some text [o] and counted it, and the cursor is on a character of the
    format array again. *)
Lemma Advance_total (st : State) :
  In NUL (format_ st) ->
  0 <= result_ st ->
  result_ st + len (format_ st) <= INT_MAX ->
  exists st' o,
    Advance st = Ok st' /\
    emitted (device_ st') = emitted (device_ st) ++ o /\
    result_ st' = result_ st + len o /\
    len o + len (format_ st') <= len (format_ st) /\
    In NUL (format_ st') /\
    width_ st' = 0 /\ prec_ st' = SIZE_MAX /\ flags_ st' = 0.
Proof.
  intros T H0 H1.
  destruct (literal_split (List.length (format_ st)) (format_ st) (Nat.le_refl _) T)
    as (s & o & tail & skipped & ahead & E & Hl & Hs).
  pose proof T as T'. rewrite E in T'.
  destruct (stops_terminated s tail skipped ahead (literal_unterminated s o Hl) T' Hs)
    as [Ha Ht].
  pose proof (literal_length s o Hl) as Lo.
  assert (La : len ahead <= len tail).
  { destruct Hs; rewrite ?len_cons; lia. }
  assert (Lf : len (format_ st) = len s + len tail) by (rewrite E, len_app; reflexivity).
  destruct (Advance_literal st s o tail skipped ahead Hl Hs E H0) as (d & A & M); [lia|].
  eexists. exists o. split; [exact A|].
  cbn [put seek opened set_result set_device device_ result_ format_ width_ prec_ flags_].
  repeat split; try assumption; lia.
Qed.

(** [Next] from a character that is not the terminator. *)
Lemma Next_total (st : State) c :
  peek st = Ok c -> c <> NUL ->
  In NUL (format_ st) ->
  0 <= result_ st ->
  result_ st + len (format_ st) <= INT_MAX ->
  exists st' o,
    Next st = Ok st' /\
    emitted (device_ st') = emitted (device_ st) ++ o /\
    result_ st' = result_ st + len o /\
    len o + len (format_ st') < len (format_ st) /\
    In NUL (format_ st') /\
    width_ st' = 0 /\ prec_ st' = SIZE_MAX /\ flags_ st' = 0.
Proof.
  intros P N T H0 H1.
  pose proof (step_terminated st c P N T) as T1.
  unfold peek in P. unfold Next.
  destruct (format_ st) as [|c' rest] eqn:F; [discriminate|].
  assert (S1 : step st = seek st (c' :: behind_ st) rest) by (unfold step; rewrite F; reflexivity).
  rewrite len_cons in H1.
  destruct (Advance_total (step st) T1) as (st' & o & A & M & R & L & T2 & W);
    rewrite S1 in *; cbn [seek result_ format_ device_] in *; try lia.
  exists st', o. split; [exact A|]. split; [exact M|]. split; [exact R|].
  split; [rewrite len_cons; lia|]. split; [exact T2|exact W].
Qed.

End Total.


(** ** The flags *)

Lemma flag_of_listed c b : flag_of c = Some b -> In b flag_list /\ b <> forceShort.
Proof.
  unfold flag_of.
  repeat match goal with |- context [Ascii.eqb c ?x] => destruct (Ascii.eqb c x) end;
    intros E; try discriminate; injection E as <-; split;
    try discriminate; unfold flag_list; cbn; tauto.
Qed.

Lemma land_flags b bit :
  In b flag_list -> In bit flag_list ->
  Z.land b bit = if b =? bit then bit else 0.
Proof.
  unfold flag_list. cbn [In]. intros Hb Hbit.
  repeat match goal with H : _ \/ _ |- _ => destruct H as [<-|H] end;
    try contradiction; reflexivity.
Qed.

Lemma flag_bits_has fl : forall flags bit,
  In bit flag_list ->
  negb (Z.land (flag_bits fl flags) bit =? 0)
  = negb (Z.land flags bit =? 0) || existsb (names_flag bit) fl.
Proof.
  induction fl as [|c fl IH]; intros flags bit Hbit.
  - cbn [flag_bits fold_left existsb]. rewrite orb_false_r. reflexivity.
  - unfold flag_bits. cbn [fold_left existsb]. unfold names_flag at 1.
    destruct (flag_of c) as [b|] eqn:F.
    + fold (flag_bits fl (Z.lor flags b)). rewrite (IH _ bit Hbit).
      rewrite Z.land_lor_distr_l, orb_assoc. f_equal.
      rewrite (land_flags b bit (proj1 (flag_of_listed c b F)) Hbit).
      destruct (Z.eqb_spec b bit) as [->|N].
      * rewrite orb_true_r.
        destruct (Z.eqb_spec (Z.lor (Z.land flags bit) bit) 0) as [E|E]; [|reflexivity].
        apply Z.lor_eq_0_iff in E. destruct E as [_ E]. subst bit.
        unfold flag_list in Hbit. cbn in Hbit. 
        repeat match goal with H : _ \/ _ |- _ => destruct H as [H|H] end;
          try discriminate; contradiction.
      * rewrite Z.lor_0_r, orb_false_r. reflexivity.
    + fold (flag_bits fl flags). rewrite (IH _ bit Hbit). reflexivity.
Qed.

Section Flags.
Context {Device : Type} {SK : Sink Device} {FF : FloatFormat}.
Local Abbreviation State := (PrintfState Device).

(** X6: [ReadFlags] over the flag characters [fl]: a flag is set afterwards
    when it was set before or one of the characters stands for it, in
    whatever order and however often; the cursor is behind the flag
    characters and nothing else has changed. *)
Theorem ReadFlags_sets_the_flags_named (st : State) fl c rest bit :
  format_ st = fl ++ c :: rest ->
  forallb is_flag fl = true ->
  is_flag c = false ->
  In bit flag_list ->
  exists st',
    ReadFlags st = Ok st' /\
    has st' bit = has st bit || existsb (names_flag bit) fl /\
    format_ st' = c :: rest /\ behind_ st' = rev fl ++ behind_ st /\
    width_ st' = width_ st /\ prec_ st' = prec_ st /\ same_output st st'.
Proof.
  intros F Hfl Hc Hbit. unfold ReadFlags. rewrite F.
  rewrite (ReadFlags_loop_text fl (flags_ st) (behind_ st) c rest Hfl Hc).
  cbn [bind]. eexists. split; [reflexivity|].
  unfold has, same_output.
  cbn [seek set_flags flags_ format_ behind_ width_ prec_ device_ result_].
  rewrite (flag_bits_has fl (flags_ st) bit Hbit). repeat split; reflexivity.
Qed.

End Flags.

Lemma ReadFlags_sets_the_flags_named_witness :
  let st : PrintfState std_string :=
    mkState empty (lit "%") (lit "0-0+d" ++ [NUL]) 0 SIZE_MAX 0 0 in
  exists st',
    ReadFlags st = Ok st' /\
    has st' leftJustify = has st leftJustify || existsb (names_flag leftJustify) (lit "0-0+") /\
    format_ st' = "d"%char :: [NUL] /\ behind_ st' = rev (lit "0-0+") ++ behind_ st /\
    width_ st' = width_ st /\ prec_ st' = prec_ st /\ same_output st st'.
Proof.
  intros st.
  refine (ReadFlags_sets_the_flags_named st (lit "0-0+") "d"%char [NUL]
            leftJustify _ _ _ _).
  - reflexivity.
  - reflexivity.
  - reflexivity.
  - left. reflexivity.
Defined.

(** ** Decimal numbers in a directive *)

Lemma parse_digits_digits ds : forall acc v,
  parse_digits acc ds = Some v -> forallb isdigit ds = true.
Proof.
  induction ds as [|c ds IH]; intros acc v H; [reflexivity|].
  cbn [parse_digits forallb] in *. destruct (isdigit c); [|discriminate].
  cbn [andb]. exact (IH _ _ H).
Qed.

Lemma parse_digits_wraps ds : forall acc r v,
  r = acc mod WORD ->
  parse_digits acc ds = Some v ->
  fold_left (fun r c => (r * 10 mod WORD + (code c - 48)) mod WORD) ds r = v mod WORD.
Proof.
  induction ds as [|c ds IH]; intros acc r v Hr H.
  - cbn [parse_digits fold_left] in *. injection H as <-. exact Hr.
  - cbn [parse_digits fold_left] in *. destruct (isdigit c); [|discriminate].
    apply (IH (acc * 10 + (code c - 48))); [|exact H]. subst r.
    unfold WORD. rewrite Z.mul_mod_idemp_l, Z.add_mod_idemp_l by lia. reflexivity.
Qed.

Section DecimalNumbers.
Context {Device : Type} {SK : Sink Device} {FF : FloatFormat}.
Local Abbreviation State := (PrintfState Device).

(** X7: [ParseDecimalUInt] on one or more digits stores their decimal
    value modulo [2^32], whatever the destination held, and leaves the
    cursor on the character behind them. *)
Theorem ParseDecimalUInt_wraps (st : State) dest d ds c rest v :
  format_ st = (d :: ds) ++ c :: rest ->
  isdigit c = false ->
  parse_digits 0 (d :: ds) = Some v ->
  ParseDecimalUInt st dest
  = Ok (seek st (rev (d :: ds) ++ behind_ st) (c :: rest), v mod WORD).
Proof.
  intros F Hc P.
  rewrite (ParseDecimalUInt_text st dest (d :: ds) c rest F (parse_digits_digits _ _ _ P) Hc).
  f_equal. f_equal. unfold decimal_value.
  apply (parse_digits_wraps (d :: ds) 0 0 v eq_refl P).
Qed.

(** X8: a point that no digit follows leaves the precision as it was:
    [ReadPrecision] only moves the cursor over the point. *)
Theorem bare_point_leaves_precision (st : State) c rest :
  format_ st = "."%char :: c :: rest ->
  isdigit c = false ->
  ReadPrecision st = Ok (step st) /\
  prec_ (step st) = prec_ st /\ format_ (step st) = c :: rest.
Proof.
  intros F Hc. unfold ReadPrecision, peek. rewrite F.
  cbn [bind Ascii.eqb Bool.eqb negb].
  assert (S1 : step st = seek st ("."%char :: behind_ st) (c :: rest))
    by (unfold step; rewrite F; reflexivity).
  rewrite (ParseDecimalUInt_stops (step st) c (prec_ st)); [|rewrite S1; reflexivity|exact Hc].
  cbn [bind]. rewrite S1. split; [|split; reflexivity].
  f_equal.
Qed.

End DecimalNumbers.

Lemma ParseDecimalUInt_wraps_witness :
  let st : PrintfState std_string :=
    mkState empty (lit "%") (lit "4294967301d" ++ [NUL]) 0 SIZE_MAX 0 0 in
  ParseDecimalUInt st 0
  = Ok (seek st (rev (lit "4294967301") ++ behind_ st) ("d"%char :: [NUL]),
        4294967301 mod WORD).
Proof.
  intros st.
  refine (ParseDecimalUInt_wraps st 0 "4"%char (lit "294967301")
            "d"%char [NUL] 4294967301 _ _ _).
  - reflexivity.
  - reflexivity.
  - reflexivity.
Defined.

Lemma bare_point_leaves_precision_witness :
  let st : PrintfState std_string :=
    mkState empty (lit "%") (lit ".d" ++ [NUL]) 0 SIZE_MAX 0 0 in
  ReadPrecision st = Ok (step st) /\
  prec_ (step st) = prec_ st /\ format_ (step st) = "d"%char :: [NUL].
Proof.
  intros st.
  refine (bare_point_leaves_precision st "d"%char [NUL] _ _).
  - reflexivity.
  - reflexivity.
Defined.

(** ** What the readers consume *)

Lemma ReadFlags_loop_consumes ahead : forall flags behind f b a,
  ReadFlags_loop flags behind ahead = Ok (f, b, a) ->
  exists consumed,
    ahead = consumed ++ a /\ b = rev consumed ++ behind /\
    forallb leader consumed = true.
Proof.
  induction ahead as [|c rest IH]; intros flags behind f b a H; [discriminate|].
  cbn [ReadFlags_loop] in H. destruct (flag_of c) as [bit|] eqn:Fl.
  - destruct (IH _ _ _ _ _ H) as (cs & -> & -> & L).
    exists (c :: cs). cbn [app rev forallb]. rewrite <- app_assoc.
    split; [reflexivity|]. split; [reflexivity|].
    rewrite L, andb_true_r. unfold leader. rewrite Fl. reflexivity.
  - injection H as <- <- <-. exists []. auto.
Qed.

Lemma ParseDecimalUInt_loop_consumes ahead : forall r behind r' b a,
  ParseDecimalUInt_loop r behind ahead = Ok (r', b, a) ->
  exists consumed,
    ahead = consumed ++ a /\ b = rev consumed ++ behind /\
    forallb leader consumed = true.
Proof.
  induction ahead as [|c rest IH]; intros r behind r' b a H; [discriminate|].
  cbn [ParseDecimalUInt_loop] in H. destruct (isdigit c) eqn:D.
  - destruct (IH _ _ _ _ _ H) as (cs & -> & -> & L).
    exists (c :: cs). cbn [app rev forallb]. rewrite <- app_assoc.
    split; [reflexivity|]. split; [reflexivity|].
    rewrite L, andb_true_r. unfold leader. rewrite D.
    destruct (flag_of c); reflexivity.
  - injection H as <- <- <-. exists []. auto.
Qed.

Section Consumes.
Context {Device : Type} {SK : Sink Device} {FF : FloatFormat}.
Local Abbreviation State := (PrintfState Device).

(** [st'] is [st] with the cursor moved over the leader characters
    [consumed]. *)
Lemma ParseDecimalUInt_consumes (st st' : State) d r :
  ParseDecimalUInt st d = Ok (st', r) ->
  exists consumed,
    format_ st = consumed ++ format_ st' /\
    behind_ st' = rev consumed ++ behind_ st /\
    forallb leader consumed = true.
Proof.
  unfold ParseDecimalUInt. intros H. bind_inv H.
  destruct (negb (isdigit x)).
  - injection H as <- _. exists []. auto.
  - bind_inv H. destruct x0 as [[r' b] a]. injection H as <- _.
    exact (ParseDecimalUInt_loop_consumes _ _ _ _ _ _ E0).
Qed.

Lemma step_consumes (st : State) c :
  peek st = Ok c ->
  format_ st = c :: format_ (step st) /\ behind_ (step st) = c :: behind_ st.
Proof.
  unfold peek, step. destruct (format_ st) as [|c' rest]; [discriminate|].
  intros E. injection E as ->. auto.
Qed.

(** X10: on a format that has its terminator [ReadLeaders] returns.  It
    has moved the cursor over leader characters only (flags, digits, the
    point, [h] and [l]), the cursor is on a character of the format array,
    and the device and the result are as they were. *)
Theorem ReadLeaders_consumes_leaders (st : State) :
  In NUL (format_ st) ->
  exists st1 consumed c,
    ReadLeaders st = Ok st1 /\
    format_ st = consumed ++ format_ st1 /\
    behind_ st1 = rev consumed ++ behind_ st /\
    forallb leader consumed = true /\
    peek st1 = Ok c /\ In NUL (format_ st1) /\
    same_output st st1.
Proof.
  intros T. destruct (ReadLeaders_returns st T) as (st1 & c & HL & P & T1).
  pose proof (ReadLeaders_output _ _ HL) as So.
  assert (G : exists consumed,
            format_ st = consumed ++ format_ st1 /\
            behind_ st1 = rev consumed ++ behind_ st /\
            forallb leader consumed = true).
  { unfold ReadLeaders in HL. bind_inv HL. rename x into s1.
    bind_inv HL. rename x into s2. bind_inv HL. rename x into c2.
    bind_inv HL. rename x into s3.
    (* the flags *)
    assert (G1 : exists cs, format_ st = cs ++ format_ s1 /\
                            behind_ s1 = rev cs ++ behind_ st /\
                            forallb leader cs = true).
    { unfold ReadFlags in E. bind_inv E. destruct x as [[f b] a]. injection E as <-.
      exact (ReadFlags_loop_consumes _ _ _ _ _ _ E3). }
    (* the width *)
    assert (G2 : exists cs, format_ s1 = cs ++ format_ s2 /\
                            behind_ s2 = rev cs ++ behind_ s1 /\
                            forallb leader cs = true).
    { unfold ReadWidth in E0. bind_inv E0. destruct x as [s w]. injection E0 as <-.
      exact (ParseDecimalUInt_consumes _ _ _ _ E3). }
    (* the precision *)
    assert (G3 : exists cs, format_ s2 = cs ++ format_ s3 /\
                            behind_ s3 = rev cs ++ behind_ s2 /\
                            forallb leader cs = true).
    { destruct (Ascii.eqb_spec c2 ".") as [->|N].
      - unfold ReadPrecision in E2. rewrite E1 in E2.
        cbn [bind Ascii.eqb Bool.eqb negb] in E2.
        bind_inv E2. destruct x as [s p]. injection E2 as <-.
        destruct (ParseDecimalUInt_consumes _ _ _ _ E3) as (cs & F & B & L).
        destruct (step_consumes s2 _ E1) as [F1 B1].
        exists ("."%char :: cs). cbn [app rev forallb SetPrec format_ behind_].
        rewrite F1, F, B, B1, <- app_assoc, L. auto.
      - injection E2 as <-. exists []. auto. }
    (* the modifier *)
    assert (G4 : exists cs, format_ s3 = cs ++ format_ st1 /\
                            behind_ st1 = rev cs ++ behind_ s3 /\
                            forallb leader cs = true).
    { unfold ReadModifiers in HL. bind_inv HL.
      destruct (Ascii.eqb_spec x "h") as [->|Nh].
      - injection HL as <-.
        destruct (step_consumes (SetForceShort s3) "h"%char E3) as [F1 B1].
        exists ["h"%char]. split; [exact F1|]. split; [exact B1|reflexivity].
      - destruct (Ascii.eqb_spec x "l") as [->|Nl].
        + injection HL as <-. destruct (step_consumes s3 "l"%char E3) as [F1 B1].
          exists ["l"%char]. split; [exact F1|]. split; [exact B1|reflexivity].
        + injection HL as <-. exists []. auto. }
    destruct G1 as (c1 & F1 & B1 & L1). destruct G2 as (c2' & F2 & B2 & L2).
    destruct G3 as (c3 & F3 & B3 & L3). destruct G4 as (c4 & F4 & B4 & L4).
    exists (c1 ++ c2' ++ c3 ++ c4).
    rewrite F1, F2, F3, F4, B4, B3, B2, B1, !rev_app_distr, !forallb_app, L1, L2, L3, L4,
      <- !app_assoc.
    auto. }
  destruct G as (consumed & F & B & L).
  exists st1, consumed, c. auto 10.
Qed.

(** X9: [ReadLeaders] on the text of a directive, from a formatter that
    [Advance] has reset.  Each flag is set exactly when one of the flag
    characters stands for it; the width is the decimal value of the width
    digits modulo [2^32], or 0 without digits; the precision that of the
    precision digits, or unset without a point or without digits behind it;
    the short flag is set exactly for the modifier [h]; the cursor is on
    the conversion character. *)
Theorem directive_is_read_as_written (st : State) fl wd p md c rest :
  format_ st = leaders_text fl wd p md ++ c :: rest ->
  forallb is_flag fl = true ->
  forallb isdigit wd = true ->
  is_flag (hd c wd) = false ->
  forallb isdigit (match p with Some ds => ds | None => [] end) = true ->
  leader c = false ->
  width_ st = 0 -> prec_ st = SIZE_MAX -> flags_ st = 0 ->
  exists st1,
    ReadLeaders st = Ok st1 /\
    format_ st1 = c :: rest /\
    (forall bit, In bit flag_list -> bit <> forceShort ->
       has st1 bit = existsb (names_flag bit) fl) /\
    ForceShort st1 = (match md with modifier_h => true | _ => false end) /\
    (forall v, parse_digits 0 wd = Some v -> width_ st1 = v mod WORD) /\
    (forall v, option_map (parse_digits 0) p = Some (Some v) ->
       prec_ st1 = match p with Some (_ :: _) => v mod WORD | _ => SIZE_MAX end) /\
    (p = None -> prec_ st1 = SIZE_MAX) /\
    same_output st st1.
Proof.
  intros F Hfl Hwd Hw0 Hp Hc W P Fl.
  rewrite (ReadLeaders_text st fl wd p md c rest F Hfl Hwd Hw0 Hp Hc).
  eexists. split; [reflexivity|]. split; [reflexivity|].
  assert (FB : forall bit, In bit flag_list ->
            negb (Z.land (flag_bits fl (flags_ st)) bit =? 0) = existsb (names_flag bit) fl).
  { intros bit Hb. rewrite (flag_bits_has fl (flags_ st) bit Hb), Fl. reflexivity. }
  split; [|split; [|split; [|split; [|split]]]].
  - intros bit Hb Ns. unfold has. cbn [after_leaders flags_].
    destruct md; try exact (FB bit Hb).
    rewrite Z.land_lor_distr_l, (land_flags forceShort bit) by (unfold flag_list; cbn; tauto).
    destruct (Z.eqb_spec forceShort bit); [congruence|].
    rewrite Z.lor_0_r. exact (FB bit Hb).
  - unfold ForceShort, has. cbn [after_leaders flags_].
    assert (NS : negb (Z.land (flag_bits fl (flags_ st)) forceShort =? 0) = false).
    { rewrite (flag_bits_has fl (flags_ st) forceShort) by (unfold flag_list; cbn; tauto).
      rewrite Fl. cbn [Z.land Z.eqb negb orb].
      clear - Hfl. induction fl as [|x fl IH]; [reflexivity|].
      cbn [forallb existsb] in *. apply andb_prop in Hfl. destruct Hfl as [Hx Hfl].
      rewrite (IH Hfl), orb_false_r. unfold names_flag.
      destruct (flag_of x) as [b|] eqn:E; [|reflexivity].
      destruct (flag_of_listed x b E) as [_ N]. destruct (Z.eqb_spec b forceShort); congruence. }
    destruct md; try exact NS.
    rewrite Z.land_lor_distr_l. change (Z.land forceShort forceShort) with forceShort.
    destruct (Z.eqb_spec (Z.lor (Z.land (flag_bits fl (flags_ st)) forceShort) forceShort) 0)
      as [E|E]; [|reflexivity].
    apply Z.lor_eq_0_iff in E. destruct E as [_ E]. discriminate.
  - intros v Pv. cbn [after_leaders width_]. destruct wd as [|d ds].
    + cbn [parse_digits] in Pv. injection Pv as <-. exact W.
    + unfold decimal_value. exact (parse_digits_wraps (d :: ds) 0 0 v eq_refl Pv).
  - intros v Pv. cbn [after_leaders prec_]. destruct p as [[|d ds]|]; try exact P.
    cbn [option_map] in Pv. injection Pv as Pv.
    unfold decimal_value. exact (parse_digits_wraps (d :: ds) 0 0 v eq_refl Pv).
  - intros ->. exact P.
  - split; reflexivity.
Qed.

End Consumes.

Lemma ReadLeaders_consumes_leaders_witness :
  let st : PrintfState std_string :=
    mkState empty (lit "%") (lit "-08.3hd|" ++ [NUL]) 0 SIZE_MAX 0 0 in
  exists st1 consumed c,
    ReadLeaders st = Ok st1 /\
    format_ st = consumed ++ format_ st1 /\
    behind_ st1 = rev consumed ++ behind_ st /\
    forallb leader consumed = true /\
    peek st1 = Ok c /\ In NUL (format_ st1) /\
    same_output st st1.
Proof.
  intros st. refine (ReadLeaders_consumes_leaders st _).
  simpl. tauto.
Defined.

Lemma directive_is_read_as_written_witness :
  let st : PrintfState std_string :=
    mkState empty (lit "%") (lit "-08.3hd|" ++ [NUL]) 0 SIZE_MAX 0 0 in
  exists st1,
    ReadLeaders st = Ok st1 /\
    format_ st1 = "d"%char :: lit "|" ++ [NUL] /\
    (forall bit, In bit flag_list -> bit <> forceShort ->
       has st1 bit = existsb (names_flag bit) (lit "-0")) /\
    ForceShort st1 = true /\
    (forall v, parse_digits 0 (lit "8") = Some v -> width_ st1 = v mod WORD) /\
    (forall v, option_map (parse_digits 0) (Some (lit "3")) = Some (Some v) ->
       prec_ st1 = v mod WORD) /\
    (Some (lit "3") = None -> prec_ st1 = SIZE_MAX) /\
    same_output st st1.
Proof.
  intros st.
  refine (directive_is_read_as_written st (lit "-0") (lit "8") (Some (lit "3")) modifier_h
            "d"%char (lit "|" ++ [NUL]) _ _ _ _ _ _ _ _ _).
  - reflexivity.
  - reflexivity.
  - reflexivity.
  - reflexivity.
  - reflexivity.
  - reflexivity.
  - reflexivity.
  - reflexivity.
  - reflexivity.
Defined.

(** ** The renderer and its array *)

(** The renderer does not depend on the cells it leaves unused. *)
Lemma RenderWithoutSign_ulong_room below : forall more n base up tail r,
  RenderWithoutSign_ulong below n base up tail = Ok r ->
  RenderWithoutSign_ulong (below + more) n base up tail = Ok r.
Proof.
  induction below as [|below IH]; intros more n base up tail r;
    rewrite !RenderWithoutSign_ulong_eq; cbv zeta;
    destruct (n / base =? 0); try (intros E; exact E).
  - discriminate.
  - cbn [Nat.add]. apply IH.
Qed.

(** The first digit of a rendering is not zero, except for the value 0. *)
Lemma RenderWithoutSign_ulong_leading below : forall n base up tail,
  2 <= base ->
  0 < n < base ^ (Z.of_nat below + 1) ->
  exists ds,
    RenderWithoutSign_ulong below n base up tail = Ok (map (numeral up) ds ++ tail) /\
    Forall (fun d => 0 <= d < base) ds /\
    positional base ds = n /\
    (List.length ds <= S below)%nat /\
    0 < hd 0 ds.
Proof.
  induction below as [|below IH]; intros n base up tail Hb Hn;
    rewrite RenderWithoutSign_ulong_eq; cbv zeta.
  - assert (n / base = 0) as -> by (apply Z.div_small; simpl in Hn; lia).
    replace (n - 0 * base) with n by lia. cbn [Z.eqb].
    exists [n]. cbn [map app hd List.length]. split; [reflexivity|].
    split; [constructor; [simpl in Hn; lia|constructor]|].
    split; [unfold positional; simpl; lia|]. split; lia.
  - assert (Hq : 0 <= n / base) by (apply Z.div_pos; lia).
    assert (Hr : 0 <= n - n / base * base < base).
    { pose proof (Z.mod_pos_bound n base ltac:(lia)) as H.
      rewrite Z.mod_eq in H by lia. lia. }
    destruct (Z.eqb_spec (n / base) 0) as [E|E].
    + exists [n - n / base * base]. cbn [map app hd List.length].
      split; [reflexivity|]. split; [constructor; [exact Hr|constructor]|].
      split; [unfold positional; simpl; rewrite E; lia|].
      split; [lia|rewrite E; lia].
    + destruct (IH (n / base) base up (numeral up (n - n / base * base) :: tail) Hb)
        as (ds & R & Hall & Hval & Hlen & Hhd).
      { split; [lia|]. apply Z.div_lt_upper_bound; [lia|].
        replace (Z.of_nat (S below) + 1) with (Z.succ (Z.of_nat below + 1)) in Hn by lia.
        rewrite Z.pow_succ_r in Hn by lia. lia. }
      exists (ds ++ [n - n / base * base]).
      split; [rewrite R, map_app, <- app_assoc; reflexivity|].
      split; [apply Forall_app; split; [exact Hall|constructor; [exact Hr|constructor]]|].
      split; [rewrite positional_snoc, Hval; lia|].
      split; [rewrite length_app; simpl; lia|].
      destruct ds as [|d ds]; [simpl in Hhd; lia|exact Hhd].
Qed.

(** X17: for every 32-bit value and the bases 8, 10 and 16 the unsigned
    renderer returns the digits of the value, most significant first and
    without a leading zero; it fills at most 11 of the 16 cells of the
    array of [FormatWithCurrentFlags]. *)
Theorem RenderWithoutSign_ulong_fits (n base : Z) (up : bool) :
  base = 8 \/ base = 10 \/ base = 16 ->
  0 <= n < WORD ->
  exists ds,
    RenderWithoutSign_ulong (bufSize - 1) n base up [] = Ok (map (numeral up) ds) /\
    Forall (fun d => 0 <= d < base) ds /\
    positional base ds = n /\
    1 <= len ds <= 11 /\
    (n <> 0 -> 0 < hd 0 ds).
Proof.
  intros Hb Hn. destruct (Z.eq_dec n 0) as [->|N].
  - exists [0]. split; [|split; [|split; [|split]]].
    + destruct Hb as [-> | [-> | ->]]; reflexivity.
    + constructor; [lia|constructor].
    + reflexivity.
    + cbn. lia.
    + intros F. contradiction.
  - destruct (RenderWithoutSign_ulong_leading 10 n base up []) as (ds & R & A & B & C & D).
    + lia.
    + change (Z.of_nat 10 + 1) with 11.
      assert (WORD <= base ^ 11) by (destruct Hb as [-> | [-> | ->]]; vm_compute; discriminate).
      lia.
    + exists ds. rewrite app_nil_r in R.
      split; [exact (RenderWithoutSign_ulong_room 10 5 n base up [] _ R)|].
      split; [exact A|]. split; [exact B|]. split; [|intros _; exact D].
      unfold len. destruct ds; [simpl in D; lia|]. simpl List.length in *. lia.
Qed.

Lemma RenderWithoutSign_ulong_fits_witness :
  exists ds,
    RenderWithoutSign_ulong (bufSize - 1) 4294967295 8 false [] = Ok (map (numeral false) ds) /\
    Forall (fun d => 0 <= d < 8) ds /\
    positional 8 ds = 4294967295 /\
    1 <= len ds <= 11 /\
    (4294967295 <> 0 -> 0 < hd 0 ds).
Proof.
  refine (RenderWithoutSign_ulong_fits 4294967295 8 false _ _).
  - left. reflexivity.
  - unfold WORD. lia.
Defined.




(** ** One directive and one argument *)

Lemma numeric_cases (c : Char) :
  numeric c = true ->
  c = "d"%char \/ c = "i"%char \/ c = "u"%char \/ c = "o"%char \/
  c = "x"%char \/ c = "X"%char \/ c = "p"%char.
Proof.
  intros N. destruct (passes_cases c (numeric_passes c N)) as [H|[H|[H|[H|[H|[H|[H|H]]]]]]];
    auto 10. subst c. discriminate.
Qed.

Section Single.
Context {Device : Type} {SK : Sink Device} {FF : FloatFormat} {UB : Unbounded Device}.
Local Abbreviation State := (PrintfState Device).

(** The field of a directive without flags, width or precision: sign,
    prefix and digits. *)
Lemma bare_field (st : State) (c : Char) (i : Z) digits :
  width_ st = 0 -> prec_ st = SIZE_MAX ->
  flags_ st = 0 \/ flags_ st = forceShort ->
  field st c i digits
  = (if is_signed c && (to_long i <? 0) then ["-"%char] else [])
    ++ (if Ascii.eqb c "p" && negb (i =? 0) then lit "0x" else [])
    ++ digits.
Proof.
  intros W P F.
  unfold field, printable, precision_zeros, base_prefix, sign_text, alternate,
    AlternateForm, ShowSignAlways, Blank, LeftJustify, FillZeros, has. cbv zeta.
  rewrite W, P.
  match goal with |- context [len ?l <? 0] =>
    pose proof (len_nonneg l); destruct (Z.ltb_spec (len l) 0); [lia|] end.
  change (SIZE_MAX =? SIZE_MAX) with true.
  destruct F as [-> | ->];
    cbn [Z.land Pos.land forceShort showSignAlways blank alternateForm Z.eqb negb orb andb app];
    (destruct (Ascii.eqb_spec c "p") as [->|Np];
     [cbn; destruct (to_long i <? 0); destruct (i =? 0); reflexivity
     |rewrite andb_false_l; cbn [app];
      destruct (is_signed c); [destruct (to_long i <? 0)|]; reflexivity]).
Qed.

(** The format [% md c] for a length modifier [md] and a numeric
    conversion [c], and one argument that [operator()] hands to
    [FormatWithCurrentFlags] as the value [v]: construction and call
    return, and what the device receives is the bare field of the value. *)
Lemma single_directive_of (dev : Device) (m : Memory) (a : Arg) (v : Z)
  (md : Modifier) (c : Char) digits :
  numeric c = true ->
  (forall st st1 : State,
     result_ st <> -1 -> ReadLeaders st = Ok st1 -> peek st1 = Ok c ->
     flags_ st1 = match md with modifier_h => forceShort | _ => 0 end ->
     call st m a = keep m (FormatWithCurrentFlags st1 v)) ->
  rendered c v = Ok digits ->
  len digits <= 16 ->
  let text :=
    (if is_signed c && (to_long v <? 0) then ["-"%char] else [])
    ++ (if Ascii.eqb c "p" && negb (v =? 0) then lit "0x" else [])
    ++ digits in
  exists (st st' : State),
    construct dev ("%"%char :: modifier_text md ++ [c]) = Ok st /\
    call st m a = Ok (st', m) /\
    emitted (device_ st') = emitted dev ++ text /\
    to_int st' = len text /\
    peek st' = Ok NUL.
Proof.
  intros N Call R Ld text.
  assert (Cp : c <> "%"%char /\ leader c = false /\ c <> "*"%char).
  { destruct (numeric_cases c N) as [H|[H|[H|[H|[H|[H|H]]]]]]; subst c;
      (split; [discriminate|split; [reflexivity|discriminate]]). }
  destruct Cp as (Cp & Lc & Cs).
  assert (exists x xs, modifier_text md ++ [c; NUL] = x :: xs /\ x <> "%"%char)
    as (x & xs & Ex & Nx).
  { destruct md; cbn [modifier_text app]; eexists; eexists; (split; [reflexivity|]);
      try discriminate; exact Cp. }
  destruct (Advance_literal
              (mkState dev [] (("%"%char :: modifier_text md ++ [c]) ++ [NUL]) 0 0 0 0)
              [] [] ("%"%char :: x :: xs) ["%"%char] (x :: xs)
              literal_end (stops_at_directive x xs Nx))
    as (d0 & E0 & M0).
  { cbn [format_ app]. rewrite <- Ex, <- app_assoc. reflexivity. }
  { cbn. lia. } { cbn. unfold INT_MAX. lia. }
  cbn [opened seek put set_result set_device device_ behind_ format_ result_ rev app] in E0.
  change (len (@nil Char)) with 0 in E0. cbn [Z.add] in E0.
  cbn [device_] in M0. rewrite app_nil_r in M0. rewrite <- Ex in E0.
  set (st := mkState d0 ["%"%char] (modifier_text md ++ [c; NUL]) 0 SIZE_MAX 0 0) in E0.
  set (st1 := after_leaders st [] [] None md [c; NUL]).
  assert (HL : ReadLeaders st = Ok st1).
  { apply (ReadLeaders_text st [] [] None md c [NUL]); try reflexivity.
    - unfold leader in Lc. apply orb_false_elim in Lc. destruct Lc as [Lc _].
      repeat (apply orb_false_elim in Lc; destruct Lc as [Lc _]). exact Lc.
    - exact Lc. }
  assert (Fm : flags_ st1 = match md with modifier_h => forceShort | _ => 0 end)
    by (destruct md; reflexivity).
  assert (Fl : flags_ st1 = 0 \/ flags_ st1 = forceShort) by (destruct md; cbn; auto).
  assert (Fd : field st1 c v digits = text)
    by (apply (bare_field st1 c v digits eq_refl eq_refl Fl)).
  assert (Lf : len text <= 19).
  { unfold text. rewrite !len_app.
    destruct (is_signed c && (to_long v <? 0)); destruct (Ascii.eqb c "p" && negb (v =? 0));
      cbn [lit list_ascii_of_string]; rewrite ?len_cons;
      change (len (@nil Char)) with 0; lia. }
  pose proof (len_nonneg text) as Lf0.
  destruct (FormatWithCurrentFlags_field st1 c v digits eq_refl (numeric_passes c N) R)
    as (st2 & E2 & M2 & R2 & B2 & F2).
  { cbn. unfold WORD. lia. } { cbn. lia. }
  { rewrite Fd. cbn [result_ st1 after_leaders st]. unfold INT_MAX. lia. }
  rewrite Fd in M2, R2.
  cbn [device_ result_ behind_ format_ st st1 after_leaders] in M2, R2, B2, F2.
  destruct (Next_literal st2 c [] [] [NUL] [] [NUL] literal_end (stops_at_end []) F2)
    as (d3 & E3 & M3); [lia | change (len (@nil Char)) with 0; unfold INT_MAX; lia |].
  exists st. eexists. split; [exact E0|].
  split; [|split; [|split]].
  - rewrite (Call st st1); [|cbn; lia|exact HL|reflexivity|exact Fm].
    rewrite E2, E3. reflexivity.
  - cbn [device_ put set_result set_device]. rewrite M3, app_nil_r, M2, M0. reflexivity.
  - unfold to_int. cbn [result_ put set_result set_device seek opened].
    change (len (@nil Char)) with 0. rewrite R2. lia.
  - reflexivity.
Qed.

(** The same for an argument of integer kind, whose value the [h] modifier
    shortens under the unsigned conversions. *)
Lemma single_directive (dev : Device) (m : Memory) (a : Arg) (i : Z)
  (md : Modifier) (c : Char) digits :
  numeric c = true ->
  integral a = Some i ->
  rendered c (shortened md c i) = Ok digits ->
  len digits <= 16 ->
  let text :=
    (if is_signed c && (to_long (shortened md c i) <? 0) then ["-"%char] else [])
    ++ (if Ascii.eqb c "p" && negb (shortened md c i =? 0) then lit "0x" else [])
    ++ digits in
  exists (st st' : State),
    construct dev ("%"%char :: modifier_text md ++ [c]) = Ok st /\
    call st m a = Ok (st', m) /\
    emitted (device_ st') = emitted dev ++ text /\
    to_int st' = len text /\
    peek st' = Ok NUL.
Proof.
  intros N I R Ld.
  apply (single_directive_of dev m a (shortened md c i) md c digits N); [|exact R|exact Ld].
  intros st st1 Rs HL P Fm.
  assert (Cs : c <> "*"%char).
  { destruct (numeric_cases c N) as [H|[H|[H|[H|[H|[H|H]]]]]]; subst c; discriminate. }
  rewrite (call_integral st m a i I).
  rewrite (call_unsigned_long_leaders st st1 c i Rs HL P Cs).
  do 2 f_equal. unfold short_value, shortened, ForceShort, has. rewrite Fm.
  destruct md; reflexivity.
Qed.


(** X12: the length modifier [h] shortens the unsigned conversions only.
    [%hu] prints the decimal numeral of the value modulo [2^16]; [%hd]
    prints a [long] in full, also where it does not fit a [short]. *)
Theorem short_modifier_spares_signed (dev : Device) (m : Memory) (n : Z) :
  LONG_MIN <= n <= LONG_MAX ->
  (exists (st st' : State) text,
     construct dev (lit "%hu") = Ok st /\
     call st m (a_long n) = Ok (st', m) /\
     emitted (device_ st') = emitted dev ++ text /\
     parse_digits 0 text = Some (n mod 65536)) /\
  (exists (st st' : State) text,
     construct dev (lit "%hd") = Ok st /\
     call st m (a_long n) = Ok (st', m) /\
     emitted (device_ st') = emitted dev ++ text /\
     parse_decimal text = Some n).
Proof.
  intros Hn. split.
  - assert (Hv : 0 <= to_ulong (to_ushort (to_ulong n)) < WORD /\
                 to_ulong (to_ushort (to_ulong n)) = n mod 65536).
    { unfold to_ulong, to_ushort, WORD.
      pose proof (Z.mod_pos_bound (n mod 4294967296) 65536 eq_refl).
      rewrite (Z.mod_small (_ mod 65536)) by lia. split; [lia|].
      apply Z.mod_mod_divide. exists 65536. reflexivity. }
    destruct Hv as [Hv Ev].
    destruct (RenderWithoutSign_ulong_returns _ 10 false ltac:(auto) Hv)
      as (ds & R & A & B & C & D).
    destruct (single_directive dev m (a_long n) (to_ulong n) modifier_h "u"%char
                (map (numeral false) ds) eq_refl eq_refl R)
      as (st & st' & E0 & E1 & M & _ & _).
    { rewrite map_numeral_length. exact D. }
    cbn [is_signed Ascii.eqb Bool.eqb orb andb app] in M.
    exists st, st', (map (numeral false) ds).
    split; [exact E0|]. split; [exact E1|]. split; [exact M|].
    rewrite parse_digits_numerals by exact B. rewrite <- Ev. exact (f_equal Some C).
  - destruct (rendered_decimal "d"%char n ltac:(auto) Hn) as (digits & R & A & B & P).
    destruct (single_directive dev m (a_long n) (to_ulong n) modifier_h "d"%char digits
                eq_refl eq_refl R B)
      as (st & st' & E0 & E1 & M & _ & _).
    cbn [shortened is_signed Ascii.eqb Bool.eqb orb andb app] in M.
    rewrite (to_long_to_ulong n Hn) in M.
    exists st, st'. eexists. split; [exact E0|]. split; [exact E1|]. split; [exact M|].
    apply parse_signed; assumption.
Qed.



End Single.


Lemma short_modifier_spares_signed_witness :
  (exists (st st' : PrintfState std_string) text,
     construct empty (lit "%hu") = Ok st /\
     call (FF := no_float_output) st (fun _ => 0) (a_long 70000) = Ok (st', fun _ => 0) /\
     emitted (device_ st') = emitted empty ++ text /\
     parse_digits 0 text = Some (70000 mod 65536)) /\
  (exists (st st' : PrintfState std_string) text,
     construct empty (lit "%hd") = Ok st /\
     call (FF := no_float_output) st (fun _ => 0) (a_long 70000) = Ok (st', fun _ => 0) /\
     emitted (device_ st') = emitted empty ++ text /\
     parse_decimal text = Some 70000).
Proof.
  refine (short_modifier_spares_signed (SK := string_sink) (FF := no_float_output)
            empty (fun _ => 0) 70000 _).
  unfold LONG_MIN, LONG_MAX. lia.
Defined.


Section CharacterDirective.
Context {Device : Type} {SK : Sink Device} {FF : FloatFormat} {UB : Unbounded Device}.
Local Abbreviation State := (PrintfState Device).

(** X13: an argument of integer kind on a directive that ends in [c]
    prints the one character its value converts to, in a field brought up
    to the width with blanks, on the right under the left-justify flag and
    on the left otherwise.  The zero-fill flag, the precision and the [h]
    modifier change nothing. *)
Theorem character_directive_field
  (st st1 : State) (m : Memory) (a : Arg) (i : Z) :
  0 <= result_ st ->
  ReadLeaders st = Ok st1 ->
  peek st1 = Ok "c"%char ->
  integral a = Some i ->
  result_ st + Z.max (width_ st1) 1 <= INT_MAX ->
  let pad := repeat " "%char (Z.to_nat (width_ st1 - 1)) in
  exists st2,
    call st m a = keep m (Next st2) /\
    emits st1 (if LeftJustify st1 then char_of i :: pad else pad ++ [char_of i]) st2 /\
    emitted (device_ st2)
    = emitted (device_ st)
      ++ (if LeftJustify st1 then char_of i :: pad else pad ++ [char_of i]) /\
    result_ st2 = result_ st + Z.max (width_ st1) 1.
Proof.
  intros H0 HL P I H1 pad.
  destruct (ReadLeaders_output _ _ HL) as [Dev Res].
  pose proof (string_field_length st1 [char_of i]) as SL.
  change (len [char_of i]) with 1 in SL.
  destruct (FormatWithCurrentFlags_character st1 i P) as (st2 & E & M);
    [lia|lia|].
  assert (SF : string_field st1 [char_of i]
               = if LeftJustify st1 then char_of i :: pad else pad ++ [char_of i]).
  { unfold string_field. cbv zeta. change (len [char_of i]) with 1. fold pad.
    destruct (Z.ltb_spec 1 (width_ st1)) as [L|L]; [destruct (LeftJustify st1); reflexivity|].
    assert (pad = []) as -> by (unfold pad; replace (Z.to_nat (width_ st1 - 1)) with 0%nat by lia;
                                reflexivity).
    destruct (LeftJustify st1); reflexivity. }
  rewrite SF in M, SL. exists st2. split; [|split; [exact M|split]].
  - rewrite (call_integral st m a i I).
    rewrite (call_unsigned_long_leaders st st1 "c"%char i);
      [|lia|exact HL|exact P|discriminate].
    replace (short_value st1 "c"%char i) with i; [rewrite E; reflexivity|].
    unfold short_value. cbn [Ascii.eqb Bool.eqb orb]. rewrite andb_false_r. reflexivity.
  - destruct M as (A & _). rewrite A, Dev. reflexivity.
  - destruct M as (_ & R & _). rewrite R, Res, SL. reflexivity.
Qed.

End CharacterDirective.

Lemma character_directive_field_witness :
  let st : PrintfState std_string :=
    mkState empty (lit "%") (lit "03c" ++ [NUL]) 0 SIZE_MAX 0 0 in
  let st1 : PrintfState std_string :=
    mkState empty (lit "30%") (lit "c" ++ [NUL]) 3 SIZE_MAX fillZeros 0 in
  let pad := repeat " "%char (Z.to_nat (width_ st1 - 1)) in
  exists st2,
    call (FF := no_float_output) st (fun _ => 0) (a_char 65) = keep (fun _ => 0) (Next st2) /\
    emits st1 (if LeftJustify st1 then char_of (to_ulong 65) :: pad
               else pad ++ [char_of (to_ulong 65)]) st2 /\
    emitted (device_ st2)
    = emitted (device_ st)
      ++ (if LeftJustify st1 then char_of (to_ulong 65) :: pad
          else pad ++ [char_of (to_ulong 65)]) /\
    result_ st2 = result_ st + Z.max (width_ st1) 1.
Proof.
  intros st st1.
  refine (character_directive_field (SK := string_sink) (FF := no_float_output)
            st st1 (fun _ => 0) (a_char 65) (to_ulong 65) _ _ _ _ _).
  - simpl. lia.
  - reflexivity.
  - reflexivity.
  - reflexivity.
  - vm_compute. discriminate.
Defined.

(** ** Storing the count *)

Section StoreCount.
Context {Device : Type} {SK : Sink Device} {FF : FloatFormat} {UB : Unbounded Device}.
Local Abbreviation State := (PrintfState Device).

(** X19: on a directive that ends in [n], [StoreCountHelper] with a
    pointer that is not null stores the count of the characters sent before
    the directive, converted to the pointee type, at the pointee and nowhere
    else; the directive itself sends nothing, and the call goes on with
    the literal text behind it. *)
Theorem count_goes_to_the_pointee
  (st st1 : State) (m : Memory) (T : Pointee) (pi : Z) :
  0 <= result_ st ->
  ReadLeaders st = Ok st1 ->
  peek st1 = Ok "n"%char ->
  In NUL (format_ st1) ->
  pi <> 0 ->
  result_ st + len (format_ st1) <= INT_MAX ->
  exists st' m' o,
    StoreCountHelper st m T pi = Ok (st', m') /\
    m' pi = converted T (result_ st) /\
    (forall q, q <> pi -> m' q = m q) /\
    Next st1 = Ok st' /\
    emitted (device_ st') = emitted (device_ st) ++ o /\
    result_ st' = result_ st + len o.
Proof.
  intros H0 HL P Tm Hpi H1.
  destruct (ReadLeaders_output _ _ HL) as [Dev Res].
  destruct (Next_total st1 "n"%char P ltac:(discriminate) Tm) as (st' & o & N & M & R & _);
    [lia|lia|].
  exists st', (store m pi (converted T (result_ st1))), o.
  split; [|split; [|split; [|split; [exact N|split]]]].
  - unfold StoreCountHelper.
    destruct (Z.eqb_spec (result_ st) (-1)); [lia|].
    rewrite HL. cbn [bind]. rewrite P. cbn [bind Ascii.eqb Bool.eqb negb].
    destruct (Z.eqb_spec pi 0); [contradiction|]. rewrite N. reflexivity.
  - unfold store. rewrite Z.eqb_refl, Res. reflexivity.
  - intros q Hq. unfold store. destruct (Z.eqb_spec q pi); [contradiction|reflexivity].
  - rewrite M, Dev. reflexivity.
  - rewrite R, Res. reflexivity.
Qed.

End StoreCount.

Lemma count_goes_to_the_pointee_witness :
  let st : PrintfState std_string :=
    mkState (lit "abc") (lit "%cba") (lit "hn;" ++ [NUL]) 0 SIZE_MAX 0 40000 in
  let st1 : PrintfState std_string :=
    mkState (lit "abc") (lit "h%cba") (lit "n;" ++ [NUL]) 0 SIZE_MAX forceShort 40000 in
  exists st' m' o,
    StoreCountHelper st (fun _ => 0) to_short_obj 4096 = Ok (st', m') /\
    m' 4096 = converted to_short_obj (result_ st) /\
    (forall q, q <> 4096 -> m' q = (fun _ => 0) q) /\
    Next st1 = Ok st' /\
    emitted (device_ st') = emitted (device_ st) ++ o /\
    result_ st' = result_ st + len o.
Proof.
  intros st st1.
  refine (count_goes_to_the_pointee (SK := string_sink)
            st st1 (fun _ => 0) to_short_obj 4096 _ _ _ _ _ _).
  - simpl. lia.
  - reflexivity.
  - reflexivity.
  - simpl. tauto.
  - lia.
  - vm_compute. discriminate.
Defined.

(** ** Floating-point arguments *)

Section Floating.
Context {Device : Type} {SK : Sink Device} {FF : FloatFormat}.
Local Abbreviation State := (PrintfState Device).

Lemma call_floating (st : State) m a snp :
  snprintf_of a = Some snp ->
  result_ st <> -1 ->
  call st m a = keep m (PrintFloatingPoint st snp).
Proof.
  intros F R.
  destruct a; cbn [snprintf_of] in F; try discriminate; injection F as <-;
    cbn [call]; unfold call_double, call_long_double;
    destruct (Z.eqb_spec (result_ st) (-1)); try contradiction; reflexivity.
Qed.

(** X20: a floating-point argument on a directive whose conversion
    character is none of [e E f g G] sets the error sentinel; [snprintf] is
    not called and the device receives nothing. *)
Theorem floating_mismatch_latches
  (st st1 : State) (m : Memory) (a : Arg) snp (c : Char) b :
  snprintf_of a = Some snp ->
  result_ st <> -1 ->
  behind_ st = "%"%char :: b ->
  ReadLeaders st = Ok st1 ->
  peek st1 = Ok c ->
  strchr "eEfgG" c = false ->
  exists st', call st m a = Ok (st', m) /\
              result_ st' = -1 /\ device_ st' = device_ st /\
              format_ st' = format_ st1.
Proof.
  intros F R B HL P S.
  rewrite (call_floating st m a snp F R). unfold PrintFloatingPoint.
  rewrite B. cbn [Ascii.eqb Bool.eqb negb]. rewrite HL. cbn [bind].
  rewrite P. cbn [bind]. rewrite S. cbn [negb keep bind].
  eexists. split; [reflexivity|].
  destruct (ReadLeaders_output _ _ HL) as [Dev _].
  cbn [set_result result_ device_ format_]. auto.
Qed.

(** X22: a floating-point argument needs the cursor right behind the [%]
    of its directive.  After an argument was taken for a deferred width the
    cursor is behind the [*], and the floating-point argument that follows
    fails the assertion of [PrintFloatingPoint]. *)
Theorem floating_after_deferred_width_aborts
  (st st1 : State) (m : Memory) (w a : Arg) (i : Z) snp :
  result_ st <> -1 ->
  integral w = Some i ->
  snprintf_of a = Some snp ->
  ReadFlags st = Ok st1 ->
  peek st1 = Ok "*"%char ->
  exists st', call st m w = Ok (st', m) /\
              width_ st' = to_size_t i /\
              call st' m a = Aborted.
Proof.
  intros R I F HF P.
  assert (C : call st m w = Ok (step (SetWidth st1 (to_size_t i)), m)).
  { assert (K : call st m w = keep m (call_unsigned_long st i)).
    { destruct w; cbn [integral] in I; try discriminate; injection I as <-; reflexivity. }
    rewrite K. unfold call_unsigned_long.
    destruct (Z.eqb_spec (result_ st) (-1)); [contradiction|].
    rewrite HF. cbn [bind]. rewrite P. cbn [bind Ascii.eqb Bool.eqb keep]. reflexivity. }
  eexists. split; [exact C|].
  destruct (ReadFlags_output _ _ HF) as [_ Res].
  unfold peek in P. destruct (format_ st1) as [|c rest] eqn:Fm; [discriminate|].
  injection P as ->.
  assert (S1 : step (SetWidth st1 (to_size_t i))
               = seek (SetWidth st1 (to_size_t i)) ("*"%char :: behind_ st1) rest).
  { unfold step. cbn [SetWidth format_ behind_]. rewrite Fm. reflexivity. }
  rewrite S1. split; [reflexivity|].
  rewrite (call_floating _ m a snp F); [|cbn [seek SetWidth result_]; lia].
  unfold PrintFloatingPoint. cbn [seek behind_ Ascii.eqb Bool.eqb negb keep bind]. reflexivity.
Qed.

(** X21: a floating-point argument on the directive [% fl wd p md c] with
    [c] one of [e E f g G].  The text handed to [snprintf] as its format is
    the directive from its [%] to [c], as long as it has fewer than 128
    characters; a negative return of [snprintf] sets the error sentinel,
    and otherwise the contents of the result buffer up to its terminator
    are written and [Advance] goes on behind [c]. *)
Theorem floating_directive_goes_to_snprintf
  (st : State) (m : Memory) (a : Arg) snp b fl wd p md c rest :
  snprintf_of a = Some snp ->
  result_ st <> -1 ->
  behind_ st = "%"%char :: b ->
  format_ st = leaders_text fl wd p md ++ c :: rest ->
  forallb is_flag fl = true ->
  forallb isdigit wd = true ->
  is_flag (hd c wd) = false ->
  forallb isdigit (match p with Some ds => ds | None => [] end) = true ->
  existsb (Ascii.eqb c) (lit "eEfgG") = true ->
  len (leaders_text fl wd p md) + 2 < 128 ->
  let directive := "%"%char :: leaders_text fl wd p md ++ [c] in
  let st2 := step (after_leaders st fl wd p md (c :: rest)) in
  call st m a
  = keep m (if fst (snp directive) <? 0 then Ok (set_result st2 (-1))
            else st3 <- Write st2 (c_str (snd (snp directive))) ;; Advance st3).
Proof.
  intros F R B Fm Hfl Hwd Hw0 Hp Hc Hlen directive st2.
  assert (Lc : leader c = false /\ strchr "eEfgG" c = true /\ c <> NUL).
  { cbn [existsb lit list_ascii_of_string] in Hc.
    repeat (apply orb_true_iff in Hc; destruct Hc as [Hc|Hc]);
      try discriminate; apply Ascii.eqb_eq in Hc; subst c;
      (split; [reflexivity|split; [reflexivity|discriminate]]). }
  destruct Lc as (Lc & Sc & Nc).
  rewrite (call_floating st m a snp F R). f_equal. unfold PrintFloatingPoint.
  rewrite B. cbn [Ascii.eqb Bool.eqb negb].
  rewrite (ReadLeaders_text st fl wd p md c rest Fm Hfl Hwd Hw0 Hp Lc). cbn [bind].
  unfold peek at 1. cbn [after_leaders format_ bind]. rewrite Sc. cbn [negb].
  fold st2.
  assert (B2 : behind_ st2 = c :: rev (leaders_text fl wd p md) ++ "%"%char :: b).
  { unfold st2, step. cbn [after_leaders format_ behind_ seek]. rewrite B. reflexivity. }
  rewrite B2.
  set (L := leaders_text fl wd p md) in *.
  assert (N : (List.length (c :: rev L ++ "%"%char :: b) - List.length ("%"%char :: b) + 1)%nat
              = (List.length L + 2)%nat).
  { cbn [List.length]. rewrite length_app, length_rev. cbn [List.length]. lia. }
  rewrite N.
  destruct (Nat.leb_spec 128 (List.length L + 2)) as [G|G]; [unfold len in Hlen; lia|].
  assert (FB : rev (firstn (List.length L + 2) (c :: rev L ++ "%"%char :: b)) = directive).
  { replace (c :: rev L ++ "%"%char :: b) with ((c :: rev L ++ ["%"%char]) ++ b)
      by (cbn [app]; rewrite <- app_assoc; reflexivity).
    rewrite firstn_app.
    replace (List.length L + 2 - List.length (c :: rev L ++ ["%"%char]))%nat with 0%nat
      by (cbn [List.length]; rewrite length_app, length_rev; cbn [List.length]; lia).
    rewrite firstn_O, app_nil_r, firstn_all2
      by (cbn [List.length]; rewrite length_app, length_rev; cbn [List.length]; lia).
    cbn [rev]. rewrite rev_app_distr, rev_involutive. reflexivity. }
  rewrite FB.
  assert (CS : c_str directive = directive).
  { assert (G0 : forall l, Forall (fun x => x <> NUL) l -> c_str l = l).
    { induction l as [|x l IH]; intros H; [reflexivity|].
      inversion H; subst. cbn [c_str]. destruct (Ascii.eqb_spec x NUL); [contradiction|].
      f_equal. auto. }
    apply G0. unfold directive. constructor; [discriminate|].
    apply Forall_app. split; [|constructor; [exact Nc|constructor]].
    unfold L, leaders_text. repeat (apply Forall_app; split).
    - apply Forall_forall. intros x Hx Ex. subst x.
      rewrite forallb_forall in Hfl. specialize (Hfl _ Hx). discriminate.
    - apply Forall_forall. intros x Hx Ex. subst x.
      rewrite forallb_forall in Hwd. specialize (Hwd _ Hx). discriminate.
    - destruct p as [ds|]; cbn [precision_text]; [|constructor].
      constructor; [discriminate|].
      apply Forall_forall. intros x Hx Ex. subst x.
      rewrite forallb_forall in Hp. specialize (Hp _ Hx). discriminate.
    - destruct md; cbn [modifier_text]; repeat constructor; discriminate. }
  rewrite CS. destruct (snp directive) as [stored buf]. reflexivity.
Qed.

End Floating.

Lemma floating_mismatch_latches_witness :
  let st : PrintfState std_string :=
    mkState (lit "x=") (lit "%=x") (lit "5d" ++ [NUL]) 0 SIZE_MAX 0 2 in
  exists st', call (FF := no_float_output) st (fun _ => 0) (@a_double no_float_output tt) = Ok (st', fun _ => 0) /\
              result_ st' = -1 /\ device_ st' = device_ st /\
              format_ st' = lit "d" ++ [NUL].
Proof.
  intros st.
  refine (floating_mismatch_latches (SK := string_sink) (FF := no_float_output) st
            (mkState (lit "x=") (lit "5%=x") (lit "d" ++ [NUL]) 5 SIZE_MAX 0 2)
            (fun _ => 0) (@a_double no_float_output tt) (fun _ => (-1, [])) "d"%char (lit "=x") _ _ _ _ _ _).
  - reflexivity.
  - simpl. lia.
  - reflexivity.
  - reflexivity.
  - reflexivity.
  - reflexivity.
Defined.

Lemma floating_after_deferred_width_aborts_witness :
  let st : PrintfState std_string :=
    mkState empty (lit "%") (lit "*f" ++ [NUL]) 0 SIZE_MAX 0 0 in
  exists st', call (FF := no_float_output) st (fun _ => 0) (a_int 8) = Ok (st', fun _ => 0) /\
              width_ st' = to_size_t 8 /\
              call (FF := no_float_output) st' (fun _ => 0) (@a_double no_float_output tt) = Aborted.
Proof.
  intros st.
  refine (floating_after_deferred_width_aborts (SK := string_sink) (FF := no_float_output)
            st st (fun _ => 0) (a_int 8) (@a_double no_float_output tt) 8 (fun _ => (-1, [])) _ _ _ _ _).
  - simpl. lia.
  - reflexivity.
  - reflexivity.
  - reflexivity.
  - reflexivity.
Defined.

Lemma floating_directive_goes_to_snprintf_witness :
  let st : PrintfState std_string :=
    mkState empty (lit "%") (lit "-8.3f" ++ [NUL]) 0 SIZE_MAX 0 0 in
  let snp : list Char -> Z * list Char := fun _ => (-1, []) in
  let directive := "%"%char :: leaders_text (lit "-") (lit "8") (Some (lit "3")) no_modifier
                                ++ ["f"%char] in
  let st2 := step (after_leaders st (lit "-") (lit "8") (Some (lit "3")) no_modifier
                     ("f"%char :: [NUL])) in
  call (FF := no_float_output) st (fun _ => 0) (@a_double no_float_output tt)
  = keep (fun _ => 0)
      (if fst (snp directive) <? 0 then Ok (set_result st2 (-1))
       else st3 <- Write st2 (c_str (snd (snp directive))) ;; Advance st3).
Proof.
  intros st snp.
  refine (floating_directive_goes_to_snprintf (SK := string_sink) (FF := no_float_output)
            st (fun _ => 0) (@a_double no_float_output tt) snp [] (lit "-") (lit "8") (Some (lit "3"))
            no_modifier "f"%char [NUL] _ _ _ _ _ _ _ _ _ _).
  - reflexivity.
  - simpl. lia.
  - reflexivity.
  - reflexivity.
  - reflexivity.
  - reflexivity.
  - reflexivity.
  - reflexivity.
  - reflexivity.
  - vm_compute. reflexivity.
Defined.

(** ** The deferred precision *)

Section DeferredPrecision.
Context {Device : Type} {SK : Sink Device} {FF : FloatFormat}.
Local Abbreviation State := (PrintfState Device).

(** X11: where the flags and the width of a directive are followed by
    [.*], an argument of integer kind is not printed but becomes the
    precision, converted to [size_t]: the call moves the cursor behind the
    [*], keeps the flags and the width it has read and sends nothing.  The
    argument -1 gives [size_t(-1)], the mark of a precision that was not
    given. *)
Theorem deferred_precision_is_stored
  (st st1 st2 : State) (m : Memory) (a : Arg) (i : Z) (c : Char) rest :
  result_ st <> -1 ->
  integral a = Some i ->
  ReadFlags st = Ok st1 ->
  peek st1 = Ok c -> c <> "*"%char ->
  ReadWidth st1 = Ok st2 ->
  format_ st2 = "."%char :: "*"%char :: rest ->
  exists st', call st m a = Ok (st', m) /\
              prec_ st' = to_size_t i /\
              (a = a_int (-1) -> prec_ st' = SIZE_MAX) /\
              width_ st' = width_ st2 /\ flags_ st' = flags_ st2 /\
              format_ st' = rest /\
              behind_ st' = "*"%char :: "."%char :: behind_ st2 /\
              same_output st st'.
Proof.
  intros R I HF P Cs HW Fm.
  assert (K : call st m a = keep m (call_unsigned_long st i)).
  { destruct a; cbn [integral] in I; try discriminate; injection I as <-; reflexivity. }
  set (st3 := seek (SetPrec st2 (to_size_t i)) ("*"%char :: "."%char :: behind_ st2) rest).
  assert (S2 : step (step (SetPrec st2 (to_size_t i))) = st3).
  { unfold step at 2. cbn [SetPrec format_ behind_]. rewrite Fm.
    unfold step. cbn [seek format_ behind_]. reflexivity. }
  assert (C : call_unsigned_long st i = Ok st3).
  { unfold call_unsigned_long.
    destruct (Z.eqb_spec (result_ st) (-1)); [contradiction|].
    rewrite HF. cbn [bind]. rewrite P. cbn [bind].
    destruct (Ascii.eqb_spec c "*"); [contradiction|].
    rewrite HW. cbn [bind]. unfold peek, peek1. rewrite Fm.
    cbn [bind Ascii.eqb Bool.eqb]. rewrite S2. reflexivity. }
  exists st3. rewrite K, C. split; [reflexivity|].
  split; [reflexivity|]. split.
  { intros ->. cbn [integral] in I. injection I as <-. reflexivity. }
  split; [reflexivity|]. split; [reflexivity|]. split; [reflexivity|].
  split; [reflexivity|].
  apply (same_output_trans st st2 st3).
  - apply (same_output_trans st st1 st2);
      [apply ReadFlags_output; exact HF|apply ReadWidth_output; exact HW].
  - split; reflexivity.
Qed.

End DeferredPrecision.

Lemma deferred_precision_is_stored_witness :
  let st : PrintfState std_string :=
    mkState empty (lit "%") (lit "-8.*d" ++ [NUL]) 0 SIZE_MAX 0 0 in
  let st2 : PrintfState std_string :=
    mkState empty (lit "8-%") (lit ".*d" ++ [NUL]) 8 SIZE_MAX leftJustify 0 in
  exists st', call (FF := no_float_output) st (fun _ => 0) (a_int (-1)) = Ok (st', fun _ => 0) /\
              prec_ st' = to_size_t (to_ulong (-1)) /\
              (@a_int no_float_output (-1) = a_int (-1) -> prec_ st' = SIZE_MAX) /\
              width_ st' = width_ st2 /\ flags_ st' = flags_ st2 /\
              format_ st' = lit "d" ++ [NUL] /\
              behind_ st' = "*"%char :: "."%char :: behind_ st2 /\
              same_output st st'.
Proof.
  intros st st2.
  refine (deferred_precision_is_stored (SK := string_sink) (FF := no_float_output) st
            (mkState empty (lit "-%") (lit "8.*d" ++ [NUL]) 0 SIZE_MAX leftJustify 0)
            st2 (fun _ => 0) (a_int (-1)) (to_ulong (-1)) "8"%char (lit "d" ++ [NUL])
            _ _ _ _ _ _ _).
  - simpl. lia.
  - reflexivity.
  - reflexivity.
  - reflexivity.
  - discriminate.
  - reflexivity.
  - reflexivity.
Defined.

(** ** An integer argument always returns *)

Section Returning.
Context {Device : Type} {SK : Sink Device} {FF : FloatFormat} {UB : Unbounded Device}.
Local Abbreviation State := (PrintfState Device).

Lemma field_bounded (st : State) c i digits :
  len digits <= 16 ->
  len (field st c i digits) <= field_bound st.
Proof.
  intros Ld. rewrite field_length, printable_length. unfold field_bound.
  pose proof (len_nonneg digits) as L0.
  assert (count_base (with_conversion st c) c i
            (count_zeros (with_conversion st c) (len digits)) <= 2).
  { unfold count_base. destruct (_ && _); [|lia].
    destruct (_ =? 16); [lia|]. destruct (0 <? _); lia. }
  assert ((if negb (Ascii.eqb (sign_char (with_conversion st c) c i) NUL) then 1 else 0) <= 1)
    by (destruct (negb _); lia).
  assert (len digits + count_zeros (with_conversion st c) (len digits)
          <= 16 + (if prec_ st =? SIZE_MAX then 0 else Z.max 0 (prec_ st))).
  { unfold count_zeros. destruct (with_conversion_flags st c) as (_ & _ & _ & _ & _ & _ & ->).
    destruct (Z.eqb_spec (prec_ st) SIZE_MAX); cbn [negb andb]; [lia|].
    destruct (Z.ltb_spec (len digits) (prec_ st)); cbn [andb]; lia. }
  lia.
Qed.

Lemma short_value_range (st : State) c i :
  0 <= i < WORD -> 0 <= short_value st c i < WORD.
Proof.
  intros Hi. unfold short_value, to_ulong, to_ushort.
  destruct (_ && _); [|exact Hi].
  pose proof (Z.mod_pos_bound i 65536 eq_refl).
  unfold WORD. rewrite Z.mod_small; lia.
Qed.

(** [FormatWithCurrentFlags] on a character of a terminated format that
    is not the terminator: it returns, with the error sentinel or with at
    least one character sent and counted and the directive state reset, and
    the cursor is on a character of the format array. *)
Lemma FormatWithCurrentFlags_returns (st1 : State) (v : Z) (c : Char) :
  peek st1 = Ok c ->
  c <> NUL ->
  In NUL (format_ st1) ->
  0 <= v < WORD ->
  0 <= result_ st1 ->
  width_ st1 < WORD ->
  result_ st1 + field_bound st1 + len (format_ st1) <= INT_MAX ->
  exists st',
    FormatWithCurrentFlags st1 v = Ok st' /\
    In NUL (format_ st') /\
    len (format_ st') <= len (format_ st1) /\
    (result_ st' = -1 /\ device_ st' = device_ st1 \/
     exists o, emitted (device_ st') = emitted (device_ st1) ++ o /\
               result_ st' = result_ st1 + len o /\ 1 <= len o /\
               width_ st' = 0 /\ prec_ st' = SIZE_MAX /\ flags_ st' = 0).
Proof.
  intros P Nc T1 Hv H0 Hw H1.
  pose proof (len_nonneg (format_ st1)) as Lf0.
  assert (finish : forall st2 out,
            FormatWithCurrentFlags st1 v = Next st2 ->
            emits st1 out st2 ->
            1 <= len out <= field_bound st1 ->
            exists st', FormatWithCurrentFlags st1 v = Ok st' /\
              In NUL (format_ st') /\ len (format_ st') <= len (format_ st1) /\
              (result_ st' = -1 /\ device_ st' = device_ st1 \/
               exists o, emitted (device_ st') = emitted (device_ st1) ++ o /\
                         result_ st' = result_ st1 + len o /\ 1 <= len o /\
                         width_ st' = 0 /\ prec_ st' = SIZE_MAX /\ flags_ st' = 0)).
  { intros st2 out E (M & R & B & F) Lo.
    destruct (Next_total st2 c) as (st' & o & N & M' & R' & L' & T' & W').
    - unfold peek in *. rewrite F. exact P.
    - exact Nc.
    - rewrite F. exact T1.
    - lia.
    - rewrite F. lia.
    - exists st'. rewrite E. split; [exact N|]. split; [exact T'|].
      split; [rewrite F in L'; pose proof (len_nonneg o); lia|].
      right. exists (out ++ o). rewrite M', M, app_assoc, len_app.
      split; [reflexivity|]. pose proof (len_nonneg o).
      split; [lia|]. split; [lia|exact W']. }
  destruct (existsb (Ascii.eqb c) (lit "cdiuoxXp")) eqn:K.
  - assert (K' : c = "c"%char \/ numeric c = true).
    { cbn [existsb lit list_ascii_of_string] in K. apply orb_true_iff in K.
      destruct K as [K|K]; [left; apply Ascii.eqb_eq; exact K|right; exact K]. }
    destruct K' as [->|N].
    + pose proof (string_field_length st1 [char_of v]) as SL.
      change (len [char_of v]) with 1 in SL.
      assert (B1 : Z.max (width_ st1) 1 <= field_bound st1).
      { unfold field_bound. destruct (prec_ st1 =? SIZE_MAX); lia. }
      destruct (FormatWithCurrentFlags_character st1 v P) as (st2 & E & M); [lia|lia|].
      apply (finish st2 _ E M). lia.
    + destruct (rendered_returns c v Hv) as (digits & R & Ne & Ld).
      pose proof (field_bounded st1 c v digits Ld) as FB.
      destruct (FormatWithCurrentFlags_field st1 c v digits P (numeric_passes c N) R Hw)
        as (st2 & E & M); [lia|lia|].
      apply (finish st2 _ E M). split; [|exact FB].
      rewrite field_length, printable_length.
      assert (1 <= len digits).
      { destruct digits; [contradiction|]. rewrite len_cons.
        pose proof (len_nonneg digits). lia. }
      assert (0 <= count_zeros (with_conversion st1 c) (len digits)).
      { unfold count_zeros.
        destruct (Z.ltb_spec (len digits) (prec_ (with_conversion st1 c)));
          destruct (negb _); cbn [andb]; lia. }
      assert (0 <= count_base (with_conversion st1 c) c v
                     (count_zeros (with_conversion st1 c) (len digits))).
      { unfold count_base. destruct (_ && _); [|lia].
        destruct (_ =? 16); [lia|]. destruct (0 <? _); lia. }
      match goal with |- context [if negb ?b then 1 else 0] => destruct (negb b) end.
      all: lia.
  - rewrite (FormatWithCurrentFlags_rejects st1 c v P K Nc).
    eexists. split; [reflexivity|].
    cbn [set_result format_ result_ device_]. split; [exact T1|]. split; [lia|].
    left. auto.
Qed.


(** X23: on a device whose [write] always returns, an argument of integer
    kind on a directive of a terminated format always returns, whatever the
    conversion character is, as long as it is a character of the format and
    the count has room for the field and the rest of the format: no
    assertion fails and nothing is read past the terminator.  The call
    leaves either the error sentinel and the device as it was, or it has
    sent and counted at least one character and reset width, precision and
    flags for the next directive; the cursor is on a character of the
    format array. *)
Theorem integer_call_returns
  (st st1 : State) (m : Memory) (a : Arg) (i : Z) (c : Char) :
  integral a = Some i ->
  0 <= i < WORD ->
  In NUL (format_ st) ->
  ReadLeaders st = Ok st1 ->
  peek st1 = Ok c ->
  c <> NUL -> c <> "*"%char ->
  0 <= result_ st ->
  width_ st1 < WORD ->
  result_ st + field_bound st1 + len (format_ st1) <= INT_MAX ->
  exists st',
    call st m a = Ok (st', m) /\
    In NUL (format_ st') /\
    len (format_ st') <= len (format_ st1) /\
    (result_ st' = -1 /\ device_ st' = device_ st \/
     exists o, emitted (device_ st') = emitted (device_ st) ++ o /\
               result_ st' = result_ st + len o /\ 1 <= len o /\
               width_ st' = 0 /\ prec_ st' = SIZE_MAX /\ flags_ st' = 0).
Proof.
  intros I Hi T HL P Nc Sc H0 Hw H1.
  destruct (ReadLeaders_returns st T) as (st1' & c' & HL' & _ & T1).
  rewrite HL in HL'. injection HL' as <-.
  destruct (ReadLeaders_output _ _ HL) as [Dev Res].
  rewrite (call_integral st m a i I).
  rewrite (call_unsigned_long_leaders st st1 c i) by (try assumption; lia).
  destruct (FormatWithCurrentFlags_returns st1 (short_value st1 c i) c P Nc T1
              (short_value_range st1 c i Hi))
    as (st' & E & T' & L' & K); [lia|exact Hw|lia|].
  exists st'. rewrite E, <- Dev, <- Res. auto.
Qed.


End Returning.

Lemma integer_call_returns_witness :
  let st : PrintfState std_string :=
    mkState (lit "n=") (lit "%=n") (lit "08x; %s" ++ [NUL]) 0 SIZE_MAX 0 2 in
  let st1 : PrintfState std_string :=
    mkState (lit "n=") (lit "80%=n") (lit "x; %s" ++ [NUL]) 8 SIZE_MAX fillZeros 2 in
  exists st',
    call (FF := no_float_output) st (fun _ => 0) (a_unsigned 48879) = Ok (st', fun _ => 0) /\
    In NUL (format_ st') /\
    len (format_ st') <= len (format_ st1) /\
    (result_ st' = -1 /\ device_ st' = device_ st \/
     exists o, emitted (device_ st') = emitted (device_ st) ++ o /\
               result_ st' = result_ st + len o /\ 1 <= len o /\
               width_ st' = 0 /\ prec_ st' = SIZE_MAX /\ flags_ st' = 0).
Proof.
  intros st st1.
  refine (integer_call_returns (SK := string_sink) (FF := no_float_output)
            st st1 (fun _ => 0) (a_unsigned 48879) 48879 "x"%char _ _ _ _ _ _ _ _ _ _).
  - reflexivity.
  - unfold WORD. lia.
  - simpl. tauto.
  - reflexivity.
  - reflexivity.
  - discriminate.
  - discriminate.
  - simpl. lia.
  - simpl. unfold WORD. lia.
  - vm_compute. discriminate.
Defined.


(** ** Output past the range of the count *)

Section Overflow.
Context {Device : Type} {SK : Sink Device} {FF : FloatFormat} {UB : Unbounded Device}.
Local Abbreviation State := (PrintfState Device).

Lemma overflows_Write (l : list Char) : overflows (fun st : State => Write st l) l.
Proof.
  intros st H0 H1. unfold Write.
  destruct (Z.ltb_spec (result_ st) 0); [lia|].
  destruct (write_returns (device_ st) l) as [d ->]. cbn [bind].
  destruct (Z.leb_spec (result_ st + len l) INT_MAX); [lia|reflexivity].
Qed.

Lemma overflows_skip : overflows (fun st : State => Ok st) [].
Proof. intros st H0 H1. change (len (@nil Char)) with 0 in H1. lia. Qed.

Lemma overflows_seq (f g : State -> outcome State) o1 o2 :
  emitter f o1 -> overflows f o1 -> overflows g o2 ->
  overflows (fun st => st' <- f st ;; g st') (o1 ++ o2).
Proof.
  intros Ef Of Og st H0 H1. rewrite len_app in H1.
  destruct (Z.leb_spec (result_ st + len o1) INT_MAX) as [L|L].
  - destruct (Ef st) as (d & -> & _); [lia|exact L|]. cbn [bind].
    pose proof (len_nonneg o1).
    apply Og; cbn [put set_result set_device result_]; lia.
  - rewrite (Of st H0 L). reflexivity.
Qed.

Lemma overflows_then (f K : State -> outcome State) o :
  overflows f o -> overflows (fun st => st' <- f st ;; K st') o.
Proof. intros Of st H0 H1. rewrite (Of st H0 H1). reflexivity. Qed.

Lemma overflows_Fill_loop (c : Char) (n : nat) :
  overflows (fun st : State => Fill_loop st c n) (repeat c n).
Proof.
  induction n as [|n IH]; [apply overflows_skip|].
  cbn [Fill_loop repeat]. change (c :: repeat c n) with ([c] ++ repeat c n).
  apply overflows_seq; [apply emitter_Write|apply overflows_Write|exact IH].
Qed.

Lemma overflows_Fill (c : Char) (n : Z) :
  overflows (fun st : State => Fill st c n) (repeat c (Z.to_nat n)).
Proof. apply overflows_Fill_loop. Qed.

Lemma overflows_if (b : bool) (f g : State -> outcome State) o1 o2 :
  overflows f o1 -> overflows g o2 ->
  overflows (fun st => if b then f st else g st) (if b then o1 else o2).
Proof. destruct b; auto. Qed.

Lemma print_counted_overflows pl sc cb fc cz digits pr :
  overflows (fun st : State => print_counted st pl sc cb fc cz digits pr)
            (counted_text pl sc cb fc cz digits pr).
Proof.
  unfold print_counted, counted_text.
  apply overflows_seq; [apply emitter_Fill|apply overflows_Fill|].
  apply overflows_seq;
    [apply emitter_if; [apply emitter_Write|apply emitter_skip]
    |apply overflows_if; [apply overflows_Write|apply overflows_skip]|].
  apply overflows_seq;
    [apply (emitter_if _ (fun st => Fill st "0"%char 1) _ ["0"%char]);
       [apply (emitter_Fill "0"%char 1)|apply emitter_skip]
    |apply (overflows_if _ (fun st => Fill st "0"%char 1) _ ["0"%char]);
       [apply (overflows_Fill "0"%char 1)|apply overflows_skip]|].
  apply overflows_seq;
    [apply (emitter_if _ (fun st => Fill st fc 1) _ [fc]);
       [apply (emitter_Fill fc 1)|apply emitter_skip]
    |apply (overflows_if _ (fun st => Fill st fc 1) _ [fc]);
       [apply (overflows_Fill fc 1)|apply overflows_skip]|].
  apply overflows_seq; [apply emitter_Fill|apply overflows_Fill|].
  apply overflows_seq; [apply emitter_Write|apply overflows_Write|].
  apply overflows_then. apply overflows_Fill.
Qed.

(** A numeric field that the count has no room for. *)
Lemma FormatWithCurrentFlags_overflows (st : State) c i digits :
  peek st = Ok c ->
  passes c = true ->
  rendered c i = Ok digits ->
  width_ st < WORD ->
  len (printable st c i digits) < WORD ->
  0 <= result_ st <= INT_MAX ->
  INT_MAX < result_ st + len (field st c i digits) ->
  FormatWithCurrentFlags st i = Undefined.
Proof.
  intros P N R Hw Hp' H0 H1.
  rewrite (FormatWithCurrentFlags_numeric st c i digits P N R). cbv zeta.
  pose proof (len_nonneg (printable st c i digits)) as Hp.
  rewrite <- printable_length.
  rewrite Z.mod_small by lia.
  destruct (with_conversion_flags st c) as (LJ & _ & _ & FZ & _ & W & PR).
  rewrite LJ, FZ, W, PR.
  assert (finish : forall pl cz pr,
    field st c i digits
    = repeat " "%char (Z.to_nat pl) ++ sign_text st c i ++ base_prefix st c i digits
      ++ repeat "0"%char (Z.to_nat cz) ++ digits ++ repeat " "%char (Z.to_nat pr) ->
    print_counted (with_conversion st c) pl (sign_char (with_conversion st c) c i)
      (count_base (with_conversion st c) c i
         (count_zeros (with_conversion st c) (len digits)))
      (conversion c) cz digits pr = Undefined).
  { intros pl cz pr E.
    rewrite <- counted_text_eq in E.
    apply print_counted_overflows; rewrite with_conversion_output; [exact H0|].
    rewrite <- E. exact H1. }
  unfold field in *. cbv zeta in *. unfold printable in finish |- *.
  destruct (count_zeros_text st c digits) as [Z1 Z2].
  destruct (Z.ltb_spec (len (printable st c i digits)) (width_ st)) as [L|L];
    unfold printable in L;
    [destruct (Z.ltb_spec (len (sign_text st c i ++ base_prefix st c i digits
                                  ++ precision_zeros st digits ++ digits)) (width_ st)); [|lia]
    |destruct (Z.ltb_spec (len (sign_text st c i ++ base_prefix st c i digits
                                  ++ precision_zeros st digits ++ digits)) (width_ st)); [lia|]];
    destruct (LeftJustify st);
    destruct (FillZeros st && (prec_ st =? SIZE_MAX)) eqn:ZF;
    apply finish;
    try (apply andb_prop in ZF; destruct ZF as [_ ZF];
         unfold precision_zeros; rewrite ZF; cbn [negb andb]);
    try rewrite Z1;
    cbn [Z.to_nat repeat app]; rewrite <- ?app_assoc, ?app_nil_r; reflexivity.
Qed.

(** X24: an argument of integer kind on a numeric directive whose field
    the count has no room for: on a device whose [write] always returns the
    call does not report an error, it runs into the signed overflow of the
    count. *)
Theorem field_past_the_count_is_undefined
  (st st1 : State) (m : Memory) (a : Arg) (i : Z) (c : Char) digits :
  0 <= result_ st <= INT_MAX ->
  ReadLeaders st = Ok st1 ->
  peek st1 = Ok c ->
  numeric c = true ->
  integral a = Some i ->
  rendered c (short_value st1 c i) = Ok digits ->
  width_ st1 < WORD ->
  len (printable st1 c (short_value st1 c i) digits) < WORD ->
  INT_MAX < result_ st + len (field st1 c (short_value st1 c i) digits) ->
  call st m a = Undefined.
Proof.
  intros H0 HL P N I R Hw Hp H1.
  destruct (ReadLeaders_output _ _ HL) as [_ Res].
  rewrite (call_integral st m a i I).
  rewrite (call_unsigned_long_leaders st st1 c i); [|lia|exact HL|exact P|].
  - rewrite (FormatWithCurrentFlags_overflows st1 c _ digits P (numeric_passes c N) R Hw Hp);
      [reflexivity|rewrite Res; exact H0|rewrite Res; exact H1].
  - intros ->. discriminate.
Qed.

(** X25: a negative [int] taken as the deferred width of [%*d] becomes a
    width of [2^32] plus its value, and the field of the integer argument
    that follows is longer than the count can tell: the two calls together
    are undefined. *)
Theorem negative_width_pads_past_the_count
  (dev : Device) (m : Memory) (w v : Z) :
  INT_MIN <= w < 0 ->
  LONG_MIN <= v <= LONG_MAX ->
  exists (st st1 : State),
    construct dev (lit "%*d") = Ok st /\
    call st m (a_int w) = Ok (st1, m) /\
    width_ st1 = WORD + w /\
    call st1 m (a_long v) = Undefined.
Proof.
  intros Hw Hv.
  destruct (Advance_literal (mkState dev [] (lit "%*d" ++ [NUL]) 0 0 0 0)
              [] [] (lit "%*d" ++ [NUL]) ["%"%char] (lit "*d" ++ [NUL])
              literal_end (stops_at_directive "*"%char (lit "d" ++ [NUL]) ltac:(discriminate))
              eq_refl)
    as (d0 & E0 & _); [cbn; lia | cbn; unfold INT_MAX; lia |].
  assert (W : to_size_t (to_ulong w) = WORD + w).
  { unfold to_size_t, to_ulong, WORD, INT_MIN in *. rewrite Z.mod_mod by lia.
    symmetry. apply Z.mod_unique with (q := -1); lia. }
  exists (mkState d0 ["%"%char] ["*"%char; "d"%char; NUL] 0 SIZE_MAX 0 0),
         (mkState d0 ["*"%char; "%"%char] ["d"%char; NUL] (WORD + w) SIZE_MAX 0 0).
  split; [exact E0|]. split; [|split; [reflexivity|]].
  - cbn [call]. unfold forward, call_unsigned_long, keep.
    cbn [result_ Z.eqb].
    change (ReadFlags (mkState d0 ["%"%char] ["*"%char; "d"%char; NUL] 0 SIZE_MAX 0 0))
      with (Ok (mkState d0 ["%"%char] ["*"%char; "d"%char; NUL] 0 SIZE_MAX 0 0)).
    cbn [bind peek format_ Ascii.eqb Bool.eqb].
    unfold step. cbn [SetWidth format_ behind_ seek device_ width_ prec_ flags_ result_].
    rewrite W. reflexivity.
  - destruct (rendered_decimal "d"%char v ltac:(auto) Hv) as (digits & R & A & B & _).
    set (st1 := mkState d0 ["*"%char; "%"%char] ["d"%char; NUL] (WORD + w) SIZE_MAX 0 0).
    pose proof (len_nonneg digits) as Ld.
    assert (Lp : len (printable st1 "d"%char (to_ulong v) digits) <= 17).
    { unfold printable, sign_text, base_prefix, precision_zeros.
      cbn [is_signed Ascii.eqb Bool.eqb orb andb negb prec_ st1 app].
      change (SIZE_MAX =? SIZE_MAX) with true. cbn [negb andb app].
      change (alternate st1 "d"%char) with false. cbn [andb app].
      rewrite len_app.
      destruct (to_long (to_ulong v) <? 0); [|destruct (ShowSignAlways st1); [|destruct (Blank st1)]];
        rewrite ?len_cons; change (len (@nil Char)) with 0; lia. }
    pose proof (len_nonneg (printable st1 "d"%char (to_ulong v) digits)) as Lp0.
    rewrite (call_integral st1 m (a_long v) (to_ulong v) eq_refl).
    rewrite (call_unsigned_long_leaders st1 st1 "d"%char (to_ulong v));
      [|cbn; lia|apply (ReadLeaders_none st1 "d"%char eq_refl eq_refl)|reflexivity|discriminate].
    replace (short_value st1 "d"%char (to_ulong v)) with (to_ulong v) by reflexivity.
    rewrite (FormatWithCurrentFlags_overflows st1 "d"%char (to_ulong v) digits eq_refl eq_refl R);
      [reflexivity| | | |].
    + cbn [width_ st1]. unfold WORD. lia.
    + unfold WORD. lia.
    + cbn. unfold INT_MAX. lia.
    + rewrite field_length. cbn [width_ result_ st1].
      unfold WORD, INT_MIN, INT_MAX in *. lia.
Qed.

End Overflow.

Lemma field_past_the_count_is_undefined_witness :
  let st : PrintfState std_string :=
    mkState empty (lit "%") (lit "5d" ++ [NUL]) 0 SIZE_MAX 0 2147483645 in
  let st1 : PrintfState std_string :=
    mkState empty (lit "5%") (lit "d" ++ [NUL]) 5 SIZE_MAX 0 2147483645 in
  call (FF := no_float_output) st (fun _ => 0) (a_int 7) = Undefined.
Proof.
  intros st st1.
  refine (field_past_the_count_is_undefined (SK := string_sink) (FF := no_float_output)
            st st1 (fun _ => 0) (a_int 7) 7 "d"%char (lit "7") _ _ _ _ _ _ _ _ _).
  - simpl. unfold INT_MAX. lia.
  - reflexivity.
  - reflexivity.
  - reflexivity.
  - reflexivity.
  - reflexivity.
  - simpl. unfold WORD. lia.
  - vm_compute. reflexivity.
  - vm_compute. reflexivity.
Defined.

Lemma negative_width_pads_past_the_count_witness :
  exists (st st1 : PrintfState std_string),
    construct empty (lit "%*d") = Ok st /\
    call (FF := no_float_output) st (fun _ => 0) (a_int (-8)) = Ok (st1, fun _ => 0) /\
    width_ st1 = WORD + -8 /\
    call (FF := no_float_output) st1 (fun _ => 0) (a_long 5) = Undefined.
Proof.
  refine (negative_width_pads_past_the_count (SK := string_sink) (FF := no_float_output)
            empty (fun _ => 0) (-8) 5 _ _).
  - unfold INT_MIN. lia.
  - unfold LONG_MIN, LONG_MAX. lia.
Defined.

(** ** Further closed instances *)

Lemma Next_over_the_end_witness :
  Next (mkState empty (lit "%") [NUL] 0 SIZE_MAX 0 2) = Undefined.
Proof.
  refine (Next_over_the_end (SK := string_sink)
            (mkState empty (lit "%") [NUL] 0 SIZE_MAX 0 2) NUL _ _).
  - reflexivity.
  - unfold EOF. simpl. lia.
Defined.

Lemma incomplete_directive_prints_integer_witness :
  let st : PrintfState std_string :=
    mkState empty (lit "%") [NUL; NUL] 0 SIZE_MAX 0 0 in
  exists digits,
    RenderWithoutSign_ulong (bufSize - 1) 42 10 false [] = Ok digits /\
    (result_ st + len (field st NUL 42 digits) <= INT_MAX ->
     exists st2,
       call (FF := no_float_output) st (fun _ => 0) (a_int 42)
       = keep (fun _ => 0) (Next st2) /\
       emits st (field st NUL 42 digits) st2 /\
       0 <= result_ st2).
Proof.
  intros st.
  refine (incomplete_directive_prints_integer (SK := string_sink) (FF := no_float_output)
            st st (fun _ => 0) (a_int 42) 42 _ _ _ _ _ _).
  - simpl. lia.
  - reflexivity.
  - reflexivity.
  - reflexivity.
  - unfold WORD. lia.
  - simpl. unfold WORD. lia.
Defined.

(** ** Arguments beyond the directives *)

Section Surplus.
Context {Device : Type} {SK : Sink Device} {FF : FloatFormat} {UB : Unbounded Device}.
Local Abbreviation State := (PrintfState Device).

(** X26: an argument of integer kind for which the format has no directive
    left.  With the cursor on the terminator, the last cell of the format
    array, and the directive state as [Advance] has reset it, the call is
    undefined: the value is printed as an unsigned decimal and [Next] then
    moves the cursor past the array, where [Advance] reads. *)
Theorem surplus_integer_argument_is_undefined
  (st : State) (m : Memory) (a : Arg) (i : Z) :
  integral a = Some i ->
  0 <= i < WORD ->
  format_ st = [NUL] ->
  width_ st = 0 -> prec_ st = SIZE_MAX -> flags_ st = 0 ->
  0 <= result_ st ->
  result_ st + 16 <= INT_MAX ->
  call st m a = Undefined.
Proof.
  intros I Hi F W Pr Fl H0 H1.
  assert (P : peek st = Ok NUL) by (unfold peek; rewrite F; reflexivity).
  destruct (rendered_returns NUL i Hi) as (digits & R & _ & Ld).
  assert (Fd : field st NUL i digits = digits).
  { rewrite (bare_field st NUL i digits W Pr (or_introl Fl)). reflexivity. }
  destruct (FormatWithCurrentFlags_field st NUL i digits P eq_refl R)
    as (st2 & E & M & R2 & B2 & F2).
  { rewrite W. unfold WORD. lia. } { exact H0. } { rewrite Fd. lia. }
  rewrite (call_integral st m a i I).
  rewrite (call_unsigned_long_leaders st st NUL i);
    [|lia|exact (ReadLeaders_none st NUL P eq_refl)|exact P|discriminate].
  replace (short_value st NUL i) with i.
  - rewrite E. unfold Next, step. rewrite F2, F. unfold Advance, ResetAll.
    cbn [seek result_ format_ behind_].
    destruct (Z.eqb_spec (result_ st2) EOF) as [X|X]; [|reflexivity].
    rewrite R2 in X. pose proof (len_nonneg (field st NUL i digits)). unfold EOF in X. lia.
  - unfold short_value, ForceShort, has. rewrite Fl. reflexivity.
Qed.

(** X27: a floating-point argument for which the format has no directive
    left.  After the construction on a format of plain text the cursor is
    behind the last character of the text, which is no [%], and the call
    fails the assertion of [PrintFloatingPoint]; on the empty format the
    character in front of the cursor lies before the array. *)
Theorem surplus_floating_argument_aborts
  (dev : Device) (m : Memory) (a : Arg) snp (text : list Char) :
  snprintf_of a = Some snp ->
  Forall (fun c => c <> "%"%char /\ c <> NUL) text ->
  len text <= INT_MAX ->
  exists st : State,
    construct dev text = Ok st /\
    emitted (device_ st) = emitted dev ++ text /\
    call st m a = match text with [] => Undefined | _ :: _ => Aborted end.
Proof.
  intros Sn Hp Ht.
  unfold construct, Advance, ResetAll. cbn [result_ Z.eqb EOF bind format_ behind_].
  rewrite (Advance_loop_plain text _ [] [] [NUL] [] [NUL] Hp (stops_at_end [])).
  cbn [app]. unfold Write. cbn [result_ device_ Z.ltb Z.compare].
  destruct (write_returns dev text) as [d Wd]. rewrite Wd. cbn [bind Z.add].
  destruct (Z.leb_spec (len text) INT_MAX); [|lia]. cbn [bind].
  eexists. split; [reflexivity|].
  cbn [seek set_result set_device device_].
  split; [exact (write_emits dev text d Wd)|].
  rewrite (call_floating _ m a snp Sn);
    [|cbn [seek set_result set_device result_]; pose proof (len_nonneg text); lia].
  unfold PrintFloatingPoint. cbn [seek set_result set_device behind_]. rewrite app_nil_r.
  destruct text as [|c text]; [reflexivity|].
  destruct (rev (c :: text)) as [|b bs] eqn:Rv.
  { apply (f_equal (@List.length Char)) in Rv. rewrite length_rev in Rv. discriminate. }
  assert (Hb : In b (c :: text)).
  { apply in_rev. rewrite Rv. left. reflexivity. }
  rewrite Forall_forall in Hp. destruct (Hp b Hb) as [Nb _].
  destruct (Ascii.eqb_spec b "%"); [contradiction|]. reflexivity.
Qed.

End Surplus.

Section LongDirective.
Context {Device : Type} {SK : Sink Device} {FF : FloatFormat}.
Local Abbreviation State := (PrintfState Device).

(** X28: a floating-point directive of 128 characters or more, from its
    [%] to its conversion character, is not handed to [snprintf]: the call
    sets the error sentinel and the device receives nothing, so the 128
    cells of the copy of the directive are never exceeded. *)
Theorem long_floating_directive_latches
  (st : State) (m : Memory) (a : Arg) snp b fl wd p md c rest :
  snprintf_of a = Some snp ->
  result_ st <> -1 ->
  behind_ st = "%"%char :: b ->
  format_ st = leaders_text fl wd p md ++ c :: rest ->
  forallb is_flag fl = true ->
  forallb isdigit wd = true ->
  is_flag (hd c wd) = false ->
  forallb isdigit (match p with Some ds => ds | None => [] end) = true ->
  existsb (Ascii.eqb c) (lit "eEfgG") = true ->
  128 <= len (leaders_text fl wd p md) + 2 ->
  exists st',
    call st m a = Ok (st', m) /\
    result_ st' = -1 /\ device_ st' = device_ st /\ format_ st' = rest.
Proof.
  intros F R B Fm Hfl Hwd Hw0 Hp Hc Hlen.
  assert (Lc : leader c = false /\ strchr "eEfgG" c = true).
  { cbn [existsb lit list_ascii_of_string] in Hc.
    repeat (apply orb_true_iff in Hc; destruct Hc as [Hc|Hc]);
      try discriminate; apply Ascii.eqb_eq in Hc; subst c; split; reflexivity. }
  destruct Lc as (Lc & Sc).
  rewrite (call_floating st m a snp F R). unfold PrintFloatingPoint.
  rewrite B. cbn [Ascii.eqb Bool.eqb negb].
  rewrite (ReadLeaders_text st fl wd p md c rest Fm Hfl Hwd Hw0 Hp Lc). cbn [bind].
  unfold peek at 1. cbn [after_leaders format_ bind]. rewrite Sc. cbn [negb].
  set (st2 := step (after_leaders st fl wd p md (c :: rest))).
  assert (B2 : behind_ st2 = c :: rev (leaders_text fl wd p md) ++ "%"%char :: b).
  { unfold st2, step. cbn [after_leaders format_ behind_ seek]. rewrite B. reflexivity. }
  rewrite B2.
  set (L := leaders_text fl wd p md) in *.
  assert (N : (List.length (c :: rev L ++ "%"%char :: b) - List.length ("%"%char :: b) + 1)%nat
              = (List.length L + 2)%nat).
  { cbn [List.length]. rewrite length_app, length_rev. cbn [List.length]. lia. }
  rewrite N.
  destruct (Nat.leb_spec 128 (List.length L + 2)) as [G|G]; [|unfold len in Hlen; lia].
  cbn [keep bind]. eexists. split; [reflexivity|].
  unfold st2, step. cbn [after_leaders format_ behind_ seek set_result result_ device_].
  auto.
Qed.

End LongDirective.

Lemma surplus_integer_argument_is_undefined_witness :
  call (FF := no_float_output)
    (mkState (lit "abc") (lit "cba") [NUL] 0 SIZE_MAX 0 3) (fun _ => 0) (a_int 42)
  = Undefined.
Proof.
  refine (surplus_integer_argument_is_undefined (SK := string_sink) (FF := no_float_output)
            (mkState (lit "abc") (lit "cba") [NUL] 0 SIZE_MAX 0 3) (fun _ => 0) (a_int 42) 42
            _ _ _ _ _ _ _ _).
  - reflexivity.
  - unfold WORD. lia.
  - reflexivity.
  - reflexivity.
  - reflexivity.
  - reflexivity.
  - simpl. lia.
  - simpl. unfold INT_MAX. lia.
Defined.

Lemma surplus_floating_argument_aborts_witness :
  exists st : PrintfState std_string,
    construct empty (lit "abc") = Ok st /\
    emitted (device_ st) = emitted empty ++ lit "abc" /\
    call (FF := no_float_output) st (fun _ => 0) (@a_double no_float_output tt) = Aborted.
Proof.
  refine (surplus_floating_argument_aborts (SK := string_sink) (FF := no_float_output)
            empty (fun _ => 0) (@a_double no_float_output tt) (fun _ => (-1, [])) (lit "abc")
            _ _ _).
  - reflexivity.
  - repeat constructor; discriminate.
  - vm_compute. discriminate.
Defined.

Lemma long_floating_directive_latches_witness :
  let wd := repeat "1"%char 126 in
  let st : PrintfState std_string :=
    mkState empty (lit "%") (wd ++ lit "f" ++ [NUL]) 0 SIZE_MAX 0 0 in
  exists st',
    call (FF := no_float_output) st (fun _ => 0) (@a_double no_float_output tt)
    = Ok (st', fun _ => 0) /\
    result_ st' = -1 /\ device_ st' = device_ st /\ format_ st' = [NUL].
Proof.
  intros wd st.
  refine (long_floating_directive_latches (SK := string_sink) (FF := no_float_output)
            st (fun _ => 0) (@a_double no_float_output tt) (fun _ => (-1, [])) []
            [] wd None no_modifier "f"%char [NUL] _ _ _ _ _ _ _ _ _ _).
  - reflexivity.
  - simpl. lia.
  - reflexivity.
  - unfold st, leaders_text. cbn [format_ app precision_text modifier_text].
    rewrite app_nil_r. reflexivity.
  - reflexivity.
  - reflexivity.
  - reflexivity.
  - reflexivity.
  - reflexivity.
  - vm_compute. discriminate.
Defined.

(** ** A string argument always returns *)

Section StringReturns.
Context {Device : Type} {SK : Sink Device} {FF : FloatFormat} {UB : Unbounded Device}.
Local Abbreviation State := (PrintfState Device).


End StringReturns.


Example pointer_kinds_print_the_address :
  printed "%p|" [a_int_ptr 4096] = Ok ("0x1000|"%string, 7) /\
  printed "%p|" [a_c_string (mkCString 4096 (lit "hello"))] = Ok ("0x1000|"%string, 7).
Proof. split; reflexivity. Qed.

(** ** A point without digits *)

(** C5 (the code departs from it): in [%05.d] the point gives the precision
    0, so the zero-fill flag should be ignored and the width be filled with
    blanks, as the code does for [%05.0d].  The code leaves the precision
    unset at a point that no digit follows and fills the width of [%05.d]
    with zeros, as for [%05d]. *)
Theorem zero_fill_survives_a_bare_point :
  printed "%05.d" [a_int 42] = Ok ("00042"%string, 5) /\
  printed "%05.0d" [a_int 42] = Ok ("   42"%string, 5) /\
  printed "%05d" [a_int 42] = Ok ("00042"%string, 5).
Proof. repeat split; reflexivity. Qed.

(** C7 (the code departs from it): in [%.s] the point gives the precision
    0, so no character of the string should be copied, as the code does for
    [%.0s].  The code leaves the precision unset at a point that no digit
    follows and copies the whole string. *)
Theorem bare_point_copies_the_whole_string :
  printed "%.s" [a_c_string (mkCString 4096 (lit "hello"))] = Ok ("hello"%string, 5) /\
  printed "%.0s" [a_c_string (mkCString 4096 (lit "hello"))] = Ok (EmptyString, 0) /\
  printed "%.3s" [a_c_string (mkCString 4096 (lit "hello"))] = Ok ("hel"%string, 3).
Proof. repeat split; reflexivity. Qed.
